(** * Google search automation: session controller, block detector,
      fingerprint manager and result extractor

    A shallow embedding of [search.ts] (with the option types of [types.ts]
    and the entry points used by [index.ts] and [mcp-server.ts]), and the
    properties of its specification that hold, or fail, on it.

    Conventions of the embedding.
    - JavaScript strings are [string]s; [includes], [startsWith], [replace]
      with a string pattern and [trim] are written out below.
    - JavaScript numbers that the code only compares and counts with
      ([limit], the timezone offset, the hour) are integers in [Z]. The
      function evaluated in the page is given a second time with its limit
      as the number it is ([JsNumber]: a rational, [NaN] or an infinity);
      the two agree on integer limits.
    - A string whose length in UTF-16 code units matters (the preview of
      the command line) is the list of its code units.
    - [undefined] / a missing optional field is [None].
    - The browser engine, the file system, the clock and [Math.random] are
      the environment: every call to them is answered by an oracle, and
      every call is recorded in a trace of events. *)

From Stdlib Require Import ZArith QArith Qround Ascii String.
From stdpp Require Import base option list gmap strings.

Local Open Scope string_scope.
Local Open Scope Z_scope.
Local Open Scope list_scope.

(** ** JavaScript string primitives *)

Module Js.

(** [s.startsWith(p)] *)
Fixpoint startsWith (s p : string) {struct p} : bool :=
  match p with
  | EmptyString => true
  | String a p' =>
      match s with
      | EmptyString => false
      | String b s' => if Ascii.eqb a b then startsWith s' p' else false
      end
  end.

(** [s.includes(p)] *)
Fixpoint includes (s p : string) : bool :=
  if startsWith s p then true
  else match s with
       | EmptyString => false
       | String _ s' => includes s' p
       end.

(** [s.substring(n)] for [n] a natural number. *)
Fixpoint skip (n : nat) (s : string) : string :=
  match n with
  | O => s
  | S n' => match s with
            | EmptyString => EmptyString
            | String _ s' => skip n' s'
            end
  end.

(** [s.replace(pat, rep)] with a string pattern: the first occurrence of
    [pat], scanning from the left, is replaced; without an occurrence the
    string is returned as it is. ([rep] is taken literally: the only
    replacement text of the program has no [$].) *)
Fixpoint replace (s pat rep : string) : string :=
  if startsWith s pat then rep +:+ skip (String.length pat) s
  else match s with
       | EmptyString => EmptyString
       | String c s' => String c (replace s' pat rep)
       end.

(** White space of [trim], on the character codes a [string] has: the
    ASCII ones. [trim] also strips the white space of Unicode beyond them
    (U+00A0, U+3000, ...), which this reading leaves out. *)
Definition isWhiteSpace (c : ascii) : bool :=
  let n := nat_of_ascii c in
  (Nat.eqb n 9 || Nat.eqb n 10 || Nat.eqb n 11 || Nat.eqb n 12
   || Nat.eqb n 13 || Nat.eqb n 32)%bool.

Fixpoint trimStart (s : string) : string :=
  match s with
  | EmptyString => EmptyString
  | String c s' => if isWhiteSpace c then trimStart s' else s
  end.

Fixpoint trimEnd (s : string) : string :=
  match s with
  | EmptyString => EmptyString
  | String c s' =>
      match trimEnd s' with
      | EmptyString => if isWhiteSpace c then EmptyString
                       else String c EmptyString
      | t => String c t
      end
  end.

(** [s.trim()] *)
Definition trim (s : string) : string := trimEnd (trimStart s).

(** Truthiness of a string: [!!s]. *)
Definition truthy (s : string) : bool := negb (String.eqb s "").

(** [a || b] on an optional string and a string. *)
Definition orElse (a : option string) (b : string) : string :=
  match a with
  | Some s => if truthy s then s else b
  | None => b
  end.

(** [arr.slice(0, e)]: a negative end counts from the end of the array. *)
Definition slice0 {A : Type} (l : list A) (e : Z) : list A :=
  let len := Z.of_nat (length l) in
  let final := if e <? 0 then Z.max (len + e) 0 else Z.min e len in
  take (Z.to_nat final) l.

(** [for (const x of xs) { if (stop) break; body }] over an accumulator. *)
Fixpoint forOf {A S : Type} (stop : S -> bool) (body : A -> S -> S)
    (xs : list A) (s : S) : S :=
  match xs with
  | [] => s
  | x :: xs' => if stop s then s else forOf stop body xs' (body x s)
  end.

End Js.

(** ** Data model ([types.ts] and the interfaces of [search.ts]) *)

Record SearchResult := mkResult {
  title : string;
  link : string;
  snippet : string
}.

Record SearchResponse := mkResponse {
  query : string;
  results : list SearchResult
}.

Record CommandOptions := mkOptions {
  limit : option Z;
  timeout : option Z;
  headless : option bool;
  stateFile : option string;
  noSaveState : option bool;
  locale : option string
}.

Record HtmlResponse := mkHtml {
  html_query : string;
  html : string;
  url : string;
  savedPath : option string;
  screenshotPath : option string;
  originalHtmlLength : nat
}.

Inductive ColorScheme := dark | light.
Inductive ReducedMotion := reduce | no_preference.
Inductive ForcedColors := active | none.

Record FingerprintConfig := mkFingerprint {
  deviceName : string;
  fp_locale : string;
  timezoneId : string;
  colorScheme : ColorScheme;
  reducedMotion : ReducedMotion;
  forcedColors : ForcedColors
}.

Record SavedState := mkSaved {
  fingerprint : option FingerprintConfig;
  googleDomain : option string
}.

(** [opt = d] in a destructuring pattern: the default replaces [undefined]. *)
Definition withDefault {A : Type} (d : A) (o : option A) : A :=
  match o with Some x => x | None => d end.

(** ** Fingerprint manager *)

(** What [getHostMachineConfig] reads from the host. *)
Record Host := mkHost {
  env_LANG : option string;
  timezoneOffset : Z;
  hours : Z;
  platform : string
}.

Definition getHostMachineConfig (host : Host) (userLocale : option string)
    : FingerprintConfig :=
  let systemLocale := Js.orElse userLocale (Js.orElse (env_LANG host) "en-US") in
  let off := timezoneOffset host in
  let timezoneId :=
    if (off <=? -480) && (-600 <? off) then "Asia/Shanghai"
    else if off <=? -540 then "Asia/Tokyo"
    else if (off <=? -420) && (-480 <? off) then "Asia/Bangkok"
    else if (off <=? 0) && (-60 <? off) then "Europe/London"
    else if (off <=? 60) && (0 <? off) then "Europe/Berlin"
    else if (off <=? 300) && (240 <? off) then "America/New_York"
    else "America/New_York" in
  let hour := hours host in
  let colorScheme := if (19 <=? hour) || (hour <? 7) then dark else light in
  let deviceName :=
    if String.eqb (platform host) "darwin" then "Desktop Safari"
    else if String.eqb (platform host) "win32" then "Desktop Edge"
    else if String.eqb (platform host) "linux" then "Desktop Firefox"
    else "Desktop Chrome" in
  {| deviceName := deviceName;
     fp_locale := systemLocale;
     timezoneId := timezoneId;
     colorScheme := colorScheme;
     reducedMotion := no_preference;
     forcedColors := none |}.

Definition deviceList : list string :=
  ["Desktop Chrome"; "Desktop Edge"; "Desktop Firefox"; "Desktop Safari"].

Definition googleDomains : list string :=
  ["https://www.google.com"; "https://www.google.co.uk";
   "https://www.google.ca"; "https://www.google.com.au"].

(** [list[Math.floor(Math.random() * list.length)]], the draw given as the
    natural number [r]. *)
Definition pick (l : list string) (r : nat) : string :=
  nth (r mod length l) l "".

(** A device descriptor of Playwright's registry [devices]. The program
    never reads one: it spreads it into the context options. It is kept as
    its JSON text. *)
Record DeviceDescriptor := mkDescriptor { descriptorJson : string }.

(** The options a browsing context is created with: the spread of the
    device descriptor ([None] when [devices] has no such name), overwritten
    by the five fingerprint fields. The fields added afterwards
    ([permissions], [acceptDownloads], [isMobile], [hasTouch],
    [javaScriptEnabled]) are the same constants in every call and are left
    out. *)
Record ContextOptions := mkContextOptions {
  co_device : option DeviceDescriptor;
  co_locale : string;
  co_timezoneId : string;
  co_colorScheme : ColorScheme;
  co_reducedMotion : ReducedMotion;
  co_forcedColors : ForcedColors
}.

Section Fingerprint.

(** Playwright's registry [devices] of device descriptors. *)
Variable devices : string -> option DeviceDescriptor.

(** The test of [getDeviceConfig]:
    [savedState.fingerprint?.deviceName && devices[...deviceName]]. *)
Definition recognized (fp : FingerprintConfig) : bool :=
  Js.truthy (deviceName fp) && bool_decide (is_Some (devices (deviceName fp))).

Definition getDeviceConfig (savedState : SavedState) (r : nat)
    : string * option DeviceDescriptor :=
  match fingerprint savedState with
  | Some fp =>
      if recognized fp then (deviceName fp, devices (deviceName fp))
      else let randomDevice := pick deviceList r in
           (randomDevice, devices randomDevice)
  | None =>
      let randomDevice := pick deviceList r in
      (randomDevice, devices randomDevice)
  end.

(** Lines 267-320 of [performSearch] (and the same lines of
    [performSearchAndGetHtml]): the device name used, the context options,
    and [savedState] as the block leaves it. *)
Definition resolveFingerprint (host : Host) (locale : string)
    (savedState : SavedState) (r : nat)
    : string * ContextOptions * SavedState :=
  let '(deviceName0, deviceConfig) := getDeviceConfig savedState r in
  match fingerprint savedState with
  | Some fp =>
      (deviceName0,
       {| co_device := deviceConfig;
          co_locale := fp_locale fp;
          co_timezoneId := timezoneId fp;
          co_colorScheme := colorScheme fp;
          co_reducedMotion := reducedMotion fp;
          co_forcedColors := forcedColors fp |},
       savedState)
  | None =>
      let hostConfig := getHostMachineConfig host (Some locale) in
      let differs := negb (String.eqb (deviceName hostConfig) deviceName0) in
      (if differs then deviceName hostConfig else deviceName0,
       {| co_device := if differs then devices (deviceName hostConfig)
                       else deviceConfig;
          co_locale := fp_locale hostConfig;
          co_timezoneId := timezoneId hostConfig;
          co_colorScheme := colorScheme hostConfig;
          co_reducedMotion := reducedMotion hostConfig;
          co_forcedColors := forcedColors hostConfig |},
       {| fingerprint := Some hostConfig;
          googleDomain := googleDomain savedState |})
  end.

End Fingerprint.

(** ** Block detector *)

Definition sorryPatterns : list string :=
  ["google.com/sorry/index"; "google.com/sorry"; "recaptcha"; "captcha";
   "unusual traffic"].

(** Checkpoint after navigation: [page.url()] and the URL of the response
    of [page.goto] ([null] when the navigation produced no response). *)
Definition isBlockedPage (currentUrl : string) (response : option string)
    : bool :=
  existsb (fun pattern =>
             Js.includes currentUrl pattern
             || match response with
                | Some u => Js.includes u pattern
                | None => false
                end) sorryPatterns.

(** Checkpoint after the query is submitted: [page.url()] only. *)
Definition isBlockedAfterSearch (searchUrl : string) : bool :=
  existsb (fun pattern => Js.includes searchUrl pattern) sorryPatterns.

(** Checkpoint when no results container appeared: [page.url()] only. *)
Definition isBlockedDuringResults (currentUrl : string) : bool :=
  existsb (fun pattern => Js.includes currentUrl pattern) sorryPatterns.

(** The URL predicate of [page.waitForNavigation]. *)
Definition leftBlockedPage (urlStr : string) : bool :=
  forallb (fun pattern => negb (Js.includes urlStr pattern)) sorryPatterns.

(** [s] contains [p]: [p] stands somewhere in [s]. *)
Definition contains (s p : string) : Prop :=
  exists pre post, s = pre +:+ p +:+ post.

(** The check as the specification words it: either URL contains one of
    the patterns. *)
Definition isBlocked_spec (currentUrl : string) (lastResponseUrl : option string)
    : Prop :=
  exists pattern, pattern ∈ sorryPatterns /\
    (contains currentUrl pattern \/
     exists u, lastResponseUrl = Some u /\ contains u pattern).

(** ** State file paths *)

Definition fingerprintFile (stateFile : string) : string :=
  Js.replace stateFile ".json" "-fingerprint.json".

(** The derivation as the specification words it: a trailing [.json] is
    replaced, any other path is left alone. *)
Fixpoint replaceTrailingJson (s : string) : string :=
  if String.eqb s ".json" then "-fingerprint.json"
  else match s with
       | EmptyString => EmptyString
       | String c s' => String c (replaceTrailingJson s')
       end.

(** ** Result extractor *)

(** The part of the DOM interface that the function given to
    [page.evaluate] uses. [parentChain e] is [e.parentElement],
    [e.parentElement.parentElement], ... up to the root element. *)
Record Dom := mkDom {
  Element : Type;
  documentQuerySelectorAll : string -> list Element;
  querySelector : Element -> string -> option Element;
  querySelectorAll : Element -> string -> list Element;
  textContent : Element -> option string;
  href : Element -> string;
  tagName : Element -> string;
  parentChain : Element -> list Element;
  isHTMLAnchorElement : Element -> bool
}.

Record SelectorSet := mkSelectors {
  sel_container : string;
  sel_title : string;
  sel_snippet : string
}.

(** The double quote character, for the selectors that carry one. *)
Definition dq : string := String (ascii_of_nat 34) EmptyString.

Definition sncf : string := "[data-sncf=" +:+ dq +:+ "1" +:+ dq +:+ "]".
Definition lineClamp : string :=
  "div[style*=" +:+ dq +:+ "webkit-line-clamp" +:+ dq +:+ "]".
Definition roleText : string := "div[role=" +:+ dq +:+ "text" +:+ dq +:+ "]".

Definition selectorSets : list SelectorSet :=
  [ mkSelectors "#search div[data-hveid]" "h3" ".VwiC3b";
    mkSelectors "#rso div[data-hveid]" "h3" sncf;
    mkSelectors ".g" "h3" lineClamp;
    mkSelectors "div[jscontroller][data-hveid]" "h3" roleText ].

Definition alternativeSnippetSelectors : list string :=
  [ ".VwiC3b"; sncf; lineClamp; roleText ].

(** The two variables the extraction loops update. *)
Record Acc := mkAcc {
  acc_results : list SearchResult;
  seenUrls : gset string
}.

Section Extractor.

Variable D : Dom.
Variable maxResults : Z.

(** [(el.textContent || "").trim()] *)
Definition trimmedText (el : Element D) : string :=
  Js.trim (withDefault "" (textContent D el)).

(** [if (results.length >= maxResults) break;] *)
Definition full (acc : Acc) : bool :=
  maxResults <=? Z.of_nat (length (acc_results acc)).

(** The link of a container: the anchor inside the title, else the nearest
    enclosing element with tag [A] when it is an anchor element, else the
    first anchor of the container. *)
Definition findLink (container titleElement : Element D) : string :=
  match querySelector D titleElement "a" with
  | Some linkInTitle => href D linkInTitle
  | None =>
      let current :=
        List.find (fun e => String.eqb (tagName D e) "A")
                  (titleElement :: parentChain D titleElement) in
      match current with
      | Some cur =>
          if isHTMLAnchorElement D cur then href D cur
          else match querySelector D container "a" with
               | Some containerLink => href D containerLink
               | None => ""
               end
      | None =>
          match querySelector D container "a" with
          | Some containerLink => href D containerLink
          | None => ""
          end
      end
  end.

(** The loop over [alternativeSnippetSelectors]: the first selector that
    matches an element gives the snippet, empty or not. *)
Fixpoint alternativeSnippet (container : Element D) (sels : list string)
    : string :=
  match sels with
  | [] => ""
  | altSelector :: rest =>
      match querySelector D container altSelector with
      | Some element => trimmedText element
      | None => alternativeSnippet container rest
      end
  end.

Definition findSnippet (selectors : SelectorSet) (container : Element D)
    : string :=
  match querySelector D container (sel_snippet selectors) with
  | Some snippetElement => trimmedText snippetElement
  | None =>
      let snippet := alternativeSnippet container alternativeSnippetSelectors in
      if negb (Js.truthy snippet) then
        let textNodes :=
          List.filter
            (fun el =>
               negb (bool_decide (is_Some (querySelector D el "h3")))
               && (20 <? String.length (trimmedText el))%nat)
            (querySelectorAll D container "div") in
        match textNodes with
        | first :: _ => trimmedText first
        | [] => snippet
        end
      else snippet
  end.

(** One iteration of the loop over the containers of a selector set, after
    its [break] test. *)
Definition processContainer (selectors : SelectorSet) (container : Element D)
    (acc : Acc) : Acc :=
  match querySelector D container (sel_title selectors) with
  | None => acc
  | Some titleElement =>
      let title := trimmedText titleElement in
      let link := findLink container titleElement in
      if negb (Js.truthy link) || negb (Js.startsWith link "http")
         || bool_decide (link ∈ seenUrls acc)
      then acc
      else
        let snippet := findSnippet selectors container in
        if Js.truthy title && Js.truthy link then
          {| acc_results := acc_results acc ++ [mkResult title link snippet];
             seenUrls := seenUrls acc ∪ {[ link ]} |}
        else acc
  end.

(** One iteration of the loop over the selector sets, after its [break]
    test. *)
Definition processSelectorSet (selectors : SelectorSet) (acc : Acc) : Acc :=
  Js.forOf full (processContainer selectors)
    (documentQuerySelectorAll D (sel_container selectors)) acc.

(** The snippet of the supplementary pass: the text of the first of the
    three nearest ancestors whose text is longer than 20 and differs from the
    title. *)
Definition ancestorSnippet (el : Element D) (title : string) : string :=
  match List.find
          (fun parent =>
             let text := trimmedText parent in
             (20 <? String.length text)%nat && negb (String.eqb text title))
          (take 3 (parentChain D el)) with
  | Some parent => trimmedText parent
  | None => ""
  end.

(** One iteration of the supplementary loop over all anchors, after its
    [break] test. *)
Definition processAnchor (el : Element D) (acc : Acc) : Acc :=
  if negb (isHTMLAnchorElement D el) then acc
  else
    let link := href D el in
    if negb (Js.truthy link)
       || bool_decide (link ∈ seenUrls acc)
       || Js.includes link "google.com/"
       || Js.includes link "accounts.google"
       || Js.includes link "support.google"
    then acc
    else
      let title := trimmedText el in
      if negb (Js.truthy title) then acc
      else
        let snippet := ancestorSnippet el title in
        {| acc_results := acc_results acc ++ [mkResult title link snippet];
           seenUrls := seenUrls acc ∪ {[ link ]} |}.

(** The state after the selector cascade. *)
Definition cascade : Acc :=
  Js.forOf full processSelectorSet selectorSets (mkAcc [] ∅).

(** The state after the supplementary pass, entered when the cascade left
    the list short of [maxResults]. *)
Definition supplemented : Acc :=
  if (Z.of_nat (length (acc_results cascade)) <? maxResults)
  then Js.forOf full processAnchor
         (documentQuerySelectorAll D "a[href^='http']") cascade
  else cascade.

(** The function evaluated in the page: [page.evaluate(..., limit)]. *)
Definition extractResults : list SearchResult :=
  Js.slice0 (acc_results supplemented) maxResults.

End Extractor.

(** ** The environment of a run *)

(** Handles of the browser engine. A handle is the number it was
    allocated under; a browser the caller supplies was allocated before the
    call. *)
Definition Browser := nat.
Definition BrowserContext := nat.
Definition Page := nat.

(** The calls the program makes to its environment: the browser engine,
    the file system, the clock and [Math.random]. Arguments that are the same
    constants in every call (launch flags, time limits, init scripts) are
    left out. *)
Inductive Event :=
| EvExistsSync (path : string)
| EvReadFile (path : string)
| EvRandom
| EvLaunch (headless : bool) (b : Browser)
| EvNewContext (b : Browser) (opts : ContextOptions)
    (storageState : option string) (c : BrowserContext)
| EvContextInitScript (c : BrowserContext)
| EvNewPage (c : BrowserContext) (p : Page)
| EvPageInitScript (p : Page)
| EvGoto (p : Page) (target : string)
| EvUrl (p : Page)
| EvPageClose (p : Page)
| EvContextClose (c : BrowserContext)
| EvBrowserClose (b : Browser)
| EvWaitForNavigation (p : Page)
| EvQuerySelector (p : Page) (selector : string)
| EvClick (p : Page)
| EvType (p : Page) (text : string) (delay : nat)
| EvWaitForTimeout (p : Page) (ms : nat)
| EvPress (p : Page) (key : string)
| EvWaitForLoadState (p : Page)
| EvWaitForSelector (p : Page) (selector : string)
| EvEvaluate (p : Page) (maxResults : Z)
| EvMkdir (path : string)
| EvStorageState (c : BrowserContext) (path : string)
| EvWriteFingerprint (path : string) (content : SavedState)
| EvContent (p : Page)
| EvNow
| EvWriteHtml (path : string) (content : string)
| EvScreenshot (p : Page) (path : string).

(** What the environment answers to a call. [throws] is the message of the
    error the call raises, if it raises one; each call reads the fields
    that are its result. *)
Record Reply := mkReply {
  throws : option string;
  r_url : string;
  r_response : option string;
  r_found : bool;
  r_exists : bool;
  r_random : nat;
  r_saved : SavedState;
  r_dom : Dom;
  r_html : string;
  r_iso : string
}.

(** The state a run threads: the number of calls made so far, the next
    free handle, the calls made, and the variable [savedState] that the
    attempts of one run share. *)
Record World := mkWorld {
  tick : nat;
  nextId : nat;
  trace : list Event;
  savedState : SavedState
}.

(** The outcome of an [async] function: a value, or the error it rejects
    with. A thrown value is kept as the text
    [error instanceof Error ? error.message : String(error)]. *)
Inductive Result (A : Type) :=
| Ok (a : A)
| Throw (error : string).
Arguments Ok {A}.
Arguments Throw {A}.

Definition M (A : Type) : Type := World -> Result A * World.

Definition ret {A : Type} (a : A) : M A := fun w => (Ok a, w).

(** [const x = await m; k] *)
Definition bind {A B : Type} (m : M A) (k : A -> M B) : M B :=
  fun w =>
    match m w with
    | (Ok a, w') => k a w'
    | (Throw e, w') => (Throw e, w')
    end.

Declare Scope controller_scope.
Delimit Scope controller_scope with M.
Notation "x ← y ; z" := (bind y (fun x => z))
  (at level 20, y at level 100, z at level 200, only parsing)
  : controller_scope.
Notation "' x ← y ; z" := (bind y (fun x => z))
  (at level 20, x pattern, y at level 100, z at level 200, only parsing)
  : controller_scope.
Local Open Scope controller_scope.

Definition throw {A : Type} (error : string) : M A :=
  fun w => (Throw error, w).

(** [try { m } catch (error) { h error }] *)
Definition tryCatch {A : Type} (m : M A) (h : string -> M A) : M A :=
  fun w =>
    match m w with
    | (Ok a, w') => (Ok a, w')
    | (Throw e, w') => h e w'
    end.

Definition getSaved : M SavedState := fun w => (Ok (savedState w), w).

Definition setSaved (s : SavedState) : M unit :=
  fun w => (Ok tt, mkWorld (tick w) (nextId w) (trace w) s).

(** A new handle. *)
Definition fresh : M nat :=
  fun w => (Ok (nextId w),
            mkWorld (tick w) (S (nextId w)) (trace w) (savedState w)).

Definition record (ev : Event) (w : World) : World :=
  mkWorld (S (tick w)) (nextId w) (trace w ++ [ev]) (savedState w).

(** What the [try] block of an attempt ends with: the response, or the
    request to run the attempt again, made by
    [return performSearch(false)]. The promise of the new attempt is returned
    without [await], so the [catch] around the statement does not see its
    rejection. *)
Inductive TryResult (A : Type) :=
| Done (r : A)
| Retry.
Arguments Done {A}.
Arguments Retry {A}.

(** What an attempt works with. *)
Record Attempt := mkAttempt {
  a_browser : Browser;
  browserWasProvided : bool;
  a_context : BrowserContext;
  a_page : Page;
  contextOptions : ContextOptions;
  a_headless : bool
}.

Definition searchInputSelectors : list string :=
  [ "textarea[name='q']"; "input[name='q']"; "textarea[title='Search']";
    "input[title='Search']"; "textarea[aria-label='Search']";
    "input[aria-label='Search']"; "textarea" ].

Definition searchResultSelectors : list string :=
  [ "#search"; "#rso"; ".g"; "[data-sokoban-container]"; "div[role='main']" ].

(** The three patterns [getGoogleSearchPageHtml] removes from the page. *)
Definition styleRe : string :=
  "<style\b[^<]*(?:(?!<\/style>)<[^<]*)*<\/style>".
Definition linkRe : string :=
  "<link\s+[^>]*rel=[" +:+ dq +:+ "']stylesheet[" +:+ dq +:+ "'][^>]*>".
Definition scriptRe : string :=
  "<script\b[^<]*(?:(?!<\/script>)<[^<]*)*<\/script>".

(** The mock result of the [catch] branch of [performSearch]. *)
Definition errorResponse (query error : string) : SearchResponse :=
  {| query := query;
     results :=
       [ {| title := "Search failed";
            link := EmptyString;
            snippet := "Could not complete the search, error message: "
                       +:+ error |} ] |}.

(** The message of the error the [catch] branch of
    [performSearchAndGetHtml] throws. *)
Definition htmlError (error : string) : string :=
  "Failed to get Google search page HTML: " +:+ error.

(** ** Session controller *)

Section Controller.

(** Playwright's device registry, the host that [getHostMachineConfig]
    reads, the oracle that answers the [n]-th call of the run, Node's
    [path.dirname], and the regular-expression engine behind
    [str.replace(/re/flags, by)]. *)
Variable devices : string -> option DeviceDescriptor.
Variable host : Host.
Variable env : nat -> Event -> Reply.
Variable dirname : string -> string.
Variable regexReplace : string -> string -> string -> string.

(** An awaited call: recorded, and rejected when the oracle says so. *)
Definition call (ev : Event) : M Reply :=
  fun w =>
    let r := env (tick w) ev in
    match throws r with
    | Some error => (Throw error, record ev w)
    | None => (Ok r, record ev w)
    end.

(** A call that cannot fail ([page.url()], [Math.random()],
    [fs.existsSync], [new Date()]). *)
Definition observe (ev : Event) : M Reply :=
  fun w => (Ok (env (tick w) ev), record ev w).

(** [Math.floor(Math.random() * (max - min + 1)) + min] *)
Definition getRandomDelay (min max : nat) : M nat :=
  r ← observe EvRandom;
  ret ((r_random r mod (max - min + 1)) + min)%nat.

(** [chromium.launch({ headless, ... })] *)
Definition launch (headless : bool) : M Browser :=
  b ← fresh;
  _ ← call (EvLaunch headless b);
  ret b.

(** The loop over [searchInputSelectors]: is there a search box. *)
Fixpoint findSearchInput (page : Page) (selectors : list string) : M bool :=
  match selectors with
  | [] => ret false
  | selector :: rest =>
      r ← call (EvQuerySelector page selector);
      if r_found r then ret true else findSearchInput page rest
  end.

(** The loop over [searchResultSelectors]: a selector that times out is
    skipped. *)
Fixpoint waitForResults (page : Page) (selectors : list string) : M bool :=
  match selectors with
  | [] => ret false
  | selector :: rest =>
      found ← tryCatch (_ ← call (EvWaitForSelector page selector); ret true)
                       (fun _ => ret false);
      if found then ret true else waitForResults page rest
  end.

(** The variables of [googleSearch] and [getGoogleSearchPageHtml] that
    their inner function closes over. *)
Section Closure.

Variable query : string.
Variable limit : Z.
Variable stateFile : string.
Variable noSaveState : bool.
Variable locale : string.
Variable storageState : option string.
Variable existingBrowser : option Browser.

(** Does [getDeviceConfig] take its first branch (no random draw). *)
Definition usesSavedDevice (s : SavedState) : bool :=
  match fingerprint s with
  | Some fp => recognized devices fp
  | None => false
  end.

(** From [getDeviceConfig()] to [page.addInitScript]: the fingerprint is
    resolved, and the context and the page are created. *)
Definition openPage (browser : Browser)
    : M (ContextOptions * BrowserContext * Page) :=
  s ← getSaved;
  r ← (if usesSavedDevice s then ret 0%nat
       else (d ← observe EvRandom; ret (r_random d)));
  let '(_, opts, s') := resolveFingerprint devices host locale s r in
  _ ← setSaved s';
  context ← fresh;
  _ ← call (EvNewContext browser opts storageState context);
  _ ← call (EvContextInitScript context);
  page ← fresh;
  _ ← call (EvNewPage context page);
  _ ← call (EvPageInitScript page);
  ret (opts, context, page).

(** The saved Google domain, or a random one that is then saved. *)
Definition selectDomain : M string :=
  s ← getSaved;
  match googleDomain s with
  | Some d =>
      if Js.truthy d then ret d
      else (r ← observe EvRandom;
            let selectedDomain := pick googleDomains (r_random r) in
            _ ← setSaved (mkSaved (fingerprint s) (Some selectedDomain));
            ret selectedDomain)
  | None =>
      r ← observe EvRandom;
      let selectedDomain := pick googleDomains (r_random r) in
      _ ← setSaved (mkSaved (fingerprint s) (Some selectedDomain));
      ret selectedDomain
  end.

(** The state is saved, unless the caller said not to; no failure of it
    leaves the block. *)
Definition saveState (a : Attempt) : M unit :=
  tryCatch
    (if negb noSaveState then
       ex ← observe (EvExistsSync (dirname stateFile));
       _ ← (if negb (r_exists ex)
            then (_ ← call (EvMkdir (dirname stateFile)); ret tt)
            else ret tt);
       _ ← call (EvStorageState (a_context a) stateFile);
       s ← getSaved;
       tryCatch (_ ← call (EvWriteFingerprint (fingerprintFile stateFile) s);
                 ret tt)
                (fun _ => ret tt)
     else ret tt)
    (fun _ => ret tt).

(** The block that is written out three times in [performSearch], once per
    checkpoint: the page and the context are closed; with a browser of the
    caller a headed browser is launched, given a context and a page, and
    closed again; otherwise the browser of the attempt is closed; then the
    attempt is run again with [headless = false]. *)
Definition escalate {A : Type} (a : Attempt) : M (TryResult A) :=
  _ ← call (EvPageClose (a_page a));
  _ ← call (EvContextClose (a_context a));
  if browserWasProvided a then
    newBrowser ← launch false;
    tryCatch
      (tempContext ← fresh;
       _ ← call (EvNewContext newBrowser (contextOptions a) None tempContext);
       tempPage ← fresh;
       _ ← call (EvNewPage tempContext tempPage);
       _ ← call (EvBrowserClose newBrowser);
       ret Retry)
      (fun error => _ ← call (EvBrowserClose newBrowser); throw error)
  else
    _ ← call (EvBrowserClose (a_browser a));
    ret Retry.

(** The block of [performSearchAndGetHtml] at its two checkpoints. *)
Definition escalateHtml {A : Type} (a : Attempt) : M (TryResult A) :=
  _ ← call (EvPageClose (a_page a));
  _ ← call (EvContextClose (a_context a));
  _ ← call (EvBrowserClose (a_browser a));
  ret Retry.

(** [if (blocked) { if (headless) { escalate } else { wait for the user;
    afterWait } }]: [Some] is the early [return] of the escalation. *)
Definition checkpoint {A : Type} (a : Attempt) (blocked : bool)
    (esc : M (TryResult A)) (afterWait : M unit)
    : M (option (TryResult A)) :=
  if blocked then
    if a_headless a then (t ← esc; ret (Some t))
    else (_ ← call (EvWaitForNavigation (a_page a));
          _ ← afterWait;
          ret None)
  else ret None.

(** From the search box to [waitForLoadState] after the Enter key. *)
Definition submitQuery (a : Attempt) : M unit :=
  searchInput ← findSearchInput (a_page a) searchInputSelectors;
  if negb searchInput then throw "Could not find search box"
  else
    _ ← call (EvClick (a_page a));
    d ← getRandomDelay 10 30;
    _ ← call (EvType (a_page a) query d);
    d' ← getRandomDelay 100 300;
    _ ← call (EvWaitForTimeout (a_page a) d');
    _ ← call (EvPress (a_page a) "Enter");
    _ ← call (EvWaitForLoadState (a_page a));
    ret tt.

(** The [try] block of [performSearch]. *)
Definition tryBlock (a : Attempt) : M (TryResult SearchResponse) :=
  selectedDomain ← selectDomain;
  response ← call (EvGoto (a_page a) selectedDomain);
  currentUrl ← observe (EvUrl (a_page a));
  esc1 ← checkpoint a (isBlockedPage (r_url currentUrl) (r_response response))
           (escalate a) (ret tt);
  match esc1 with
  | Some t => ret t
  | None =>
      _ ← submitQuery a;
      searchUrl ← observe (EvUrl (a_page a));
      esc2 ← checkpoint a (isBlockedAfterSearch (r_url searchUrl))
               (escalate a)
               (_ ← call (EvWaitForLoadState (a_page a)); ret tt);
      match esc2 with
      | Some t => ret t
      | None =>
          _ ← observe (EvUrl (a_page a));
          resultsFound ← waitForResults (a_page a) searchResultSelectors;
          esc3 ← (if resultsFound then ret None
                  else
                    currentUrl' ← observe (EvUrl (a_page a));
                    if isBlockedDuringResults (r_url currentUrl') then
                      checkpoint a true (escalate a)
                        (again ← waitForResults (a_page a)
                                   searchResultSelectors;
                         if again then ret tt
                         else throw "Could not find search results element")
                    else throw "Could not find search results element");
          match esc3 with
          | Some t => ret t
          | None =>
              d ← getRandomDelay 200 500;
              _ ← call (EvWaitForTimeout (a_page a) d);
              page ← call (EvEvaluate (a_page a) limit);
              let results := extractResults (r_dom page) limit in
              _ ← saveState a;
              _ ← (if negb (browserWasProvided a)
                   then (_ ← call (EvBrowserClose (a_browser a)); ret tt)
                   else ret tt);
              ret (Done (mkResponse query results))
          end
      end
  end.

(** The [catch] block of [performSearch]. *)
Definition catchBlock (a : Attempt) (error : string)
    : M (TryResult SearchResponse) :=
  _ ← saveState a;
  _ ← (if negb (browserWasProvided a)
       then (_ ← call (EvBrowserClose (a_browser a)); ret tt)
       else ret tt);
  ret (Done (errorResponse query error)).

(** The browser of an attempt and [browserWasProvided]: the browser of the
    caller when there is one, else a new one. *)
Definition acquireBrowser (headless : bool) : M (Browser * bool) :=
  match existingBrowser with
  | Some b => ret (b, true)
  | None => b ← launch headless; ret (b, false)
  end.

(** The [try] statement of [performSearch]. *)
Definition guardedSearch (a : Attempt) : M (TryResult SearchResponse) :=
  tryCatch (tryBlock a) (catchBlock a).

(** [performSearch(headless)] once it has its browser, with [retry] for the
    call [performSearch(false)] it may end with. *)
Definition runAttempt (retry : M SearchResponse) (headless : bool)
    (browser : Browser) (provided : bool) : M SearchResponse :=
  '(opts, context, page) ← openPage browser;
  t ← guardedSearch (mkAttempt browser provided context page opts headless);
  match t with
  | Done r => ret r
  | Retry => retry
  end.

(** The body of [performSearch(headless)]. *)
Definition performSearchBody (retry : M SearchResponse) (headless : bool)
    : M SearchResponse :=
  '(browser, provided) ← acquireBrowser headless;
  runAttempt retry headless browser provided.

(** [performSearch]. The function calls itself only from an attempt that
    runs with [headless = true], and then with [false]: the second attempt
    has no third one behind it. *)
Definition performSearch (headless : bool) : M SearchResponse :=
  performSearchBody
    (performSearchBody (throw "performSearch(false) from a headed attempt")
       false)
    headless.

(** The further arguments of [getGoogleSearchPageHtml]. *)
Variable saveToFile : bool.
Variable outputPath : option string.

(** [if (!fs.existsSync(dir)) fs.mkdirSync(dir, { recursive: true })] *)
Definition ensureDir (dir : string) : M unit :=
  ex ← observe (EvExistsSync dir);
  if negb (r_exists ex) then (_ ← call (EvMkdir dir); ret tt) else ret tt.

(** The path the page is written to: the one given, or
    [./google-search-html/<query>-<timestamp>.html]. *)
Definition htmlOutputPath : M string :=
  match outputPath with
  | Some p =>
      if Js.truthy p then ret p
      else
        _ ← ensureDir "./google-search-html";
        now ← observe EvNow;
        let timestamp :=
          regexReplace "\." (regexReplace ":" (r_iso now) "-") "-" in
        let sanitizedQuery :=
          String.substring 0 50 (regexReplace "[^a-zA-Z0-9]" query "_") in
        ret ("./google-search-html" +:+ "/" +:+ sanitizedQuery +:+ "-"
             +:+ timestamp +:+ ".html")
  | None =>
      _ ← ensureDir "./google-search-html";
      now ← observe EvNow;
      let timestamp :=
        regexReplace "\." (regexReplace ":" (r_iso now) "-") "-" in
      let sanitizedQuery :=
        String.substring 0 50 (regexReplace "[^a-zA-Z0-9]" query "_") in
      ret ("./google-search-html" +:+ "/" +:+ sanitizedQuery +:+ "-"
           +:+ timestamp +:+ ".html")
  end.

(** The [try] block of [performSearchAndGetHtml]. *)
Definition tryBlockHtml (a : Attempt) : M (TryResult HtmlResponse) :=
  selectedDomain ← selectDomain;
  response ← call (EvGoto (a_page a) selectedDomain);
  currentUrl ← observe (EvUrl (a_page a));
  esc1 ← checkpoint a (isBlockedPage (r_url currentUrl) (r_response response))
           (escalateHtml a) (ret tt);
  match esc1 with
  | Some t => ret t
  | None =>
      _ ← submitQuery a;
      searchUrl ← observe (EvUrl (a_page a));
      esc2 ← checkpoint a (isBlockedAfterSearch (r_url searchUrl))
               (escalateHtml a)
               (_ ← call (EvWaitForLoadState (a_page a)); ret tt);
      match esc2 with
      | Some t => ret t
      | None =>
          finalUrl ← observe (EvUrl (a_page a));
          _ ← call (EvWaitForTimeout (a_page a) 1000);
          _ ← call (EvWaitForLoadState (a_page a));
          content ← call (EvContent (a_page a));
          let fullHtml := r_html content in
          let html :=
            regexReplace scriptRe
              (regexReplace linkRe (regexReplace styleRe fullHtml "") "") "" in
          paths ← (if saveToFile then
                     out ← htmlOutputPath;
                     _ ← ensureDir (dirname out);
                     _ ← call (EvWriteHtml out html);
                     let screenshotFilePath :=
                       regexReplace "\.html$" out ".png" in
                     _ ← call (EvScreenshot (a_page a) screenshotFilePath);
                     ret (Some out, Some screenshotFilePath)
                   else ret (None, None));
          _ ← saveState a;
          _ ← call (EvBrowserClose (a_browser a));
          ret (Done (mkHtml query html (r_url finalUrl) (fst paths)
                       (snd paths) (String.length fullHtml)))
      end
  end.

(** The [catch] block of [performSearchAndGetHtml]. *)
Definition catchBlockHtml (a : Attempt) (error : string)
    : M (TryResult HtmlResponse) :=
  _ ← saveState a;
  _ ← call (EvBrowserClose (a_browser a));
  throw (htmlError error).

(** The [try] statement of [performSearchAndGetHtml]. *)
Definition guardedHtml (a : Attempt) : M (TryResult HtmlResponse) :=
  tryCatch (tryBlockHtml a) (catchBlockHtml a).

Definition performSearchAndGetHtmlBody (retry : M HtmlResponse)
    (headless : bool) : M HtmlResponse :=
  browser ← launch headless;
  '(opts, context, page) ← openPage browser;
  t ← guardedHtml (mkAttempt browser false context page opts headless);
  match t with
  | Done r => ret r
  | Retry => retry
  end.

Definition performSearchAndGetHtml (headless : bool) : M HtmlResponse :=
  performSearchAndGetHtmlBody
    (performSearchAndGetHtmlBody
       (throw "performSearchAndGetHtml(false) from a headed attempt") false)
    headless.

End Closure.

(** The state file is looked for; next to it, the fingerprint file is read
    into [savedState]. The result is [storageState]. A fingerprint file
    that parses is taken to hold an object of the shape of [SavedState]:
    [JSON.parse] can also return [null] or a value of another shape, which
    this reading leaves out. *)
Definition loadState (stateFile : string) : M (option string) :=
  _ ← setSaved (mkSaved None None);
  ex ← observe (EvExistsSync stateFile);
  if r_exists ex then
    ex' ← observe (EvExistsSync (fingerprintFile stateFile));
    _ ← (if r_exists ex' then
           tryCatch (r ← call (EvReadFile (fingerprintFile stateFile));
                     setSaved (r_saved r))
                    (fun _ => ret tt)
         else ret tt);
    ret (Some stateFile)
  else ret None.

(** [googleSearch(query, options, existingBrowser)] *)
Definition googleSearch (query : string) (options : CommandOptions)
    (existingBrowser : option Browser) : M SearchResponse :=
  let limit := withDefault 10 (limit options) in
  let stateFile := withDefault "./browser-state.json" (stateFile options) in
  let noSaveState := withDefault false (noSaveState options) in
  let locale := withDefault "en-US" (locale options) in
  let headless := withDefault true (headless options) in
  let useHeadless := headless in
  storageState ← loadState stateFile;
  performSearch query limit stateFile noSaveState locale storageState
    existingBrowser useHeadless.

(** [getGoogleSearchPageHtml(query, options, saveToFile, outputPath)] *)
Definition getGoogleSearchPageHtml (query : string) (options : CommandOptions)
    (saveToFile : bool) (outputPath : option string) : M HtmlResponse :=
  let stateFile := withDefault "./browser-state.json" (stateFile options) in
  let noSaveState := withDefault false (noSaveState options) in
  let locale := withDefault "en-US" (locale options) in
  let useHeadless := true in
  storageState ← loadState stateFile;
  performSearchAndGetHtml query stateFile noSaveState locale storageState
    saveToFile outputPath useHeadless.

End Controller.

(** The browsers on which a trace creates contexts, and the launches of a
    trace with their mode, in order. *)
Definition contextBrowsers (t : list Event) : list Browser :=
  omap (fun ev => match ev with
                  | EvNewContext b _ _ _ => Some b
                  | _ => None
                  end) t.

Definition launches (t : list Event) : list (bool * Browser) :=
  omap (fun ev => match ev with
                  | EvLaunch headless b => Some (headless, b)
                  | _ => None
                  end) t.

(** How often a trace waits for the user to leave a challenge page. *)
Definition navigationWaits (t : list Event) : nat :=
  length (omap (fun ev => match ev with
                          | EvWaitForNavigation p => Some p
                          | _ => None
                          end) t).

(** At the start of a run no call has been made, and the handles below
    [n] are taken. *)
Definition startWorld (n : nat) : World :=
  {| tick := 0; nextId := n; trace := []; savedState := mkSaved None None |}.

(** ** Invariants of the loops and of a run *)

(** What the two loops keep true of [results] and [seenUrls]: the links
    are pairwise distinct, and every link collected has been recorded. *)
Definition AccInv (acc : Acc) : Prop :=
  NoDup (link <$> acc_results acc)
  /\ forall r, r ∈ acc_results acc -> link r ∈ seenUrls acc.

(** Every link collected so far begins with [http]. *)
Definition AllHttp (acc : Acc) : Prop :=
  forall r, r ∈ acc_results acc -> Js.startsWith (link r) "http" = true.

(** The handles below [n] were allocated before the run. An event is
    [allowed] unless it closes a browser with such a handle. *)
Definition allowed (n : nat) (ev : Event) : Prop :=
  forall x, ev = EvBrowserClose x -> (n <= x)%nat.

(** From a world whose free handles are not below [n], [m] only adds
    events to the trace, all of them allowed, keeps the free handles not
    below [n], and returns a value that satisfies [Q]. *)
Definition keeps (n : nat) {A : Type} (m : M A) (Q : A -> Prop) : Prop :=
  forall w, (n <= nextId w)%nat ->
    exists evs,
      trace (snd (m w)) = trace w ++ evs
      /\ (n <= nextId (snd (m w)))%nat
      /\ Forall (allowed n) evs
      /\ match fst (m w) with Ok a => Q a | Throw _ => True end.

(** An attempt may close its browser when the browser is not the
    caller's, and then the browser is one the run launched. *)
Definition ownBrowser (n : nat) (a : Attempt) : Prop :=
  browserWasProvided a = false -> (n <= a_browser a)%nat.

(** ** Fixtures: a results page and four oracles *)

Module Fixture.

(** A page of eleven elements. Containers 1 and 4 match the first selector
    set, containers 4 and 7 the third; the titles are 2, 5 and 8; the
    anchors are 3 (around title 2), 6 (inside title 5, the same address as
    3), 9 (in container 7), 10 (a link of the search engine) and 11 (a link
    outside every container). *)
Definition pageDom : Dom :=
  {| Element := nat;
     documentQuerySelectorAll := fun sel =>
       if String.eqb sel "#search div[data-hveid]" then [1; 4]%nat
       else if String.eqb sel ".g" then [4; 7]%nat
       else if String.eqb sel "a[href^='http']" then [3; 6; 9; 10; 11]%nat
       else [];
     querySelector := fun e sel =>
       match e with
       | 1%nat => if String.eqb sel "h3" then Some 2%nat
                  else if String.eqb sel "a" then Some 3%nat else None
       | 4%nat => if String.eqb sel "h3" then Some 5%nat
                  else if String.eqb sel "a" then Some 6%nat else None
       | 5%nat => if String.eqb sel "a" then Some 6%nat else None
       | 7%nat => if String.eqb sel "h3" then Some 8%nat
                  else if String.eqb sel "a" then Some 9%nat
                  else if String.eqb sel ".VwiC3b" then Some 12%nat else None
       | _ => None
       end;
     querySelectorAll := fun _ _ => [];
     textContent := fun e =>
       match e with
       | 2%nat => Some " First result "
       | 5%nat => Some "Same address again"
       | 8%nat => Some "Third result"
       | 11%nat => Some "Outside link"
       | 12%nat => Some "A snippet of the third result."
       | 13%nat => Some "Outside link and the text that surrounds it"
       | _ => None
       end;
     href := fun e =>
       match e with
       | 3%nat => "https://example.com/a"
       | 6%nat => "https://example.com/a"
       | 9%nat => "https://example.org/c"
       | 10%nat => "https://www.google.com/preferences"
       | 11%nat => "https://example.net/d"
       | _ => EmptyString
       end;
     tagName := fun e =>
       match e with
       | 2%nat | 5%nat | 8%nat => "H3"
       | 3%nat | 6%nat | 9%nat | 10%nat | 11%nat => "A"
       | _ => "DIV"
       end;
     parentChain := fun e =>
       match e with
       | 2%nat => [3; 1]%nat
       | 3%nat => [1]%nat
       | 5%nat => [4]%nat
       | 6%nat => [5; 4]%nat
       | 8%nat => [7]%nat
       | 9%nat => [7]%nat
       | 11%nat => [13]%nat
       | 12%nat => [7]%nat
       | _ => []
       end;
     isHTMLAnchorElement := fun e =>
       match e with
       | 3%nat | 6%nat | 9%nat | 10%nat | 11%nat => true
       | _ => false
       end |}.

Definition devices (name : string) : option DeviceDescriptor :=
  if bool_decide (name ∈ deviceList) then Some (mkDescriptor name) else None.

Definition host : Host :=
  {| env_LANG := Some "de_DE.UTF-8"; timezoneOffset := -60; hours := 12;
     platform := "linux" |}.

Definition dirname (path : string) : string := ".".

Definition regexReplace (re input rep : string) : string := input.

Definition calm : Reply :=
  {| throws := None;
     r_url := "https://www.google.com/search?q=rocq";
     r_response := Some "https://www.google.com/";
     r_found := true;
     r_exists := false;
     r_random := 0;
     r_saved := mkSaved None None;
     r_dom := pageDom;
     r_html := "<html><body>results</body></html>";
     r_iso := "2025-01-01T00:00:00.000Z" |}.

(** No call fails and no page is a challenge page. *)
Definition envCalm (n : nat) (ev : Event) : Reply := calm.

(** The navigation of the first attempt lands on the challenge page: the
    pages whose handle is below [5] are on it. *)
Definition envChallenge (n : nat) (ev : Event) : Reply :=
  match ev with
  | EvUrl p =>
      if (p <? 5)%nat then
        mkReply None "https://www.google.com/sorry/index?continue=x"
          (r_response calm) true false 0 (mkSaved None None) pageDom
          (r_html calm) (r_iso calm)
      else calm
  | _ => calm
  end.

(** Every navigation is answered by the challenge page, and the page has
    left it whenever its URL is read: the user solves the challenge. *)
Definition envSolved (n : nat) (ev : Event) : Reply :=
  match ev with
  | EvGoto _ _ =>
      mkReply None (r_url calm)
        (Some "https://www.google.com/sorry/index?continue=x") true false 0
        (mkSaved None None) pageDom (r_html calm) (r_iso calm)
  | _ => calm
  end.

(** No selector finds a search box. *)
Definition envNoSearchBox (n : nat) (ev : Event) : Reply :=
  match ev with
  | EvQuerySelector _ _ =>
      mkReply None (r_url calm) (r_response calm) false false 0
        (mkSaved None None) pageDom (r_html calm) (r_iso calm)
  | _ => calm
  end.

Definition noOptions : CommandOptions :=
  mkOptions None None None None None None.

Definition headedOption : CommandOptions :=
  mkOptions None None (Some false) None None None.

(** An attempt that runs headless on a browser of its own. *)
Definition attempt : Attempt :=
  mkAttempt 1%nat false 2%nat 3%nat
    (mkContextOptions None "en-US" "Europe/London" light no_preference none)
    true.

(** A persisted profile of a known device, and one of an unknown device. *)
Definition knownProfile : FingerprintConfig :=
  mkFingerprint "Desktop Safari" "fr-FR" "Europe/Paris" dark reduce active.

Definition unknownProfile : FingerprintConfig :=
  mkFingerprint "Pocket Calculator" "fr-FR" "Europe/Paris" dark reduce active.

End Fixture.

(** ** Further invariants of the extraction loops *)

(** The number of results collected so far, as the loops compare it. *)
Definition collected (acc : Acc) : Z := Z.of_nat (length (acc_results acc)).

(** [acc'] holds the results of [acc] and then at most one more. *)
Definition grows1 (acc acc' : Acc) : Prop :=
  exists extra, acc_results acc' = acc_results acc ++ extra
                /\ (length extra <= 1)%nat.

(** Two runs over the same page, with the limits [k] and [m]: they are in
    the same state while fewer than [k] results are collected; from then on
    the first run has stopped and the second only adds to its results. *)
Definition Sim (k : Z) (a b : Acc) : Prop :=
  (a = b /\ collected a < k)
  \/ (collected a = k /\ acc_results a `prefix_of` acc_results b).

(** What the supplementary pass lets into the results: a title and a link
    that are not empty, a link without the three substrings of the search
    engine's own pages, and a snippet that is empty or longer than twenty
    characters and different from the title. *)
Definition supplementary (r : SearchResult) : Prop :=
  Js.truthy (title r) = true
  /\ Js.truthy (link r) = true
  /\ Js.includes (link r) "google.com/" = false
  /\ Js.includes (link r) "accounts.google" = false
  /\ Js.includes (link r) "support.google" = false
  /\ (snippet r = EmptyString
      \/ ((20 < String.length (snippet r))%nat /\ snippet r <> title r)).

(** ** Further invariants of a run *)

(** From any world, [m] only adds events to the trace, all of them
    satisfying [P], and returns a value that satisfies [Q]. *)
Definition emits (P : Event -> Prop) {A : Type} (m : M A) (Q : A -> Prop)
    : Prop :=
  forall w,
    exists evs,
      trace (snd (m w)) = trace w ++ evs
      /\ Forall P evs
      /\ match fst (m w) with Ok a => Q a | Throw _ => True end.

(** The calls that no property below singles out. *)
Definition neutral (ev : Event) : bool :=
  match ev with
  | EvExistsSync _ | EvReadFile _ | EvRandom | EvNewContext _ _ _ _
  | EvContextInitScript _ | EvNewPage _ _ | EvPageInitScript _ | EvUrl _
  | EvQuerySelector _ _ | EvClick _ | EvType _ _ _ | EvWaitForTimeout _ _
  | EvPress _ _ | EvWaitForLoadState _ | EvWaitForSelector _ _
  | EvEvaluate _ _ | EvContent _ => true
  | _ => false
  end.

(** The calls that write to the file system. *)
Definition writesFile (ev : Event) : bool :=
  match ev with
  | EvMkdir _ | EvStorageState _ _ | EvWriteFingerprint _ _
  | EvWriteHtml _ _ | EvScreenshot _ _ => true
  | _ => false
  end.

Definition isGoto (ev : Event) : bool :=
  match ev with
  | EvGoto _ _ => true
  | _ => false
  end.

(** The number of navigations of a trace: one for each attempt that got
    as far as its [try] block. *)
Definition navigations (t : list Event) : nat :=
  length (List.filter isGoto t).

(** [m] only adds events to the trace, at most [n] of them navigations. *)
Definition navigatesAtMost {A : Type} (m : M A) (n : nat) : Prop :=
  forall w,
    exists evs,
      trace (snd (m w)) = trace w ++ evs /\ (navigations evs <= n)%nat.

(** No page of the environment is ever on a challenge URL, and no
    navigation is answered from one. *)
Definition calmEnv (env : nat -> Event -> Reply) : Prop :=
  forall t ev t' ev',
    isBlockedPage (r_url (env t ev)) (r_response (env t' ev')) = false.

(** The delays a run types and pauses with: [getRandomDelay(10, 30)] for
    the keys, [getRandomDelay(100, 300)] before the Enter key,
    [getRandomDelay(200, 500)] before the extraction, and the fixed second
    before the page is captured. *)
Definition humanPace (ev : Event) : Prop :=
  match ev with
  | EvType _ _ d => (10 <= d <= 30)%nat
  | EvWaitForTimeout _ d => (100 <= d <= 500)%nat \/ d = 1000%nat
  | _ => True
  end.

(** [emits] and [navigatesAtMost] together. *)
Definition run (P : Event -> Prop) (n : nat) {A : Type} (m : M A)
    (Q : A -> Prop) : Prop :=
  forall w,
    exists evs,
      trace (snd (m w)) = trace w ++ evs
      /\ Forall P evs
      /\ (navigations evs <= n)%nat
      /\ match fst (m w) with Ok a => Q a | Throw _ => True end.

(** What [P] must let through for the blocks of an attempt. Saving the
    state: nothing when the caller said not to save. *)
Definition saveAllowed (P : Event -> Prop) (noSaveState : bool) : Prop :=
  noSaveState = true
  \/ ((forall d, P (EvMkdir d))
      /\ (forall c p, P (EvStorageState c p))
      /\ (forall p s, P (EvWriteFingerprint p s))).

(** The end of an attempt: its browser is closed when it is its own. *)
Definition closeOwnAllowed (P : Event -> Prop) (a : Attempt) : Prop :=
  browserWasProvided a = false -> P (EvBrowserClose (a_browser a)).

(** An escalation of [performSearch]. *)
Definition escalateAllowed (P : Event -> Prop) (a : Attempt) : Prop :=
  P (EvPageClose (a_page a))
  /\ P (EvContextClose (a_context a))
  /\ (if browserWasProvided a
      then forall b, P (EvLaunch false b) /\ P (EvBrowserClose b)
      else P (EvBrowserClose (a_browser a))).

(** An escalation of [performSearchAndGetHtml]. *)
Definition escalateHtmlAllowed (P : Event -> Prop) (a : Attempt) : Prop :=
  P (EvPageClose (a_page a))
  /\ P (EvContextClose (a_context a))
  /\ P (EvBrowserClose (a_browser a)).

(** A checkpoint that finds a block page: the escalation [esc] of a
    headless attempt, the wait for the user of a headed one. Nothing in a
    calm environment. *)
Definition checkpointsAllowed (P : Event -> Prop)
    (env : nat -> Event -> Reply) (a : Attempt) (esc : Prop) : Prop :=
  calmEnv env
  \/ (if a_headless a then esc else P (EvWaitForNavigation (a_page a))).

(** Writing the page and its screenshot: nothing unless [saveToFile]. *)
Definition htmlAllowed (P : Event -> Prop) (saveToFile : bool) : Prop :=
  saveToFile = false
  \/ (P EvNow
      /\ (forall d, P (EvMkdir d))
      /\ (forall p h, P (EvWriteHtml p h))
      /\ (forall pg p, P (EvScreenshot pg p))).

(** What a run that meets no block page is limited to: it closes no page
    and no context and waits for no user; it launches and closes a browser
    only when the caller gave none, and launches in the mode [headless]. *)
Definition singleAttempt (headless : bool) (existingBrowser : option Browser)
    (ev : Event) : Prop :=
  match ev with
  | EvPageClose _ | EvContextClose _ | EvWaitForNavigation _ => False
  | EvLaunch h _ => existingBrowser = None /\ h = headless
  | EvBrowserClose _ => existingBrowser = None
  | _ => True
  end.

(** What the [try] block of the page capture returns: no new attempt in a
    calm environment or from a headed attempt, and no path unless
    [saveToFile]. *)
Definition captured (calm : Prop) (saveToFile : bool) (a : Attempt)
    (t : TryResult HtmlResponse) : Prop :=
  (calm \/ a_headless a = false -> t <> Retry)
  /\ forall r, t = Done r -> saveToFile = false ->
       savedPath r = None /\ screenshotPath r = None.

(** The response of a capture that was not asked to write a file. *)
Definition unsaved (saveToFile : bool) (r : HtmlResponse) : Prop :=
  saveToFile = false -> savedPath r = None /\ screenshotPath r = None.

(** The files a page capture may write: the page and its screenshot only
    when [saveToFile], the browser state and the fingerprint only unless
    [noSaveState], a directory for either. *)
Definition captureWrites (saveToFile noSaveState : bool) (ev : Event)
    : Prop :=
  match ev with
  | EvWriteHtml _ _ | EvScreenshot _ _ => saveToFile = true
  | EvStorageState _ _ | EvWriteFingerprint _ _ => noSaveState = false
  | EvMkdir _ => saveToFile = true \/ noSaveState = false
  | _ => True
  end.

(** An environment in which no browser context can be created. *)
Definition envNoContext (n : nat) (ev : Event) : Reply :=
  match ev with
  | EvNewContext _ _ _ _ =>
      mkReply (Some "Target closed") (r_url Fixture.calm)
        (r_response Fixture.calm) true false 0 (mkSaved None None)
        Fixture.pageDom (r_html Fixture.calm) (r_iso Fixture.calm)
  | _ => Fixture.calm
  end.

(** ** MCP server: the handler of the tool [google-search] *)

(** What the handler returns; [isError] is set on the failure result
    only. *)
Record ToolResult := mkToolResult {
  isError : bool;
  text : string
}.

Definition newline : string := String (ascii_of_nat 10) EmptyString.

Definition stateFileWarning : string :=
  "⚠️ Note: The browser state file does not exist. On first use, if human verification is encountered, the system will automatically switch to headed mode for you to complete the verification. After completion, the system will save the state file, and subsequent searches will be smoother.".

Section Server.

(** [JSON.stringify(results, null, 2)], the path
    [path.join(os.homedir(), ".google-search-browser-state.json")], and
    [globalBrowser]. *)
Variable devices : string -> option DeviceDescriptor.
Variable host : Host.
Variable env : nat -> Event -> Reply.
Variable dirname : string -> string.
Variable stringify : SearchResponse -> string.
Variable stateFilePath : string.
Variable globalBrowser : option Browser.

(** The handler registered with [server.tool]. *)
Definition searchTool (query : string) (limit timeout : option Z)
    : M ToolResult :=
  tryCatch
    (ex ← observe env (EvExistsSync stateFilePath);
     let warningMessage :=
       if negb (r_exists ex) then stateFileWarning else EmptyString in
     results ← googleSearch devices host env dirname query
                 (mkOptions limit timeout None (Some stateFilePath) None None)
                 globalBrowser;
     let responseText := stringify results in
     ret (mkToolResult false
            (if Js.truthy warningMessage
             then warningMessage +:+ newline +:+ newline +:+ responseText
             else responseText)))
    (fun error => ret (mkToolResult true ("Search failed: " +:+ error))).

End Server.

(** ** Command line: the preview of a captured page *)

(** A JavaScript string as [length] and [substring] see it: the
    sequence of its UTF-16 code units. *)
Definition CodeUnit := N.
Definition JsString := list CodeUnit.

(** The string ["..."]: three times the code unit of the full stop. *)
Definition dots : JsString := [46%N; 46%N; 46%N].

(** [html.substring(0, 500) + (html.length > 500 ? "..." : "")] *)
Definition htmlPreview (html : JsString) : JsString :=
  take 500 html ++ (if (500 <? length html)%nat then dots else []).

(** ** The limit of the extractor as a number *)

(** A JavaScript number: a finite one, which is a rational number, [NaN],
    or one of the two infinities. *)
Inductive JsNumber :=
| Finite (q : Q)
| NaN
| PosInfinity
| NegInfinity.

(** [n >= x] for the length [n] of an array. *)
Definition lengthGe (n : nat) (x : JsNumber) : bool :=
  match x with
  | Finite q => Qle_bool q (inject_Z (Z.of_nat n))
  | NaN => false
  | PosInfinity => false
  | NegInfinity => true
  end.

(** [n < x] for the length [n] of an array. *)
Definition lengthLt (n : nat) (x : JsNumber) : bool :=
  match x with
  | Finite q => negb (Qle_bool q (inject_Z (Z.of_nat n)))
  | NaN => false
  | PosInfinity => true
  | NegInfinity => false
  end.

(** The integer that [ToIntegerOrInfinity] makes of a finite number: the
    fraction is dropped, towards zero. *)
Definition truncate (q : Q) : Z :=
  if Qle_bool 0 q then Qfloor q else Qceiling q.

(** [arr.slice(0, e)] for a number [e]: [NaN] counts as [0]. *)
Definition sliceNum {A : Type} (l : list A) (e : JsNumber) : list A :=
  match e with
  | Finite q => Js.slice0 l (truncate q)
  | NaN => Js.slice0 l 0
  | PosInfinity => l
  | NegInfinity => []
  end.

(** The function evaluated in the page, with [maxResults] as the number
    it is given: the two [break] tests, the test before the supplementary
    pass and the final [slice] are the places that read it. *)
Section ExtractorNum.

Variable D : Dom.
Variable maxResults : JsNumber.

(** [if (results.length >= maxResults) break;] *)
Definition fullNum (acc : Acc) : bool :=
  lengthGe (length (acc_results acc)) maxResults.

Definition processSelectorSetNum (selectors : SelectorSet) (acc : Acc)
    : Acc :=
  Js.forOf fullNum (processContainer D selectors)
    (documentQuerySelectorAll D (sel_container selectors)) acc.

Definition cascadeNum : Acc :=
  Js.forOf fullNum processSelectorSetNum selectorSets (mkAcc [] ∅).

Definition supplementedNum : Acc :=
  if lengthLt (length (acc_results cascadeNum)) maxResults
  then Js.forOf fullNum (processAnchor D)
         (documentQuerySelectorAll D "a[href^='http']") cascadeNum
  else cascadeNum.

Definition extractResultsNum : list SearchResult :=
  sliceNum (acc_results supplementedNum) maxResults.

End ExtractorNum.

(** ** Pages and contexts of a run *)

(** The page and the context an attempt may close are its own. *)
Definition closesOnly (a : Attempt) (ev : Event) : Prop :=
  match ev with
  | EvPageClose p => p = a_page a
  | EvContextClose c => c = a_context a
  | _ => True
  end.

(** An event that closes no page and no context. *)
Definition keepsOpen (ev : Event) : Prop :=
  match ev with
  | EvPageClose _ | EvContextClose _ => False
  | _ => True
  end.

(** Every context that [evs] closes was created in [evs] on the browser
    [b], under a handle not below [n]; every page that [evs] closes was
    created in [evs] in such a context, under a handle not below [n]. *)
Definition derivedFrom (b : Browser) (n : nat) (evs : list Event) : Prop :=
  (forall c, EvContextClose c ∈ evs ->
     (n <= c)%nat /\ exists opts ss, EvNewContext b opts ss c ∈ evs)
  /\ (forall p, EvPageClose p ∈ evs ->
        (n <= p)%nat
        /\ exists c opts ss,
             EvNewPage c p ∈ evs /\ EvNewContext b opts ss c ∈ evs).

(** [m] allocates handles upwards and closes only pages and contexts
    that it derived from [b] itself. *)
Definition tidy (b : Browser) {A : Type} (m : M A) : Prop :=
  forall w,
    exists evs,
      trace (snd (m w)) = trace w ++ evs
      /\ (nextId w <= nextId (snd (m w)))%nat
      /\ derivedFrom b (nextId w) evs.

(** ** What a run resolves and rejects with *)

(** The calls an attempt makes before its [try] statement. *)
Definition setupCall (ev : Event) : bool :=
  match ev with
  | EvLaunch _ _ | EvNewContext _ _ _ _ | EvContextInitScript _
  | EvNewPage _ _ | EvPageInitScript _ => true
  | _ => false
  end.

(** [e] is the error of a call that no [try] statement of the run guards:
    a call made before the [try] statement of an attempt or, when the
    browser is the run's own, a [browser.close()], which the [catch] blocks
    call unguarded. *)
Definition unguarded (env : nat -> Event -> Reply)
    (existingBrowser : option Browser) (e : string) : Prop :=
  exists t ev,
    (setupCall ev = true
     \/ (existingBrowser = None /\ exists b, ev = EvBrowserClose b))
    /\ throws (env t ev) = Some e.

(** From any world, [m] returns a value that satisfies [Q] or rejects
    with an error that satisfies [E]. *)
Definition outcome {A : Type} (E : string -> Prop) (Q : A -> Prop) (m : M A)
    : Prop :=
  forall w, match fst (m w) with Ok a => Q a | Throw e => E e end.

(** An environment in which no browser can be closed. *)
Definition envCloseFails (n : nat) (ev : Event) : Reply :=
  match ev with
  | EvBrowserClose _ =>
      mkReply (Some "Target closed") (r_url Fixture.calm)
        (r_response Fixture.calm) true false 0 (mkSaved None None)
        Fixture.pageDom (r_html Fixture.calm) (r_iso Fixture.calm)
  | _ => Fixture.calm
  end.

(** What [performSearch] resolves with: the results extracted from a
    page, or the one mock result that carries the error of a [try]
    block. *)
Definition resolvesWith (env : nat -> Event -> Reply)
    (dirname : string -> string) (query : string) (limit : Z)
    (stateFile : string) (noSaveState : bool) (r : SearchResponse) : Prop :=
  (exists D, r = mkResponse query (extractResults D limit))
  \/ exists error a w1,
       fst (tryBlock env dirname query limit stateFile noSaveState a w1)
       = Throw error
       /\ r = mkResponse query
                [ mkResult "Search failed" EmptyString
                    ("Could not complete the search, error message: "
                     +:+ error) ].

(** [e] is the message of the error that the [catch] block of
    [performSearchAndGetHtml] throws for the error of a [try] block. *)
Definition wrapsError (env : nat -> Event -> Reply)
    (dirname : string -> string)
    (regexReplace : string -> string -> string -> string)
    (query stateFile : string) (noSaveState saveToFile : bool)
    (outputPath : option string) (e : string) : Prop :=
  exists error a w1,
    fst (tryBlockHtml env dirname regexReplace query stateFile noSaveState
           saveToFile outputPath a w1) = Throw error
    /\ e = "Failed to get Google search page HTML: " +:+ error.

(** * Properties *)

(** ** Strings *)

#[local] Arguments String.append !_ _ / : simpl nomatch.

Lemma append_empty_r (s : string) : s +:+ EmptyString = s.
Proof. induction s as [|c s IH]; simpl; [reflexivity | now rewrite IH]. Qed.

Lemma append_assoc (a b c : string) : (a +:+ b) +:+ c = a +:+ b +:+ c.
Proof. induction a as [|x a IH]; simpl; [reflexivity | now rewrite IH]. Qed.

Lemma length_append (a b : string) :
  String.length (a +:+ b) = (String.length a + String.length b)%nat.
Proof. induction a as [|x a IH]; simpl; [reflexivity | now rewrite IH]. Qed.

Lemma startsWith_spec (s p : string) :
  Js.startsWith s p = true <-> exists post, s = p +:+ post.
Proof.
  revert s. induction p as [|a p IH]; intros s; simpl.
  - split; [intros _; now exists s | intros _; reflexivity].
  - destruct s as [|b s].
    + split; [discriminate | intros [post H]; discriminate].
    + destruct (Ascii.eqb_spec a b) as [->|Hne].
      * rewrite IH. split; intros [post H]; exists post.
        -- now rewrite H.
        -- now inversion H.
      * split; [discriminate | intros [post H]; simpl in H; congruence].
Qed.

Lemma startsWith_skip (s p : string) :
  Js.startsWith s p = true -> s = p +:+ Js.skip (String.length p) s.
Proof.
  revert s. induction p as [|a p IH]; intros s; simpl; [reflexivity |].
  destruct s as [|b s]; [discriminate |].
  destruct (Ascii.eqb_spec a b) as [->|Hne]; [|discriminate].
  intros H. now rewrite <- (IH s H).
Qed.

Lemma includes_spec (s p : string) :
  Js.includes s p = true <-> contains s p.
Proof.
  unfold contains. induction s as [|c s IH]; simpl.
  - destruct (Js.startsWith EmptyString p) eqn:E.
    + split; [intros _ | reflexivity].
      apply startsWith_spec in E as [post E]. now exists EmptyString, post.
    + split; [discriminate |].
      intros ([|x pre] & post & H); [|discriminate].
      simpl in H. assert (Js.startsWith EmptyString p = true) as E'
        by (apply startsWith_spec; eauto).
      congruence.
  - destruct (Js.startsWith (String c s) p) eqn:E.
    + split; [intros _ | reflexivity].
      apply startsWith_spec in E as [post E]. now exists EmptyString, post.
    + rewrite IH. split.
      * intros (pre & post & H). exists (String c pre), post. simpl.
        now rewrite H.
      * intros ([|x pre] & post & H).
        -- simpl in H.
           assert (Js.startsWith (String c s) p = true) as E'
             by (apply startsWith_spec; eauto).
           congruence.
        -- simpl in H. inversion H. eauto.
Qed.

(** [replace] rewrites the first occurrence of the pattern, and only
    that one; a string without the pattern is returned as it is. *)
Lemma replace_spec (s pat rep : string) :
  (Js.includes s pat = false /\ Js.replace s pat rep = s) \/
  (exists pre post,
     s = pre +:+ pat +:+ post /\
     (forall i, (i < String.length pre)%nat ->
                Js.startsWith (Js.skip i s) pat = false) /\
     Js.replace s pat rep = pre +:+ rep +:+ post).
Proof.
  induction s as [|c s IH]; simpl.
  - destruct (Js.startsWith EmptyString pat) eqn:E.
    + right. exists EmptyString, (Js.skip (String.length pat) EmptyString).
      split; [now apply startsWith_skip |].
      split; [simpl; intros i Hi; inversion Hi | reflexivity].
    + left. split; reflexivity.
  - destruct (Js.startsWith (String c s) pat) eqn:E.
    + right. exists EmptyString, (Js.skip (String.length pat) (String c s)).
      split; [now apply startsWith_skip |].
      split; [simpl; intros i Hi; inversion Hi | reflexivity].
    + destruct IH as [[Hn Hr] | (pre & post & Hs & Hfirst & Hr)].
      * left. split; [assumption | now rewrite Hr].
      * right. exists (String c pre), post.
        split; [simpl; now rewrite <- Hs |].
        split; [| simpl; now rewrite Hr].
        intros [|i] Hi; simpl; [assumption |].
        apply Hfirst. simpl in Hi. apply Nat.succ_lt_mono. exact Hi.
Qed.

(** ** The fingerprint side file (C9) *)

(** [replaceTrailingJson] does what its name says. *)
Lemma replaceTrailingJson_suffix (pre : string) :
  replaceTrailingJson (pre +:+ ".json") = pre +:+ "-fingerprint.json".
Proof.
  induction pre as [|c pre IH]; [reflexivity |].
  cbn [String.append replaceTrailingJson].
  destruct (String.eqb_spec (String c (pre +:+ ".json")) ".json") as [E|_].
  - exfalso. apply (f_equal String.length) in E. simpl in E.
    rewrite length_append in E. simpl in E. lia.
  - now rewrite IH.
Qed.

(** The default state file: here the first [.json] is the trailing one. *)
Example fingerprintFile_default :
  fingerprintFile "./browser-state.json" = "./browser-state-fingerprint.json".
Proof. reflexivity. Qed.

(** C9 does not hold as stated. A state file in a directory whose name holds
    [.json]: the program rewrites the directory name and leaves the trailing
    [.json] alone, where the specification's rule rewrites the trailing
    one. A path without [.json] is its own fingerprint file. *)
Lemma fingerprintFile_not_trailing :
  fingerprintFile "cache.json.d/state.json" = "cache-fingerprint.json.d/state.json"
  /\ replaceTrailingJson "cache.json.d/state.json"
     = "cache.json.d/state-fingerprint.json"
  /\ fingerprintFile "cache.json.d/state.json"
     <> replaceTrailingJson "cache.json.d/state.json".
Proof. repeat split. discriminate. Qed.

(** C9, in the form that holds. The fingerprint file path is the state file path with
    its first occurrence of [.json] replaced by [-fingerprint.json]: either
    the path has no [.json] and is returned unchanged, or it splits around
    the leftmost [.json], which alone is replaced. *)
Theorem fingerprintFile_first_occurrence (stateFile : string) :
  (Js.includes stateFile ".json" = false
   /\ fingerprintFile stateFile = stateFile) \/
  (exists pre post,
     stateFile = pre +:+ ".json" +:+ post /\
     (forall i, (i < String.length pre)%nat ->
                Js.startsWith (Js.skip i stateFile) ".json" = false) /\
     fingerprintFile stateFile = pre +:+ "-fingerprint.json" +:+ post).
Proof. apply replace_spec. Qed.

(** ** Block detector (C7) *)

Lemma existsb_patterns (f : string -> bool) :
  existsb f sorryPatterns = true <->
  exists pattern, pattern ∈ sorryPatterns /\ f pattern = true.
Proof.
  rewrite existsb_exists. split; intros (p & Hin & Hf); exists p; split;
    try assumption; now apply list_elem_of_In.
Qed.

Lemma isBlockedPage_spec (currentUrl : string) (response : option string) :
  isBlockedPage currentUrl response = true <->
  isBlocked_spec currentUrl response.
Proof.
  unfold isBlockedPage, isBlocked_spec. rewrite existsb_patterns.
  split; intros (p & Hin & H); exists p; split; try assumption.
  - apply orb_true_iff in H as [H|H].
    + left. now apply includes_spec.
    + right. destruct response as [u|]; [|discriminate].
      exists u. split; [reflexivity | now apply includes_spec].
  - apply orb_true_iff. destruct H as [H | (u & -> & H)].
    + left. now apply includes_spec.
    + right. now apply includes_spec.
Qed.

Lemma isBlockedAfterSearch_current_only (searchUrl : string) :
  isBlockedAfterSearch searchUrl = isBlockedPage searchUrl None.
Proof.
  unfold isBlockedAfterSearch, isBlockedPage.
  induction sorryPatterns as [|p l IH]; simpl; [reflexivity |].
  now rewrite IH, orb_false_r.
Qed.

(** C7 does not hold as stated. The page is a results page and the response of
    the navigation was the challenge page (the user has since solved the
    challenge in the headed browser): the check over both URLs says blocked,
    and so does the first checkpoint; the checks of the second and the third
    checkpoint, which look at the URL of the page only, say not blocked. *)
Lemma later_checkpoints_ignore_response :
  isBlocked_spec "https://www.google.com/search?q=rocq"
    (Some "https://www.google.com/sorry/index?continue=x")
  /\ isBlockedPage "https://www.google.com/search?q=rocq"
       (Some "https://www.google.com/sorry/index?continue=x") = true
  /\ isBlockedAfterSearch "https://www.google.com/search?q=rocq" = false
  /\ isBlockedDuringResults "https://www.google.com/search?q=rocq" = false.
Proof.
  split; [apply isBlockedPage_spec|]; repeat split; reflexivity.
Qed.

(** A run in which every navigation response is the challenge page: the
    headless attempt escalates at the first checkpoint, the headed attempt
    waits there for the user once, and the later checkpoints, which read the
    URL of the page only, let it through to the results. *)
Example solved_challenge_run :
  fst (googleSearch Fixture.devices Fixture.host Fixture.envSolved
         Fixture.dirname "rocq" Fixture.noOptions None (startWorld 1))
  = Ok (mkResponse "rocq" (extractResults Fixture.pageDom 10))
  /\ navigationWaits
       (trace (snd (googleSearch Fixture.devices Fixture.host
                      Fixture.envSolved Fixture.dirname "rocq"
                      Fixture.noOptions None (startWorld 1))))
     = 1%nat
  /\ launches
       (trace (snd (googleSearch Fixture.devices Fixture.host
                      Fixture.envSolved Fixture.dirname "rocq"
                      Fixture.noOptions None (startWorld 1))))
     = [(true, 1%nat); (false, 4%nat)].
Proof. repeat split; vm_compute; reflexivity. Qed.

(** C7, in the form that holds. The check after navigation is true exactly when the
    URL of the page or the URL of the navigation response contains one of
    the fixed patterns; the checks after the query is submitted and after
    the wait for results are true exactly when the URL of the page contains
    one of them, and do not look at the navigation response. Each is a
    function of the URLs it is given and of nothing else. *)
Theorem block_checks_by_checkpoint
    (currentUrl : string) (response : option string) :
  (isBlockedPage currentUrl response = true
   <-> isBlocked_spec currentUrl response)
  /\ (isBlockedAfterSearch currentUrl = true
      <-> isBlocked_spec currentUrl None)
  /\ (isBlockedDuringResults currentUrl = true
      <-> isBlocked_spec currentUrl None).
Proof.
  split; [apply isBlockedPage_spec |].
  split; rewrite <- isBlockedPage_spec;
    change (isBlockedDuringResults currentUrl)
      with (isBlockedAfterSearch currentUrl);
    now rewrite isBlockedAfterSearch_current_only.
Qed.

(** ** Fingerprint manager (C5, C6) *)

Section FingerprintProperties.

Variable devices : string -> option DeviceDescriptor.
Variable host : Host.

(** C5. A persisted profile whose device name [devices] knows is used as
    it is: the device is the persisted one, the five other fields of the
    context are the persisted ones, and the profile that will be written back
    is the persisted one. *)
Theorem recognized_profile_reused
    (locale : string) (fp : FingerprintConfig) (domain : option string)
    (r : nat) :
  recognized devices fp = true ->
  resolveFingerprint devices host locale (mkSaved (Some fp) domain) r
  = (deviceName fp,
     {| co_device := devices (deviceName fp);
        co_locale := fp_locale fp;
        co_timezoneId := timezoneId fp;
        co_colorScheme := colorScheme fp;
        co_reducedMotion := reducedMotion fp;
        co_forcedColors := forcedColors fp |},
     mkSaved (Some fp) domain).
Proof.
  intros H. unfold resolveFingerprint, getDeviceConfig. simpl.
  now rewrite H.
Qed.


(** Without a persisted profile the profile of the host is the one used
    and the one written back. *)
Lemma absent_profile_from_host
    (locale : string) (domain : option string) (r : nat) :
  let hostConfig := getHostMachineConfig host (Some locale) in
  resolveFingerprint devices host locale (mkSaved None domain) r
  = (deviceName hostConfig,
     {| co_device := devices (deviceName hostConfig);
        co_locale := fp_locale hostConfig;
        co_timezoneId := timezoneId hostConfig;
        co_colorScheme := colorScheme hostConfig;
        co_reducedMotion := reducedMotion hostConfig;
        co_forcedColors := forcedColors hostConfig |},
     mkSaved (Some hostConfig) domain).
Proof.
  intros hostConfig. unfold resolveFingerprint, getDeviceConfig.
  cbn [fingerprint googleDomain].
  change (getHostMachineConfig host (Some locale)) with hostConfig.
  clearbody hostConfig.
  destruct (String.eqb_spec (deviceName hostConfig) (pick deviceList r))
    as [E|E]; cbn [negb]; [now rewrite <- E | reflexivity].
Qed.

End FingerprintProperties.

Lemma recognized_profile_reused_witness :
  resolveFingerprint Fixture.devices Fixture.host "en-US"
    (mkSaved (Some Fixture.knownProfile) None) 0
  = ("Desktop Safari",
     {| co_device := Some (mkDescriptor "Desktop Safari");
        co_locale := "fr-FR";
        co_timezoneId := "Europe/Paris";
        co_colorScheme := dark;
        co_reducedMotion := reduce;
        co_forcedColors := active |},
     mkSaved (Some Fixture.knownProfile) None).
Proof.
  apply (recognized_profile_reused Fixture.devices Fixture.host "en-US"
           Fixture.knownProfile None 0).
  reflexivity.
Defined.



(** ** Result extractor (C1) *)

Lemma AccInv_empty : AccInv (mkAcc [] ∅).
Proof.
  split; simpl; [constructor | intros r Hr; inversion Hr].
Qed.

Lemma AccInv_push (acc : Acc) (t l s : string) :
  AccInv acc ->
  l ∉ seenUrls acc ->
  AccInv {| acc_results := acc_results acc ++ [mkResult t l s];
            seenUrls := seenUrls acc ∪ {[ l ]} |}.
Proof.
  intros [Hnd Hseen] Hl. split; simpl.
  - rewrite fmap_app. apply NoDup_app. split; [assumption |].
    split; [| simpl; apply NoDup_singleton].
    intros x Hx Hx'. simpl in Hx'. apply list_elem_of_singleton in Hx'.
    subst x. apply list_elem_of_fmap in Hx as (r & Hr & Hin).
    simpl in Hr. apply Hl. rewrite Hr. now apply Hseen.
  - intros r Hr. apply elem_of_app in Hr as [Hr|Hr].
    + apply elem_of_union. left. now apply Hseen.
    + apply list_elem_of_singleton in Hr. subst r. simpl.
      apply elem_of_union. right. now apply elem_of_singleton.
Qed.

Lemma forOf_invariant_in {A S : Type} (P : S -> Prop) (stop : S -> bool)
    (body : A -> S -> S) (xs : list A) (s : S) :
  (forall x s', x ∈ xs -> P s' -> P (body x s')) ->
  P s -> P (Js.forOf stop body xs s).
Proof.
  revert s. induction xs as [|x xs IH]; intros s Hbody Hs; simpl.
  - assumption.
  - destruct (stop s); [assumption |]. apply IH.
    + intros y s' Hy. apply Hbody. now apply list_elem_of_further.
    + apply Hbody; [apply list_elem_of_here | assumption].
Qed.

Lemma forOf_invariant {A S : Type} (P : S -> Prop) (stop : S -> bool)
    (body : A -> S -> S) (xs : list A) (s : S) :
  (forall x s', P s' -> P (body x s')) ->
  P s -> P (Js.forOf stop body xs s).
Proof. intros Hbody. apply forOf_invariant_in. intros x s' _. apply Hbody. Qed.

Section ExtractorProperties.

Variable D : Dom.
Variable maxResults : Z.

Lemma processContainer_invariant (selectors : SelectorSet)
    (container : Element D) (acc : Acc) :
  AccInv acc -> AccInv (processContainer D selectors container acc).
Proof.
  intros Hacc. unfold processContainer.
  destruct (querySelector D container (sel_title selectors)) as [t|];
    [|assumption].
  destruct (negb (Js.truthy (findLink D container t))
            || negb (Js.startsWith (findLink D container t) "http")
            || bool_decide (findLink D container t ∈ seenUrls acc)) eqn:E;
    [assumption |].
  destruct (Js.truthy (trimmedText D t) && Js.truthy (findLink D container t));
    [|assumption].
  apply AccInv_push; [assumption |].
  apply orb_false_iff in E as [_ E].
  now apply bool_decide_eq_false in E.
Qed.

Lemma processSelectorSet_invariant (selectors : SelectorSet) (acc : Acc) :
  AccInv acc -> AccInv (processSelectorSet D maxResults selectors acc).
Proof.
  intros Hacc. unfold processSelectorSet.
  apply forOf_invariant; [|assumption].
  intros x s'. apply processContainer_invariant.
Qed.

Lemma processAnchor_invariant (el : Element D) (acc : Acc) :
  AccInv acc -> AccInv (processAnchor D el acc).
Proof.
  intros Hacc. unfold processAnchor.
  destruct (negb (isHTMLAnchorElement D el)); [assumption |].
  destruct (negb (Js.truthy (href D el))
            || bool_decide (href D el ∈ seenUrls acc)
            || Js.includes (href D el) "google.com/"
            || Js.includes (href D el) "accounts.google"
            || Js.includes (href D el) "support.google") eqn:E;
    [assumption |].
  destruct (negb (Js.truthy (trimmedText D el))); [assumption |].
  apply AccInv_push; [assumption |].
  do 3 (apply orb_false_iff in E as [E _]).
  apply orb_false_iff in E as [_ E].
  now apply bool_decide_eq_false in E.
Qed.

Lemma cascade_invariant : AccInv (cascade D maxResults).
Proof.
  unfold cascade. apply forOf_invariant; [|apply AccInv_empty].
  intros x s'. apply processSelectorSet_invariant.
Qed.

Lemma supplemented_invariant : AccInv (supplemented D maxResults).
Proof.
  unfold supplemented.
  destruct (Z.of_nat (length (acc_results (cascade D maxResults)))
            <? maxResults); [|apply cascade_invariant].
  apply forOf_invariant; [|apply cascade_invariant].
  intros x s'. apply processAnchor_invariant.
Qed.

Lemma AllHttp_push (acc : Acc) (t l s : string) (seen : gset string) :
  AllHttp acc -> Js.startsWith l "http" = true ->
  AllHttp {| acc_results := acc_results acc ++ [mkResult t l s];
             seenUrls := seen |}.
Proof.
  intros Hacc Hl r Hr. simpl in Hr. apply elem_of_app in Hr as [Hr|Hr].
  - now apply Hacc.
  - apply list_elem_of_singleton in Hr. now subst r.
Qed.

Lemma processContainer_http (selectors : SelectorSet)
    (container : Element D) (acc : Acc) :
  AllHttp acc -> AllHttp (processContainer D selectors container acc).
Proof.
  intros Hacc. unfold processContainer.
  destruct (querySelector D container (sel_title selectors)) as [t|];
    [|assumption].
  destruct (negb (Js.truthy (findLink D container t))
            || negb (Js.startsWith (findLink D container t) "http")
            || bool_decide (findLink D container t ∈ seenUrls acc)) eqn:E;
    [assumption |].
  destruct (Js.truthy (trimmedText D t) && Js.truthy (findLink D container t));
    [|assumption].
  apply AllHttp_push; [assumption |].
  apply orb_false_iff in E as [E _]. apply orb_false_iff in E as [_ E].
  now apply negb_false_iff in E.
Qed.

Lemma processAnchor_http (el : Element D) (acc : Acc) :
  Js.startsWith (href D el) "http" = true ->
  AllHttp acc -> AllHttp (processAnchor D el acc).
Proof.
  intros Hel Hacc. unfold processAnchor.
  destruct (negb (isHTMLAnchorElement D el)); [assumption |].
  destruct (negb (Js.truthy (href D el))
            || bool_decide (href D el ∈ seenUrls acc)
            || Js.includes (href D el) "google.com/"
            || Js.includes (href D el) "accounts.google"
            || Js.includes (href D el) "support.google");
    [assumption |].
  destruct (negb (Js.truthy (trimmedText D el))); [assumption |].
  now apply AllHttp_push.
Qed.

(** The links of the selector cascade begin with [http] because the code
    tests it; those of the supplementary pass do when the anchors that
    the selector [a[href^='http']] matches have such an address. *)
Lemma extractResults_http :
  (forall el, el ∈ documentQuerySelectorAll D "a[href^='http']" ->
              Js.startsWith (href D el) "http" = true) ->
  forall r, r ∈ extractResults D maxResults ->
            Js.startsWith (link r) "http" = true.
Proof.
  intros Hanchors r Hr. unfold extractResults, Js.slice0 in Hr.
  apply elem_of_take in Hr as (i & Hr & _).
  apply list_elem_of_lookup_2 in Hr. revert r Hr.
  change (AllHttp (supplemented D maxResults)).
  assert (AllHttp (cascade D maxResults)) as Hc.
  { unfold cascade. apply forOf_invariant; [|intros r Hr; inversion Hr].
    intros x s' Hs'. unfold processSelectorSet.
    apply forOf_invariant; [|assumption].
    intros c s''. apply processContainer_http. }
  unfold supplemented.
  destruct (Z.of_nat (length (acc_results (cascade D maxResults)))
            <? maxResults); [|exact Hc].
  apply forOf_invariant_in; [|exact Hc].
  intros el s' Hel. apply processAnchor_http. now apply Hanchors.
Qed.

(** The links of the extracted results are pairwise distinct, whatever
    the limit. *)
Lemma extractResults_distinct :
  NoDup (link <$> extractResults D maxResults).
Proof.
  unfold extractResults, Js.slice0. rewrite fmap_take.
  eapply sublist_NoDup.
  - apply supplemented_invariant.
  - apply sublist_take.
Qed.

(** With a negative limit both loops stop before their first iteration. *)
Lemma extractResults_negative_limit :
  maxResults < 0 -> extractResults D maxResults = [].
Proof.
  intros H. unfold extractResults, supplemented.
  assert (cascade D maxResults = mkAcc [] ∅) as ->.
  { assert (full maxResults (mkAcc [] ∅) = true) as Hfull
      by (unfold full; simpl; apply Z.leb_le; lia).
    unfold cascade, selectorSets. cbn [Js.forOf]. now rewrite Hfull. }
  cbn [acc_results length].
  destruct (Z.ltb_spec (Z.of_nat 0) maxResults); [lia |].
  unfold Js.slice0. cbn [acc_results]. apply take_nil.
Qed.

(** C1. For every page and every limit that is not negative, the extracted
    list is no longer than the limit, and its links are pairwise distinct:
    a link collected by the selector cascade or by the supplementary pass
    over all anchors is collected once. *)
Theorem extractResults_bounded_distinct :
  0 <= maxResults ->
  Z.of_nat (length (extractResults D maxResults)) <= maxResults
  /\ NoDup (link <$> extractResults D maxResults).
Proof.
  intros H. split; [|apply extractResults_distinct].
  unfold extractResults, Js.slice0. rewrite length_take.
  destruct (Z.ltb_spec maxResults 0); lia.
Qed.

End ExtractorProperties.

Lemma extractResults_bounded_distinct_witness :
  Z.of_nat (length (extractResults Fixture.pageDom 2)) <= 2
  /\ NoDup (link <$> extractResults Fixture.pageDom 2).
Proof.
  apply (extractResults_bounded_distinct Fixture.pageDom 2). lia.
Defined.

(** The page of the fixture: the address that two containers share is
    listed once, the link of the search engine is left out, and the limit
    cuts the list. *)
Example extractResults_fixture :
  link <$> extractResults Fixture.pageDom 10
  = ["https://example.com/a"; "https://example.org/c"; "https://example.net/d"]
  /\ link <$> extractResults Fixture.pageDom 2
     = ["https://example.com/a"; "https://example.org/c"].
Proof. split; vm_compute; reflexivity. Qed.

(** ** Session controller: which browsers a run closes (C4) *)

Section Keeps.

Variable n : nat.

Lemma keeps_silent {A : Type} (m : M A) (Q : A -> Prop) :
  (forall w, trace (snd (m w)) = trace w
             /\ (nextId w <= nextId (snd (m w)))%nat
             /\ match fst (m w) with Ok a => Q a | Throw _ => True end) ->
  keeps n m Q.
Proof.
  intros H w Hw. destruct (H w) as (Ht & Hn & HQ). exists [].
  split; [now rewrite app_nil_r |].
  split; [lia |]. split; [constructor | exact HQ].
Qed.

Lemma keeps_ret {A : Type} (a : A) (Q : A -> Prop) :
  Q a -> keeps n (ret a) Q.
Proof. intros HQ. apply keeps_silent. intros w. simpl. auto. Qed.

Lemma keeps_throw {A : Type} (e : string) (Q : A -> Prop) :
  keeps n (throw e) Q.
Proof. apply keeps_silent. intros w. simpl. auto. Qed.

Lemma keeps_getSaved : keeps n getSaved (fun _ => True).
Proof. apply keeps_silent. intros w. simpl. auto. Qed.

Lemma keeps_setSaved (s : SavedState) : keeps n (setSaved s) (fun _ => True).
Proof. apply keeps_silent. intros w. simpl. auto. Qed.

Lemma keeps_fresh : keeps n fresh (fun x => (n <= x)%nat).
Proof.
  intros w Hw. exists []. simpl.
  split; [now rewrite app_nil_r |].
  split; [lia |]. split; [constructor | exact Hw].
Qed.

Lemma keeps_bind {A B : Type} (m : M A) (k : A -> M B)
    (P : A -> Prop) (Q : B -> Prop) :
  keeps n m P -> (forall a, P a -> keeps n (k a) Q) -> keeps n (bind m k) Q.
Proof.
  intros Hm Hk w Hw. unfold bind.
  destruct (Hm w Hw) as (evs & Ht & Hn & Hall & Ha).
  destruct (m w) as [[a|e] w']; simpl in *.
  - destruct (Hk a Ha w' Hn) as (evs' & Ht' & Hn' & Hall' & Hb).
    exists (evs ++ evs'). rewrite Ht', Ht, app_assoc.
    split; [reflexivity |]. split; [exact Hn' |].
    split; [now apply Forall_app | exact Hb].
  - exists evs. auto.
Qed.

Lemma keeps_tryCatch {A : Type} (m : M A) (h : string -> M A)
    (Q : A -> Prop) :
  keeps n m Q -> (forall e, keeps n (h e) Q) -> keeps n (tryCatch m h) Q.
Proof.
  intros Hm Hh w Hw. unfold tryCatch.
  destruct (Hm w Hw) as (evs & Ht & Hn & Hall & Ha).
  destruct (m w) as [[a|e] w']; simpl in *.
  - exists evs. auto.
  - destruct (Hh e w' Hn) as (evs' & Ht' & Hn' & Hall' & Hb).
    exists (evs ++ evs'). rewrite Ht', Ht, app_assoc.
    split; [reflexivity |]. split; [exact Hn' |].
    split; [now apply Forall_app | exact Hb].
Qed.

Lemma keeps_weaken {A : Type} (m : M A) (P Q : A -> Prop) :
  keeps n m P -> (forall a, P a -> Q a) -> keeps n m Q.
Proof.
  intros Hm HPQ w Hw. destruct (Hm w Hw) as (evs & Ht & Hn & Hall & Ha).
  exists evs. repeat split; try assumption.
  destruct (fst (m w)); [apply HPQ, Ha | exact I].
Qed.

End Keeps.

Lemma bind_assoc {A B C : Type} (m : M A) (f : A -> M B) (g : B -> M C)
    (w : World) :
  bind (bind m f) g w = bind m (fun a => bind (f a) g) w.
Proof. unfold bind. now destruct (m w) as [[a|e] w']. Qed.

Section ControllerOwnership.

Variable devices : string -> option DeviceDescriptor.
Variable host : Host.
Variable env : nat -> Event -> Reply.
Variable dirname : string -> string.
Variable n : nat.

Lemma keeps_bind_any {A B : Type} (m : M A) (k : A -> M B) (Q : B -> Prop) :
  keeps n m (fun _ => True) -> (forall a, keeps n (k a) Q) ->
  keeps n (bind m k) Q.
Proof. intros Hm Hk. eapply keeps_bind; [exact Hm | intros a _; apply Hk]. Qed.

Lemma keeps_call (ev : Event) :
  allowed n ev -> keeps n (call env ev) (fun _ => True).
Proof.
  intros Hev w Hw. exists [ev]. unfold call.
  destruct (throws (env (tick w) ev)); simpl;
    (split; [reflexivity |]; split; [exact Hw |];
     split; [now constructor | exact I]).
Qed.

Lemma keeps_observe (ev : Event) :
  allowed n ev -> keeps n (observe env ev) (fun _ => True).
Proof.
  intros Hev w Hw. exists [ev]. unfold observe. simpl.
  split; [reflexivity |]. split; [exact Hw |].
  split; [now constructor | exact I].
Qed.

(** One step of a proof that a computation keeps the world owned. *)
Ltac keeps_step :=
  match goal with
  | |- keeps _ (bind fresh _) _ =>
      eapply keeps_bind; [apply keeps_fresh | intros ? ?]
  | |- keeps _ (bind _ _) _ => apply keeps_bind_any; [ | intros ? ]
  | |- keeps _ (ret _) _ => apply keeps_ret; exact I
  | |- keeps _ (throw _) _ => apply keeps_throw
  | |- keeps _ (tryCatch _ _) _ => apply keeps_tryCatch; [ | intros ? ]
  | |- keeps _ (call _ _) _ =>
      apply keeps_call;
      let H := fresh in
      intros ? H; first [discriminate H | injection H as <-; assumption]
  | |- keeps _ (observe _ _) _ =>
      apply keeps_observe; let H := fresh in intros ? H; discriminate H
  | |- keeps _ getSaved _ => apply keeps_getSaved
  | |- keeps _ (setSaved _) _ => apply keeps_setSaved
  | |- keeps _ (if ?c then _ else _) _ => destruct c
  | |- keeps _ (match ?c with _ => _ end) _ => destruct c
  end.

Lemma keeps_launch (headless : bool) :
  keeps n (launch env headless) (fun b => (n <= b)%nat).
Proof.
  unfold launch. keeps_step. keeps_step; [keeps_step |].
  now apply keeps_ret.
Qed.

Lemma keeps_getRandomDelay (min max : nat) :
  keeps n (getRandomDelay env min max) (fun _ => True).
Proof. unfold getRandomDelay. repeat keeps_step. Qed.

Lemma keeps_findSearchInput (page : Page) (selectors : list string) :
  keeps n (findSearchInput env page selectors) (fun _ => True).
Proof.
  induction selectors as [|s l IH]; simpl; repeat keeps_step. exact IH.
Qed.

Lemma keeps_waitForResults (page : Page) (selectors : list string) :
  keeps n (waitForResults env page selectors) (fun _ => True).
Proof.
  induction selectors as [|s l IH]; simpl; repeat keeps_step. exact IH.
Qed.

Lemma keeps_openPage (locale : string) (storageState : option string)
    (browser : Browser) :
  keeps n (openPage devices host env locale storageState browser)
    (fun _ => True).
Proof. unfold openPage. repeat keeps_step. Qed.

Lemma keeps_selectDomain : keeps n (selectDomain env) (fun _ => True).
Proof. unfold selectDomain. repeat keeps_step. Qed.

Lemma keeps_saveState (stateFile : string) (noSaveState : bool)
    (a : Attempt) :
  keeps n (saveState env dirname stateFile noSaveState a) (fun _ => True).
Proof. unfold saveState. repeat keeps_step. Qed.

Lemma keeps_escalate {A : Type} (a : Attempt) :
  ownBrowser n a -> keeps n (escalate env (A := A) a) (fun _ => True).
Proof.
  intros Ha. unfold escalate.
  keeps_step; [keeps_step |].
  keeps_step; [keeps_step |].
  destruct (browserWasProvided a) eqn:E.
  - eapply keeps_bind; [apply keeps_launch | intros newBrowser Hnew].
    repeat keeps_step.
  - specialize (Ha E). repeat keeps_step.
Qed.

Lemma keeps_checkpoint {A : Type} (a : Attempt) (blocked : bool)
    (esc : M (TryResult A)) (afterWait : M unit) :
  keeps n esc (fun _ => True) -> keeps n afterWait (fun _ => True) ->
  keeps n (checkpoint env a blocked esc afterWait) (fun _ => True).
Proof.
  intros Hesc Hafter. unfold checkpoint. repeat keeps_step; assumption.
Qed.

Lemma keeps_submitQuery (query : string) (a : Attempt) :
  keeps n (submitQuery env query a) (fun _ => True).
Proof.
  unfold submitQuery. keeps_step; [apply keeps_findSearchInput |].
  keeps_step; [keeps_step |].
  keeps_step; [keeps_step |].
  keeps_step; [apply keeps_getRandomDelay |].
  keeps_step; [keeps_step |].
  keeps_step; [apply keeps_getRandomDelay |].
  repeat keeps_step.
Qed.

Lemma keeps_close_own (a : Attempt) :
  ownBrowser n a ->
  keeps n (if negb (browserWasProvided a)
           then bind (call env (EvBrowserClose (a_browser a)))
                  (fun _ => ret tt)
           else ret tt) (fun _ => True).
Proof.
  intros Ha. destruct (browserWasProvided a) eqn:E; simpl.
  - keeps_step.
  - specialize (Ha E). repeat keeps_step.
Qed.

Lemma keeps_tryBlock (query : string) (limit : Z) (stateFile : string)
    (noSaveState : bool) (a : Attempt) :
  ownBrowser n a ->
  keeps n (tryBlock env dirname query limit stateFile noSaveState a)
    (fun _ => True).
Proof.
  intros Ha. unfold tryBlock.
  keeps_step; [apply keeps_selectDomain |].
  keeps_step; [keeps_step |].
  keeps_step; [keeps_step |].
  keeps_step;
    [apply keeps_checkpoint; [now apply keeps_escalate | keeps_step] |].
  keeps_step; [keeps_step |].
  keeps_step; [apply keeps_submitQuery |].
  keeps_step; [keeps_step |].
  keeps_step;
    [apply keeps_checkpoint;
       [now apply keeps_escalate | repeat keeps_step] |].
  keeps_step; [keeps_step |].
  keeps_step; [keeps_step |].
  keeps_step; [apply keeps_waitForResults |].
  keeps_step.
  { keeps_step; [keeps_step |].
    keeps_step; [keeps_step |].
    keeps_step; [|keeps_step].
    apply keeps_checkpoint; [now apply keeps_escalate |].
    keeps_step; [apply keeps_waitForResults |]. repeat keeps_step. }
  keeps_step; [keeps_step |].
  keeps_step; [apply keeps_getRandomDelay |].
  keeps_step; [keeps_step |].
  keeps_step; [keeps_step |].
  keeps_step; [apply keeps_saveState |].
  keeps_step; [now apply keeps_close_own |].
  keeps_step.
Qed.

Lemma keeps_catchBlock (query stateFile : string) (noSaveState : bool)
    (a : Attempt) (error : string) :
  ownBrowser n a ->
  keeps n (catchBlock env dirname query stateFile noSaveState a error)
    (fun _ => True).
Proof.
  intros Ha. unfold catchBlock.
  keeps_step; [apply keeps_saveState |].
  keeps_step; [now apply keeps_close_own |].
  keeps_step.
Qed.

Lemma keeps_acquireBrowser (existingBrowser : option Browser)
    (headless : bool) :
  keeps n (acquireBrowser env existingBrowser headless)
    (fun bp => snd bp = false -> (n <= fst bp)%nat).
Proof.
  unfold acquireBrowser. destruct existingBrowser as [b|].
  - apply keeps_ret. discriminate.
  - eapply keeps_bind; [apply keeps_launch | intros b Hb].
    apply keeps_ret. intros _. exact Hb.
Qed.

Lemma keeps_runAttempt (query : string) (limit : Z)
    (stateFile : string) (noSaveState : bool) (locale : string)
    (storageState : option string) (retry : M SearchResponse)
    (headless : bool) (browser : Browser) (provided : bool) :
  (provided = false -> (n <= browser)%nat) ->
  keeps n retry (fun _ => True) ->
  keeps n (runAttempt devices host env dirname query limit stateFile
             noSaveState locale storageState retry headless browser provided)
    (fun _ => True).
Proof.
  intros Hb Hretry. unfold runAttempt.
  keeps_step; [apply keeps_openPage |].
  keeps_step. keeps_step.
  keeps_step.
  - unfold guardedSearch. apply keeps_tryCatch.
    + now apply keeps_tryBlock.
    + intros e. now apply keeps_catchBlock.
  - keeps_step; [keeps_step | exact Hretry].
Qed.

Lemma keeps_performSearchBody (query : string) (limit : Z)
    (stateFile : string) (noSaveState : bool) (locale : string)
    (storageState : option string) (existingBrowser : option Browser)
    (retry : M SearchResponse) (headless : bool) :
  keeps n retry (fun _ => True) ->
  keeps n (performSearchBody devices host env dirname query limit stateFile
             noSaveState locale storageState existingBrowser retry headless)
    (fun _ => True).
Proof.
  intros Hretry. unfold performSearchBody.
  eapply keeps_bind; [apply keeps_acquireBrowser | intros [b p] Hb].
  now apply keeps_runAttempt.
Qed.

Lemma keeps_loadState (stateFile : string) :
  keeps n (loadState env stateFile) (fun _ => True).
Proof. unfold loadState. repeat keeps_step. Qed.

Lemma keeps_googleSearch (query : string) (options : CommandOptions)
    (existingBrowser : option Browser) :
  keeps n (googleSearch devices host env dirname query options
             existingBrowser) (fun _ => True).
Proof.
  unfold googleSearch. keeps_step; [apply keeps_loadState |].
  unfold performSearch. apply keeps_performSearchBody.
  apply keeps_performSearchBody. apply keeps_throw.
Qed.

(** A headed attempt never asks to be run again: its checkpoints wait for
    the user instead. *)
Lemma keeps_checkpoint_headed {A : Type} (a : Attempt) (blocked : bool)
    (esc : M (TryResult A)) (afterWait : M unit) :
  a_headless a = false ->
  keeps n afterWait (fun _ => True) ->
  keeps n (checkpoint env a blocked esc afterWait) (fun r => r = None).
Proof.
  intros Hh Hafter. unfold checkpoint. rewrite Hh.
  destruct blocked; [|now apply keeps_ret].
  keeps_step; [keeps_step |].
  keeps_step; [exact Hafter |]. now apply keeps_ret.
Qed.

Lemma keeps_tryBlock_headed (query : string) (limit : Z) (stateFile : string)
    (noSaveState : bool) (a : Attempt) :
  a_headless a = false ->
  ownBrowser n a ->
  keeps n (tryBlock env dirname query limit stateFile noSaveState a)
    (fun t => t <> Retry).
Proof.
  intros Hh Ha. unfold tryBlock.
  keeps_step; [apply keeps_selectDomain |].
  keeps_step; [keeps_step |].
  keeps_step; [keeps_step |].
  eapply keeps_bind;
    [apply keeps_checkpoint_headed; [exact Hh | keeps_step] | intros r ->].
  keeps_step; [apply keeps_submitQuery |].
  keeps_step; [keeps_step |].
  eapply keeps_bind;
    [apply keeps_checkpoint_headed; [exact Hh | repeat keeps_step]
    | intros r ->].
  keeps_step; [keeps_step |].
  keeps_step; [apply keeps_waitForResults |].
  eapply keeps_bind with (P := fun r => r = None).
  { keeps_step; [now apply keeps_ret |].
    keeps_step; [keeps_step |].
    keeps_step; [|keeps_step].
    apply keeps_checkpoint_headed; [exact Hh |].
    keeps_step; [apply keeps_waitForResults |]. repeat keeps_step. }
  intros r ->.
  keeps_step; [apply keeps_getRandomDelay |].
  keeps_step; [keeps_step |].
  keeps_step; [keeps_step |].
  keeps_step; [apply keeps_saveState |].
  keeps_step; [now apply keeps_close_own |].
  apply keeps_ret. discriminate.
Qed.

Lemma keeps_guardedSearch_headed (query : string) (limit : Z)
    (stateFile : string) (noSaveState : bool) (a : Attempt) :
  a_headless a = false ->
  ownBrowser n a ->
  keeps n (guardedSearch env dirname query limit stateFile noSaveState a)
    (fun t => t <> Retry).
Proof.
  intros Hh Ha. unfold guardedSearch. apply keeps_tryCatch.
  - now apply keeps_tryBlock_headed.
  - intros e. unfold catchBlock.
    keeps_step; [apply keeps_saveState |].
    keeps_step; [now apply keeps_close_own |].
    apply keeps_ret. discriminate.
Qed.

(** The next event of an awaited call is the call, whatever follows. *)
Lemma call_first {A : Type} (ev : Event) (k : Reply -> M A) (w : World) :
  (n <= nextId w)%nat ->
  (forall r, keeps n (k r) (fun _ => True)) ->
  exists rest, trace (snd (bind (call env ev) k w)) = trace w ++ ev :: rest.
Proof.
  intros Hw Hk. unfold bind, call.
  destruct (throws (env (tick w) ev)).
  - exists []. reflexivity.
  - destruct (Hk (env (tick w) ev) (record ev w) Hw) as (evs & Ht & _).
    exists evs. rewrite Ht. simpl. now rewrite <- app_assoc.
Qed.

Lemma bind_prefix {A B : Type} (m : M A) (k : A -> M B) (w : World)
    (evs : list Event) :
  (n <= nextId w)%nat ->
  keeps n m (fun _ => True) ->
  trace (snd (m w)) = trace w ++ evs ->
  (forall a, keeps n (k a) (fun _ => True)) ->
  exists evs', trace (snd (bind m k w)) = trace w ++ evs ++ evs'.
Proof.
  intros Hw Hm Ht Hk. unfold bind.
  destruct (Hm w Hw) as (_ & _ & Hn & _).
  destruct (m w) as [[a|e] w']; simpl in *.
  - destruct (Hk a w' Hn) as (evs' & Ht' & _).
    exists evs'. now rewrite Ht', Ht, app_assoc.
  - exists []. now rewrite app_nil_r.
Qed.

(** [openPage] draws at most one random number and then creates the
    context on the browser it is given. *)
Lemma openPage_first_context (locale : string)
    (storageState : option string) (browser : Browser) (w : World) :
  (n <= nextId w)%nat ->
  exists pre opts c rest,
    trace (snd (openPage devices host env locale storageState browser w))
    = trace w ++ pre ++ EvNewContext browser opts storageState c :: rest
    /\ (pre = [] \/ pre = [EvRandom]).
Proof.
  intros Hw. unfold openPage. unfold bind at 1, getSaved.
  assert (forall (r : nat) (w0 : World), (n <= nextId w0)%nat ->
    exists opts c rest,
      trace (snd (
        (let '(_, opts, s') :=
           resolveFingerprint devices host locale (savedState w) r in
         bind (setSaved s') (fun _ =>
         bind fresh (fun context =>
         bind (call env (EvNewContext browser opts storageState context))
           (fun _ =>
         bind (call env (EvContextInitScript context)) (fun _ =>
         bind fresh (fun page =>
         bind (call env (EvNewPage context page)) (fun _ =>
         bind (call env (EvPageInitScript page)) (fun _ =>
         ret (opts, context, page))))))))) w0))
      = trace w0 ++ EvNewContext browser opts storageState c :: rest)
    as Hcont.
  { intros r w0 Hw0.
    destruct (resolveFingerprint devices host locale (savedState w) r)
      as [[d opts] s'].
    unfold bind at 1, setSaved. unfold bind at 1. unfold fresh at 1.
    exists opts, (nextId w0).
    match goal with
    | |- context [bind (call env ?ev) ?k ?w1] =>
        destruct (call_first ev k w1) as (rest & Hrest)
    end.
    - simpl. lia.
    - intros r0. repeat keeps_step.
    - exists rest. exact Hrest. }
  destruct (usesSavedDevice devices (savedState w)).
  - unfold bind at 1, ret.
    destruct (Hcont 0%nat w Hw) as (opts & c & rest & H).
    exists [], opts, c, rest. split; [exact H | now left].
  - unfold bind at 1. unfold bind at 1, observe. unfold ret at 1.
    match goal with
    | |- context [resolveFingerprint _ _ _ _ ?r] =>
        destruct (Hcont r (record EvRandom w) Hw)
          as (opts & c & rest & H)
    end.
    exists [EvRandom], opts, c, rest. split; [| now right].
    etransitivity; [exact H |]. simpl. now rewrite <- app_assoc.
Qed.

(** With a browser [b] of the caller, the body of [performSearch] draws
    at most one random number and then creates its context on [b]. *)
Lemma body_first_context (query : string) (limit : Z) (stateFile : string)
    (noSaveState : bool) (locale : string) (storageState : option string)
    (retry : M SearchResponse) (headless : bool) (b : Browser) (w : World) :
  (n <= nextId w)%nat ->
  keeps n retry (fun _ => True) ->
  exists pre opts c rest,
    trace (snd (performSearchBody devices host env dirname query limit
                  stateFile noSaveState locale storageState (Some b) retry
                  headless w))
    = trace w ++ pre ++ EvNewContext b opts storageState c :: rest
    /\ (pre = [] \/ pre = [EvRandom]).
Proof.
  intros Hw Hretry. unfold performSearchBody, acquireBrowser.
  unfold bind at 1, ret at 1. unfold runAttempt.
  destruct (openPage_first_context locale storageState b w Hw)
    as (pre & opts & c & rest & Ht & Hpre).
  match goal with
  | |- context [bind ?m ?k w] =>
      destruct (bind_prefix m k w _ Hw (keeps_openPage _ _ _) Ht)
        as (evs & Hevs)
  end.
  - intros [[o ctx] pg]. keeps_step.
    + unfold guardedSearch. apply keeps_tryCatch.
      * apply keeps_tryBlock. intros H. discriminate H.
      * intros e. apply keeps_catchBlock. intros H. discriminate H.
    + keeps_step; [keeps_step | exact Hretry].
  - exists pre, opts, c, (rest ++ evs). split; [| exact Hpre].
    rewrite Hevs. now rewrite <- !app_assoc.
Qed.

(** Without a browser of the caller, the first event of the body of
    [performSearch] is the launch of a browser in the mode it was called
    with. *)
Lemma body_first_launch (query : string) (limit : Z) (stateFile : string)
    (noSaveState : bool) (locale : string) (storageState : option string)
    (retry : M SearchResponse) (headless : bool) (w : World) :
  (n <= nextId w)%nat ->
  keeps n retry (fun _ => True) ->
  exists rest,
    trace (snd (performSearchBody devices host env dirname query limit
                  stateFile noSaveState locale storageState None retry
                  headless w))
    = trace w ++ EvLaunch headless (nextId w) :: rest.
Proof.
  intros Hw Hretry. unfold performSearchBody, acquireBrowser, launch.
  rewrite !bind_assoc. unfold bind at 1. unfold fresh at 1.
  rewrite bind_assoc.
  match goal with
  | |- context [bind (call env ?ev) ?k ?w1] =>
      destruct (call_first ev k w1) as (rest & Hrest)
  end.
  - simpl. lia.
  - intros r. unfold bind at 1, ret at 1. unfold bind at 1, ret at 1.
    apply keeps_runAttempt; [intros _; simpl; lia | exact Hretry].
  - exists rest. exact Hrest.
Qed.

End ControllerOwnership.

(** ** Session controller: what a failed attempt returns (C8, C10) *)

Section ControllerFailure.

Variable env : nat -> Event -> Reply.
Variable dirname : string -> string.
Variable regexReplace : string -> string -> string -> string.
Variable query : string.
Variable limit : Z.
Variable stateFile : string.
Variable noSaveState : bool.

(** Saving the state never fails. *)
Lemma saveState_returns (a : Attempt) (w : World) :
  exists w', saveState env dirname stateFile noSaveState a w = (Ok tt, w').
Proof.
  unfold saveState, tryCatch at 1.
  match goal with
  | |- context [match ?m w with _ => _ end] =>
      destruct (m w) as [[[]|e] w']
  end; eexists; reflexivity.
Qed.

(** The [catch] block of [performSearch] either returns the mock response
    or fails in closing its own browser. *)
Lemma catchBlock_outcome (a : Attempt) (error : string) (w : World) :
  fst (catchBlock env dirname query stateFile noSaveState a error w)
  = Ok (Done (errorResponse query error))
  \/ (browserWasProvided a = false
      /\ exists t e,
           throws (env t (EvBrowserClose (a_browser a))) = Some e
           /\ fst (catchBlock env dirname query stateFile noSaveState a
                     error w) = Throw e).
Proof.
  remember (fst (catchBlock env dirname query stateFile noSaveState a error w))
    as r eqn:Hr.
  unfold catchBlock, bind at 1 in Hr.
  destruct (saveState_returns a w) as [w' Hs]. rewrite Hs in Hr.
  unfold bind at 1 in Hr. destruct (browserWasProvided a); simpl in Hr.
  - left. exact Hr.
  - unfold bind, call in Hr.
    destruct (throws (env (tick w') (EvBrowserClose (a_browser a))))
      as [e|] eqn:E; simpl in Hr.
    + right. split; [reflexivity |].
      exists (tick w'), e. split; [exact E | exact Hr].
    + left. exact Hr.
Qed.

(** The [catch] block of [performSearchAndGetHtml] always fails: with the
    wrapped error, or in closing its browser. *)
Lemma catchBlockHtml_outcome (a : Attempt) (error : string) (w : World) :
  fst (catchBlockHtml env dirname stateFile noSaveState a error w)
  = Throw (htmlError error)
  \/ exists t e,
       throws (env t (EvBrowserClose (a_browser a))) = Some e
       /\ fst (catchBlockHtml env dirname stateFile noSaveState a error w)
          = Throw e.
Proof.
  remember (fst (catchBlockHtml env dirname stateFile noSaveState a error w))
    as r eqn:Hr.
  unfold catchBlockHtml, bind at 1 in Hr.
  destruct (saveState_returns a w) as [w' Hs]. rewrite Hs in Hr.
  unfold bind, call in Hr.
  destruct (throws (env (tick w') (EvBrowserClose (a_browser a))))
    as [e|] eqn:E; simpl in Hr.
  - right. exists (tick w'), e. split; [exact E | exact Hr].
  - left. exact Hr.
Qed.

(** What the [try] statement of [performSearch] does with a throw of its
    [try] block. *)
Lemma guardedSearch_on_throw (a : Attempt) (w : World) (error : string) :
  (forall t, throws (env t (EvBrowserClose (a_browser a))) = None) ->
  fst (tryBlock env dirname query limit stateFile noSaveState a w)
  = Throw error ->
  fst (guardedSearch env dirname query limit stateFile noSaveState a w)
  = Ok (Done (errorResponse query error)).
Proof.
  intros Hclose Htry. unfold guardedSearch, tryCatch.
  destruct (tryBlock env dirname query limit stateFile noSaveState a w)
    as [[r|e] w'] eqn:E; simpl in Htry; [discriminate |].
  injection Htry as ->.
  destruct (catchBlock_outcome a error w') as [H | (_ & t & e & Ht & _)].
  - exact H.
  - rewrite Hclose in Ht. discriminate.
Qed.

(** What the [try] statement of [performSearchAndGetHtml] does with a
    throw of its [try] block. *)
Lemma guardedHtml_on_throw (saveToFile : bool) (outputPath : option string)
    (a : Attempt) (w : World) (error : string) :
  (forall t, throws (env t (EvBrowserClose (a_browser a))) = None) ->
  fst (tryBlockHtml env dirname regexReplace query stateFile noSaveState
         saveToFile outputPath a w) = Throw error ->
  fst (guardedHtml env dirname regexReplace query stateFile noSaveState
         saveToFile outputPath a w)
  = Throw (htmlError error).
Proof.
  intros Hclose Htry. unfold guardedHtml, tryCatch.
  destruct (tryBlockHtml env dirname regexReplace query stateFile
              noSaveState saveToFile outputPath a w)
    as [[r|e] w'] eqn:E; simpl in Htry; [discriminate |].
  injection Htry as ->.
  destruct (catchBlockHtml_outcome a error w') as [H | (t & e & Ht & _)].
  - exact H.
  - rewrite Hclose in Ht. discriminate.
Qed.

(** The same at the level of [performSearch]: once the page of an attempt is
    open, a throw of its [try] block becomes the value the function resolves
    with, and a throw of the [try] block of [performSearchAndGetHtml] becomes
    the error it rejects with. *)
Lemma failed_attempt_resolves_or_rejects
    (devices : string -> option DeviceDescriptor) (host : Host)
    (locale : string) (storageState : option string)
    (saveToFile : bool) (outputPath : option string)
    (retry : M SearchResponse) (retryHtml : M HtmlResponse)
    (headless provided : bool) (b : Browser)
    (opts : ContextOptions) (c : BrowserContext) (pg : Page)
    (w w1 : World) (error : string) :
  (forall t, throws (env t (EvBrowserClose b)) = None) ->
  openPage devices host env locale storageState b w = (Ok (opts, c, pg), w1) ->
  (fst (tryBlock env dirname query limit stateFile noSaveState
          (mkAttempt b provided c pg opts headless) w1) = Throw error ->
   fst (runAttempt devices host env dirname query limit stateFile
          noSaveState locale storageState retry headless b provided w)
   = Ok (errorResponse query error))
  /\ (fst (tryBlockHtml env dirname regexReplace query stateFile noSaveState
             saveToFile outputPath (mkAttempt b false c pg opts headless) w1)
       = Throw error ->
       fst (bind (openPage devices host env locale storageState b)
              (fun '(opts, context, page) =>
                 bind (guardedHtml env dirname regexReplace query stateFile
                         noSaveState saveToFile outputPath
                         (mkAttempt b false context page opts headless))
                   (fun t => match t with
                             | Done r => ret r
                             | Retry => retryHtml
                             end)) w)
       = Throw (htmlError error)).
Proof.
  intros Hclose Hopen. split; intros Htry.
  - pose proof (guardedSearch_on_throw
                  (mkAttempt b provided c pg opts headless) w1 error Hclose
                  Htry) as H.
    unfold runAttempt, bind at 1. rewrite Hopen.
    unfold bind at 1.
    destruct (guardedSearch env dirname query limit stateFile noSaveState
                (mkAttempt b provided c pg opts headless) w1) as [r w2].
    simpl in H. now rewrite H.
  - pose proof (guardedHtml_on_throw saveToFile outputPath
                  (mkAttempt b false c pg opts headless) w1 error Hclose
                  Htry) as H.
    unfold bind at 1. rewrite Hopen.
    unfold bind at 1.
    destruct (guardedHtml env dirname regexReplace query stateFile
                noSaveState saveToFile outputPath
                (mkAttempt b false c pg opts headless) w1) as [r w2].
    simpl in H. now rewrite H.
Qed.

End ControllerFailure.

(** The two entry points on an environment without a search box: the
    search resolves with the mock result, the HTML capture rejects. *)
Example entry_points_without_search_box :
  fst (googleSearch Fixture.devices Fixture.host Fixture.envNoSearchBox
         Fixture.dirname "rocq" Fixture.noOptions None (startWorld 1))
  = Ok (errorResponse "rocq" "Could not find search box")
  /\ fst (getGoogleSearchPageHtml Fixture.devices Fixture.host
            Fixture.envNoSearchBox Fixture.dirname Fixture.regexReplace
            "rocq" Fixture.noOptions false None (startWorld 1))
     = Throw (htmlError "Could not find search box").
Proof. split; vm_compute; reflexivity. Qed.

(** C10. When the [try] block of a search attempt throws and the attempt
    still resolves, its response holds one result, with the title
    [Search failed] and the empty string for a link: a link that does not
    begin with [http]. The links extracted from a page do begin with [http],
    given that the anchors matched by the selector [a[href^='http']] have
    such an address. *)
Theorem error_result_has_empty_link
    (env : nat -> Event -> Reply) (dirname : string -> string)
    (query : string) (limit : Z) (stateFile : string) (noSaveState : bool)
    (a : Attempt) (w : World) (error : string) (r : SearchResponse)
    (D : Dom) (maxResults : Z) :
  fst (tryBlock env dirname query limit stateFile noSaveState a w)
  = Throw error ->
  fst (guardedSearch env dirname query limit stateFile noSaveState a w)
  = Ok (Done r) ->
  (forall el, el ∈ documentQuerySelectorAll D "a[href^='http']" ->
              Js.startsWith (href D el) "http" = true) ->
  (exists s, results r = [s]
             /\ title s = "Search failed"
             /\ link s = EmptyString
             /\ Js.startsWith (link s) "http" = false)
  /\ (forall s, s ∈ extractResults D maxResults ->
                Js.startsWith (link s) "http" = true).
Proof.
  intros Htry Hres Hanchors. split; [|now apply extractResults_http].
  unfold guardedSearch, tryCatch in Hres.
  destruct (tryBlock env dirname query limit stateFile noSaveState a w)
    as [[t|e] w'] eqn:E; simpl in Htry; [discriminate |].
  injection Htry as ->.
  destruct (catchBlock_outcome env dirname query stateFile noSaveState a
              error w') as [H | (_ & t & e & _ & H)];
    rewrite H in Hres; [|discriminate].
  injection Hres as <-. simpl. eexists. repeat split.
Qed.

Lemma error_result_has_empty_link_witness :
  (exists s,
     results (errorResponse "rocq" "Could not find search box") = [s]
     /\ title s = "Search failed"
     /\ link s = EmptyString
     /\ Js.startsWith (link s) "http" = false)
  /\ (forall s, s ∈ extractResults Fixture.pageDom 10 ->
                Js.startsWith (link s) "http" = true).
Proof.
  apply (error_result_has_empty_link Fixture.envNoSearchBox Fixture.dirname
           "rocq" 10 "./browser-state.json" false Fixture.attempt
           (startWorld 4) "Could not find search box").
  - vm_compute. reflexivity.
  - vm_compute. reflexivity.
  - intros el Hel. simpl in Hel.
    repeat (apply elem_of_cons in Hel as [->|Hel]; [reflexivity |]).
    inversion Hel.
Defined.

(** ** Session controller: the mode and the browser of an attempt
       (C2, C3) *)

(** Loading the state adds at most three events, none of them a launch,
    allocates no handle and does not fail. *)
Lemma loadState_outcome (env : nat -> Event -> Reply) (stateFile : string)
    (w : World) :
  exists pre ss w',
    loadState env stateFile w = (Ok ss, w')
    /\ trace w' = trace w ++ pre
    /\ nextId w' = nextId w
    /\ forall h b, EvLaunch h b ∉ pre.
Proof.
  assert (forall l : list Event,
            Forall (fun ev => forall h b, ev <> EvLaunch h b) l ->
            forall h b, EvLaunch h b ∉ l) as Hno.
  { intros l Hl h b Hin. rewrite Forall_forall in Hl.
    exact (Hl _ Hin h b eq_refl). }
  unfold loadState, bind, setSaved, observe, tryCatch, call, ret. simpl.
  destruct (r_exists (env (tick w) (EvExistsSync stateFile))); simpl.
  - destruct (r_exists (env (S (tick w))
                          (EvExistsSync (fingerprintFile stateFile))));
      simpl.
    + destruct (throws (env (S (S (tick w)))
                          (EvReadFile (fingerprintFile stateFile))));
        simpl;
        (eexists [_; _; _], _, _; split; [reflexivity |];
         simpl; rewrite <- !app_assoc;
         split; [reflexivity |]; split; [reflexivity |];
         apply Hno; repeat constructor; discriminate).
    + eexists [_; _], _, _. split; [reflexivity |].
      simpl. rewrite <- !app_assoc.
      split; [reflexivity |]. split; [reflexivity |].
      apply Hno. repeat constructor; discriminate.
  - eexists [_], _, _. split; [reflexivity |]. simpl.
    split; [reflexivity |]. split; [reflexivity |].
    apply Hno. repeat constructor; discriminate.
Qed.

(** Without a browser of the caller, the first browser that
    [googleSearch] launches is launched in the mode that the option
    [headless] gives, [true] only by default. *)
Lemma first_launch_follows_option
    (devices : string -> option DeviceDescriptor) (host : Host)
    (env : nat -> Event -> Reply) (dirname : string -> string)
    (query : string) (options : CommandOptions) (w : World) :
  exists pre rest,
    trace (snd (googleSearch devices host env dirname query options None w))
    = trace w ++ pre
      ++ EvLaunch (withDefault true (headless options)) (nextId w) :: rest
    /\ forall h b, EvLaunch h b ∉ pre.
Proof.
  unfold googleSearch. unfold bind at 1.
  destruct (loadState_outcome env
              (withDefault "./browser-state.json" (stateFile options)) w)
    as (pre & ss & w' & -> & Ht & Hn & Hpre).
  unfold performSearch.
  match goal with
  | |- context [performSearchBody _ _ _ _ ?q ?l ?sf ?ns ?lo _ None ?retry ?h w'] =>
      destruct (body_first_launch devices host env dirname 0 q l sf ns lo ss
                  retry h w' (Nat.le_0_l _)) as (rest & Hrest)
  end.
  - apply keeps_performSearchBody. apply keeps_throw.
  - exists pre, rest. split; [| exact Hpre].
    rewrite Hrest, Ht, Hn. now rewrite <- app_assoc.
Qed.

(** C2 does not hold on the code. A caller that passes
    [headless: false] and no browser: whatever the environment answers, the
    first browser the run launches is launched headed. *)
Theorem headless_false_starts_headed
    (devices : string -> option DeviceDescriptor) (host : Host)
    (env : nat -> Event -> Reply) (dirname : string -> string)
    (query : string) (w : World) :
  exists pre rest,
    trace (snd (googleSearch devices host env dirname query
                  (mkOptions None None (Some false) None None None) None w))
    = trace w ++ pre ++ EvLaunch false (nextId w) :: rest
    /\ forall h b, EvLaunch h b ∉ pre.
Proof.
  apply (first_launch_follows_option devices host env dirname query
           (mkOptions None None (Some false) None None None) w).
Qed.

(** The sibling entry point does start headless, whatever its options. *)
Example html_capture_starts_headless :
  launches
    (trace (snd (getGoogleSearchPageHtml Fixture.devices Fixture.host
                   Fixture.envCalm Fixture.dirname Fixture.regexReplace
                   "rocq" Fixture.headedOption false None (startWorld 1))))
  = [(true, 1%nat)]
  /\ launches
       (trace (snd (googleSearch Fixture.devices Fixture.host
                      Fixture.envCalm Fixture.dirname "rocq"
                      Fixture.headedOption None (startWorld 1))))
     = [(false, 1%nat)].
Proof. split; vm_compute; reflexivity. Qed.

(** C3 does not hold on the code. [performSearch(false)] is the call
    an escalation ends with. With a browser [b] of the caller it creates its
    context on [b] again, in whatever world it starts. *)
Theorem restart_reuses_caller_browser
    (devices : string -> option DeviceDescriptor) (host : Host)
    (env : nat -> Event -> Reply) (dirname : string -> string)
    (query : string) (limit : Z) (stateFile : string) (noSaveState : bool)
    (locale : string) (storageState : option string) (b : Browser)
    (w : World) :
  exists pre opts c rest,
    trace (snd (performSearch devices host env dirname query limit stateFile
                  noSaveState locale storageState (Some b) false w))
    = trace w ++ pre ++ EvNewContext b opts storageState c :: rest
    /\ (pre = [] \/ pre = [EvRandom]).
Proof.
  unfold performSearch.
  apply (body_first_context devices host env dirname 0);
    [apply Nat.le_0_l |].
  apply keeps_performSearchBody. apply keeps_throw.
Qed.

(** A run with the browser [0] of the caller whose first navigation lands
    on the challenge page: the first context is created on [0], the headed
    browser [3] is launched, given a context and closed, and the context of
    the attempt that is run again is created on [0]. *)
Example challenge_run_contexts :
  contextBrowsers
    (trace (snd (googleSearch Fixture.devices Fixture.host
                   Fixture.envChallenge Fixture.dirname "rocq"
                   Fixture.noOptions (Some 0%nat) (startWorld 1))))
  = [0; 3; 0]%nat
  /\ launches
       (trace (snd (googleSearch Fixture.devices Fixture.host
                      Fixture.envChallenge Fixture.dirname "rocq"
                      Fixture.noOptions (Some 0%nat) (startWorld 1))))
     = [(false, 3%nat)].
Proof. split; vm_compute; reflexivity. Qed.

(** ** [performSearch] satisfies the equation it is written with *)

Section Recursion.

Variable devices : string -> option DeviceDescriptor.
Variable host : Host.
Variable env : nat -> Event -> Reply.
Variable dirname : string -> string.
Variable query : string.
Variable limit : Z.
Variable stateFile : string.
Variable noSaveState : bool.
Variable locale : string.
Variable storageState : option string.
Variable existingBrowser : option Browser.

Lemma headed_attempt_never_retries (a : Attempt) (w : World) :
  a_headless a = false ->
  fst (guardedSearch env dirname query limit stateFile noSaveState a w)
  <> Ok Retry.
Proof.
  intros Hh H.
  destruct (keeps_guardedSearch_headed env dirname 0 query limit stateFile
              noSaveState a Hh (fun _ => Nat.le_0_l _) w (Nat.le_0_l _))
    as (_ & _ & _ & _ & HQ).
  rewrite H in HQ. now apply HQ.
Qed.

Lemma body_retry_ext (r1 r2 : M SearchResponse) (headless : bool)
    (w : World) :
  (forall w', r1 w' = r2 w') ->
  performSearchBody devices host env dirname query limit stateFile
    noSaveState locale storageState existingBrowser r1 headless w
  = performSearchBody devices host env dirname query limit stateFile
      noSaveState locale storageState existingBrowser r2 headless w.
Proof.
  intros H. unfold performSearchBody, runAttempt, bind.
  destruct (acquireBrowser env existingBrowser headless w)
    as [[[b p]|e] w1]; [|reflexivity].
  destruct (openPage devices host env locale storageState b w1)
    as [[[[o c] pg]|e] w2]; [|reflexivity].
  destruct (guardedSearch env dirname query limit stateFile noSaveState
              (mkAttempt b p c pg o headless) w2)
    as [[[r|]|e] w3]; try reflexivity.
  apply H.
Qed.

Lemma body_headed_ignores_retry (r1 r2 : M SearchResponse) (w : World) :
  performSearchBody devices host env dirname query limit stateFile
    noSaveState locale storageState existingBrowser r1 false w
  = performSearchBody devices host env dirname query limit stateFile
      noSaveState locale storageState existingBrowser r2 false w.
Proof.
  unfold performSearchBody, runAttempt, bind.
  destruct (acquireBrowser env existingBrowser false w)
    as [[[b p]|e] w1]; [|reflexivity].
  destruct (openPage devices host env locale storageState b w1)
    as [[[[o c] pg]|e] w2]; [|reflexivity].
  destruct (guardedSearch env dirname query limit stateFile noSaveState
              (mkAttempt b p c pg o false) w2)
    as [[[r|]|e] w3] eqn:E; try reflexivity.
  exfalso.
  apply (headed_attempt_never_retries (mkAttempt b p c pg o false) w2);
    [reflexivity | now rewrite E].
Qed.

(** [performSearch(headless)] is its body, with [performSearch(false)] for
    the call the body ends an escalation with. *)
Lemma performSearch_unfold (headless : bool) (w : World) :
  performSearch devices host env dirname query limit stateFile noSaveState
    locale storageState existingBrowser headless w
  = performSearchBody devices host env dirname query limit stateFile
      noSaveState locale storageState existingBrowser
      (performSearch devices host env dirname query limit stateFile
         noSaveState locale storageState existingBrowser false)
      headless w.
Proof.
  unfold performSearch. destruct headless.
  - apply body_retry_ext. intros w'. apply body_headed_ignores_retry.
  - apply body_headed_ignores_retry.
Qed.

End Recursion.

(** * Further properties of the code *)

(** ** The profile of the host *)

(** X1. The time zone of a generated profile, by the offset from UTC in
    minutes. The test for UTC+8 also takes the offsets down to -599, so the
    host at UTC+9 (offset -540) is given [Asia/Shanghai] and [Asia/Tokyo] is
    left for offsets of -600 and below; offset -60 (UTC+1) falls in no
    bucket and gets the default. *)
Theorem host_timezone_buckets (host : Host) (userLocale : option string) :
  let off := timezoneOffset host in
  let tz := timezoneId (getHostMachineConfig host userLocale) in
  (tz = "Asia/Tokyo" <-> off <= -600)
  /\ (tz = "Asia/Shanghai" <-> -600 < off <= -480)
  /\ (tz = "Asia/Bangkok" <-> -480 < off <= -420)
  /\ (tz = "Europe/London" <-> -60 < off <= 0)
  /\ (tz = "Europe/Berlin" <-> 0 < off <= 60)
  /\ (tz = "America/New_York" <-> -420 < off <= -60 \/ 60 < off).
Proof.
  intros off tz. subst tz. unfold getHostMachineConfig.
  cbn [timezoneId]. fold off.
  destruct (Z.leb_spec off (-480)), (Z.ltb_spec (-600) off),
    (Z.leb_spec off (-540)), (Z.leb_spec off (-420)),
    (Z.ltb_spec (-480) off), (Z.leb_spec off 0), (Z.ltb_spec (-60) off),
    (Z.leb_spec off 60), (Z.ltb_spec 0 off), (Z.leb_spec off 300),
    (Z.ltb_spec 240 off);
    cbn [andb]; try lia;
    repeat split; intros; try discriminate; try lia; try reflexivity.
Qed.

Section HostProfile.

Variable devices : string -> option DeviceDescriptor.
Variable host : Host.

Lemma host_deviceName_desktop (userLocale : option string) :
  deviceName (getHostMachineConfig host userLocale) ∈ deviceList.
Proof.
  unfold getHostMachineConfig, deviceList. cbn [deviceName].
  destruct (String.eqb (platform host) "darwin");
    [repeat constructor |].
  destruct (String.eqb (platform host) "win32");
    [repeat constructor |].
  destruct (String.eqb (platform host) "linux"); repeat constructor.
Qed.

Lemma orElse_truthy (a : option string) (b : string) :
  Js.truthy b = true -> Js.truthy (Js.orElse a b) = true.
Proof.
  intros Hb. unfold Js.orElse. destruct a as [s|]; [|exact Hb].
  destruct (Js.truthy s) eqn:E; [exact E | exact Hb].
Qed.

(** X2. A profile generated from the host is one that a later run accepts:
    its device is one of the four desktop devices, its locale is not empty
    (an empty locale option and an empty [LANG] fall through to [en-US]),
    and, [devices] knowing the four desktop devices, it passes the test of
    [getDeviceConfig]. *)
Theorem host_profile_recognized (userLocale : option string) :
  (forall name, name ∈ deviceList -> is_Some (devices name)) ->
  deviceName (getHostMachineConfig host userLocale) ∈ deviceList
  /\ Js.truthy (fp_locale (getHostMachineConfig host userLocale)) = true
  /\ recognized devices (getHostMachineConfig host userLocale) = true.
Proof.
  intros Hknown. pose proof (host_deviceName_desktop userLocale) as Hd.
  split; [exact Hd |]. split.
  - unfold getHostMachineConfig. cbn [fp_locale].
    apply orElse_truthy. now apply orElse_truthy.
  - unfold recognized. apply andb_true_iff. split.
    + revert Hd. generalize (deviceName (getHostMachineConfig host userLocale)).
      intros d Hd. unfold deviceList in Hd.
      repeat (apply elem_of_cons in Hd as [->|Hd]; [reflexivity |]).
      inversion Hd.
    + apply bool_decide_eq_true. now apply Hknown.
Qed.

(** X3. The fingerprint is settled by the first resolution of a run. After
    it a profile is saved; resolving again, as the attempt that follows an
    escalation does, returns the saved state unchanged and the same locale,
    time zone, colour scheme, reduced motion and forced colours, whatever the
    random draws. *)
Theorem fingerprint_settled_after_first_resolution
    (locale : string) (s : SavedState) (r r' : nat) :
  let first := resolveFingerprint devices host locale s r in
  let second := resolveFingerprint devices host locale (snd first) r' in
  is_Some (fingerprint (snd first))
  /\ snd second = snd first
  /\ co_locale (snd (fst second)) = co_locale (snd (fst first))
  /\ co_timezoneId (snd (fst second)) = co_timezoneId (snd (fst first))
  /\ co_colorScheme (snd (fst second)) = co_colorScheme (snd (fst first))
  /\ co_reducedMotion (snd (fst second)) = co_reducedMotion (snd (fst first))
  /\ co_forcedColors (snd (fst second)) = co_forcedColors (snd (fst first)).
Proof.
  destruct s as [[fp|] domain]; unfold resolveFingerprint;
    cbn [fingerprint googleDomain].
  - destruct (getDeviceConfig devices (mkSaved (Some fp) domain) r)
      as [d1 c1].
    cbn [fst snd fingerprint].
    destruct (getDeviceConfig devices (mkSaved (Some fp) domain) r')
      as [d2 c2].
    cbn. repeat split. now exists fp.
  - destruct (getDeviceConfig devices (mkSaved None domain) r) as [d1 c1].
    cbn [fst snd fingerprint googleDomain].
    match goal with
    | |- context [getDeviceConfig devices ?s' r'] =>
        destruct (getDeviceConfig devices s' r') as [d2 c2]
    end.
    cbn [fst snd co_locale co_timezoneId co_colorScheme co_reducedMotion
         co_forcedColors fingerprint].
    repeat split. eexists. reflexivity.
Qed.

End HostProfile.

Lemma host_profile_recognized_witness :
  deviceName (getHostMachineConfig Fixture.host (Some "en-US")) ∈ deviceList
  /\ Js.truthy (fp_locale (getHostMachineConfig Fixture.host (Some "en-US")))
     = true
  /\ recognized Fixture.devices (getHostMachineConfig Fixture.host
                                   (Some "en-US")) = true.
Proof.
  apply (host_profile_recognized Fixture.devices Fixture.host (Some "en-US")).
  intros name Hname. unfold Fixture.devices.
  rewrite bool_decide_eq_true_2 by exact Hname. eexists. reflexivity.
Defined.

(** ** The block patterns *)

Lemma includes_sub (s p q : string) :
  Js.includes p q = true -> Js.includes s p = true -> Js.includes s q = true.
Proof.
  rewrite !includes_spec. intros (a & b & ->) (c & d & ->).
  exists (c +:+ a), (b +:+ d). now rewrite !append_assoc.
Qed.

(** X4. Two of the five block patterns add nothing: a URL that contains
    [google.com/sorry/index] contains [google.com/sorry], and one that
    contains [recaptcha] contains [captcha]. The check of a URL is the check
    for the three remaining patterns. *)
Theorem block_check_three_patterns (searchUrl : string) :
  isBlockedAfterSearch searchUrl
  = Js.includes searchUrl "google.com/sorry"
    || Js.includes searchUrl "captcha"
    || Js.includes searchUrl "unusual traffic".
Proof.
  unfold isBlockedAfterSearch, sorryPatterns. cbn [existsb].
  rewrite orb_false_r.
  destruct (Js.includes searchUrl "google.com/sorry/index") eqn:E1.
  - rewrite (includes_sub searchUrl "google.com/sorry/index"
               "google.com/sorry" eq_refl E1). reflexivity.
  - destruct (Js.includes searchUrl "google.com/sorry"); [reflexivity |].
    destruct (Js.includes searchUrl "recaptcha") eqn:E2.
    + rewrite (includes_sub searchUrl "recaptcha" "captcha" eq_refl E2).
      reflexivity.
    + reflexivity.
Qed.

(** X5. In a headed attempt the wait for the user ends at exactly the URLs
    that the checks of the second and third checkpoint take for not blocked;
    and a URL is blocked for the first checkpoint or ends the wait, whatever
    the response. *)
Theorem wait_ends_where_check_passes
    (urlStr : string) (response : option string) :
  leftBlockedPage urlStr = negb (isBlockedAfterSearch urlStr)
  /\ leftBlockedPage urlStr = negb (isBlockedDuringResults urlStr)
  /\ isBlockedPage urlStr response || leftBlockedPage urlStr = true.
Proof.
  assert (leftBlockedPage urlStr = negb (isBlockedAfterSearch urlStr)) as H.
  { unfold leftBlockedPage, isBlockedAfterSearch.
    induction sorryPatterns as [|p l IH]; [reflexivity |].
    cbn [forallb existsb]. rewrite IH. now rewrite negb_orb. }
  split; [exact H |]. split; [exact H |].
  destruct (isBlockedPage urlStr response) eqn:Hb; [reflexivity |].
  cbn [orb]. rewrite H. apply negb_true_iff.
  rewrite isBlockedAfterSearch_current_only.
  unfold isBlockedPage in *. revert Hb.
  induction sorryPatterns as [|p l IH]; [reflexivity |].
  cbn [existsb]. intros Hb. apply orb_false_iff in Hb as [Hp Hl].
  apply orb_false_iff in Hp as [Hp _]. rewrite Hp, orb_false_r.
  cbn [orb]. now apply IH.
Qed.

(** ** The fingerprint side file *)

Lemma fingerprintFile_first_occurrence_aux (stateFile : string) :
  (Js.includes stateFile ".json" = false
   /\ fingerprintFile stateFile = stateFile) \/
  (exists pre post,
     stateFile = pre +:+ ".json" +:+ post /\
     (forall i, (i < String.length pre)%nat ->
                Js.startsWith (Js.skip i stateFile) ".json" = false) /\
     fingerprintFile stateFile = pre +:+ "-fingerprint.json" +:+ post).
Proof. apply replace_spec. Qed.

(** X6. The fingerprint file is the state file itself exactly when the
    path of the state file holds no [.json]; then the fingerprint is written
    over the storage state. Otherwise its path is twelve characters
    longer. *)
Theorem fingerprintFile_collides_without_json (stateFile : string) :
  (fingerprintFile stateFile = stateFile
   <-> Js.includes stateFile ".json" = false)
  /\ String.length (fingerprintFile stateFile)
     = (if Js.includes stateFile ".json"
        then String.length stateFile + 12
        else String.length stateFile)%nat.
Proof.
  destruct (fingerprintFile_first_occurrence_aux stateFile)
    as [[Hn Hr] | (pre & post & Hs & _ & Hr)].
  - rewrite Hn, Hr. split; [split; reflexivity | reflexivity].
  - assert (Js.includes stateFile ".json" = true) as Hin
      by (apply includes_spec; now exists pre, post).
    assert (String.length (fingerprintFile stateFile)
            = (String.length stateFile + 12)%nat) as Hlen.
    { rewrite Hr, Hs, !length_append. simpl. lia. }
    rewrite Hin. split; [|exact Hlen].
    split; [|congruence].
    intros E. rewrite E in Hlen. lia.
Qed.

(** ** The extraction loops *)

Lemma forOf_prefix {A : Type} (stop : Acc -> bool) (body : A -> Acc -> Acc)
    (xs : list A) (s : Acc) :
  (forall x s', acc_results s' `prefix_of` acc_results (body x s')) ->
  acc_results s `prefix_of` acc_results (Js.forOf stop body xs s).
Proof.
  intros Hbody. revert s. induction xs as [|x xs IH]; intros s; simpl.
  - reflexivity.
  - destruct (stop s); [reflexivity |].
    etransitivity; [apply Hbody | apply IH].
Qed.

Lemma grows1_prefix (a b : Acc) :
  grows1 a b -> acc_results a `prefix_of` acc_results b.
Proof. intros (extra & H & _). now exists extra. Qed.

Lemma grows1_collected (a b : Acc) :
  grows1 a b -> collected a <= collected b <= collected a + 1.
Proof.
  intros (extra & H & Hl). unfold collected. rewrite H, length_app. lia.
Qed.

Lemma grows1_refl (a : Acc) : grows1 a a.
Proof. exists []. split; [now rewrite app_nil_r | simpl; lia]. Qed.

Lemma grows1_push (acc : Acc) (r : SearchResult) (seen : gset string) :
  grows1 acc {| acc_results := acc_results acc ++ [r]; seenUrls := seen |}.
Proof. exists [r]. split; [reflexivity | simpl; lia]. Qed.

Lemma forOf_full_bounded {A : Type} (k : Z) (body : A -> Acc -> Acc)
    (xs : list A) (s : Acc) :
  (forall x s', collected s' < k -> collected (body x s') <= k) ->
  collected s <= k ->
  collected (Js.forOf (full k) body xs s) <= k.
Proof.
  intros Hbody. revert s. induction xs as [|x xs IH]; intros s Hs; simpl.
  - exact Hs.
  - unfold full at 1. fold (collected s).
    destruct (Z.leb_spec k (collected s)); [exact Hs |].
    apply IH. now apply Hbody.
Qed.

Lemma forOf_sim {A : Type} (k m : Z) (f g : A -> Acc -> Acc)
    (xs : list A) (a b : Acc) :
  k <= m ->
  (forall x s, acc_results s `prefix_of` acc_results (g x s)) ->
  (forall x s, collected s < k -> Sim k (f x s) (g x s)) ->
  Sim k a b ->
  Sim k (Js.forOf (full k) f xs a) (Js.forOf (full m) g xs b).
Proof.
  intros Hkm Hg Hstep. revert a b.
  induction xs as [|x xs IH]; intros a b Hab; [exact Hab |].
  destruct Hab as [[-> Hlt] | [Heq Hpre]].
  - simpl. unfold full at 1 3. fold (collected b).
    destruct (Z.leb_spec k (collected b)); [lia |].
    destruct (Z.leb_spec m (collected b)); [lia |].
    apply IH. now apply Hstep.
  - cbn [Js.forOf]. unfold full at 1. fold (collected a).
    destruct (Z.leb_spec k (collected a)); [|lia].
    right. split; [exact Heq |].
    etransitivity; [exact Hpre |].
    apply (forOf_prefix (full m) g (x :: xs) b Hg).
Qed.

Lemma Sim_same_step (k : Z) (s s' : Acc) :
  collected s < k -> grows1 s s' -> Sim k s' s'.
Proof.
  intros Hlt Hg. pose proof (grows1_collected s s' Hg) as Hc.
  destruct (Z.lt_ge_cases (collected s') k) as [H|H].
  - left. now split.
  - right. split; [lia | reflexivity].
Qed.

Lemma Sim_results (k : Z) (a b : Acc) :
  0 <= k -> Sim k a b ->
  acc_results a = take (Z.to_nat k) (acc_results b).
Proof.
  intros Hk [[-> Hlt] | [Heq [rest Hpre]]].
  - symmetry. apply take_ge. unfold collected in Hlt. lia.
  - rewrite Hpre. unfold collected in Heq.
    replace (Z.to_nat k) with (length (acc_results a)) by lia.
    symmetry. apply take_app_length.
Qed.

Lemma ancestorSnippet_spec (D : Dom) (el : Element D) (t : string) :
  ancestorSnippet D el t = EmptyString
  \/ ((20 < String.length (ancestorSnippet D el t))%nat
      /\ ancestorSnippet D el t <> t).
Proof.
  unfold ancestorSnippet.
  destruct (List.find _ (take 3 (parentChain D el))) as [p|] eqn:E;
    [|now left].
  apply List.find_some in E as [_ E].
  apply andb_true_iff in E as [E1 E2].
  right. split.
  - now apply Nat.ltb_lt in E1.
  - apply negb_true_iff in E2. now apply String.eqb_neq in E2.
Qed.

Section ExtractorMore.

Variable D : Dom.

Lemma processContainer_grows1 (selectors : SelectorSet)
    (container : Element D) (acc : Acc) :
  grows1 acc (processContainer D selectors container acc).
Proof.
  unfold processContainer.
  destruct (querySelector D container (sel_title selectors));
    [|apply grows1_refl].
  destruct (_ || _ || _); [apply grows1_refl |].
  destruct (_ && _); [apply grows1_push | apply grows1_refl].
Qed.

Lemma processAnchor_grows1 (el : Element D) (acc : Acc) :
  grows1 acc (processAnchor D el acc).
Proof.
  unfold processAnchor.
  destruct (negb (isHTMLAnchorElement D el)); [apply grows1_refl |].
  destruct (_ || _ || _ || _ || _); [apply grows1_refl |].
  destruct (negb (Js.truthy (trimmedText D el)));
    [apply grows1_refl | apply grows1_push].
Qed.

Lemma processSelectorSet_prefix (k : Z) (selectors : SelectorSet)
    (acc : Acc) :
  acc_results acc `prefix_of`
  acc_results (processSelectorSet D k selectors acc).
Proof.
  unfold processSelectorSet. apply forOf_prefix.
  intros x s'. apply grows1_prefix, processContainer_grows1.
Qed.

Lemma cascade_bounded (k : Z) : 0 <= k -> collected (cascade D k) <= k.
Proof.
  intros Hk. unfold cascade. apply forOf_full_bounded; [|exact Hk].
  intros sel s Hs. unfold processSelectorSet.
  apply forOf_full_bounded; [|lia].
  intros c s' Hs'.
  pose proof (grows1_collected _ _ (processContainer_grows1 sel c s')). lia.
Qed.

Lemma supplemented_bounded (k : Z) :
  0 <= k -> collected (supplemented D k) <= k.
Proof.
  intros Hk. unfold supplemented.
  destruct (_ <? k); [|now apply cascade_bounded].
  apply forOf_full_bounded; [|now apply cascade_bounded].
  intros el s Hs.
  pose proof (grows1_collected _ _ (processAnchor_grows1 el s)). lia.
Qed.

Lemma slice0_all {A : Type} (l : list A) (k : Z) :
  Z.of_nat (length l) <= k -> Js.slice0 l k = l.
Proof.
  intros H. unfold Js.slice0.
  destruct (Z.ltb_spec k 0); [lia |]. apply take_ge. lia.
Qed.


Lemma cascade_sim (k m : Z) :
  0 <= k -> k <= m -> Sim k (cascade D k) (cascade D m).
Proof.
  intros Hk Hkm. unfold cascade. apply forOf_sim; [exact Hkm | | |].
  - intros sel s. apply processSelectorSet_prefix.
  - intros sel s Hs. unfold processSelectorSet.
    apply forOf_sim; [exact Hkm | | |].
    + intros c s'. apply grows1_prefix, processContainer_grows1.
    + intros c s' Hs'.
      apply (Sim_same_step k s'); [exact Hs' |].
      apply processContainer_grows1.
    + left. now split.
  - destruct (Z.lt_ge_cases 0 k) as [H|H].
    + left. split; [reflexivity | exact H].
    + right. split; [unfold collected; simpl; lia | reflexivity].
Qed.

Lemma supplemented_sim (k m : Z) :
  0 <= k -> k <= m -> Sim k (supplemented D k) (supplemented D m).
Proof.
  intros Hk Hkm. pose proof (cascade_sim k m Hk Hkm) as Hc.
  unfold supplemented. fold (collected (cascade D k)).
  fold (collected (cascade D m)).
  assert (forall s, acc_results s `prefix_of`
            acc_results (Js.forOf (full m) (processAnchor D)
                           (documentQuerySelectorAll D "a[href^='http']") s))
    as Hgrow.
  { intros s. apply forOf_prefix.
    intros x s'. apply grows1_prefix, processAnchor_grows1. }
  destruct Hc as [[E Hlt] | [Heq Hpre]].
  - rewrite <- E.
    destruct (Z.ltb_spec (collected (cascade D k)) k); [|lia].
    destruct (Z.ltb_spec (collected (cascade D k)) m); [|lia].
    apply forOf_sim; [exact Hkm | | |].
    + intros c s'. apply grows1_prefix, processAnchor_grows1.
    + intros c s' Hs'.
      apply (Sim_same_step k s'); [exact Hs' |].
      apply processAnchor_grows1.
    + left. now split.
  - destruct (Z.ltb_spec (collected (cascade D k)) k); [lia |].
    right. split; [exact Heq |].
    destruct (collected (cascade D m) <? m); [|exact Hpre].
    etransitivity; [exact Hpre | apply Hgrow].
Qed.

(** X8. Raising the limit only adds results at the end: for limits
    [0 <= k <= m], the results for the limit [k] are the first [k] results
    for the limit [m]. *)
Theorem smaller_limit_is_prefix (k m : Z) :
  0 <= k -> k <= m ->
  extractResults D k = take (Z.to_nat k) (extractResults D m).
Proof.
  intros Hk Hkm. unfold extractResults.
  rewrite (slice0_all _ k (supplemented_bounded k Hk)).
  rewrite (slice0_all _ m (supplemented_bounded m ltac:(lia))).
  apply Sim_results; [exact Hk |]. now apply supplemented_sim.
Qed.

End ExtractorMore.

Lemma smaller_limit_is_prefix_witness :
  extractResults Fixture.pageDom 2
  = take (Z.to_nat 2) (extractResults Fixture.pageDom 10).
Proof. apply (smaller_limit_is_prefix Fixture.pageDom 2 10); lia. Defined.

Section ExtractorResults.

Variable D : Dom.
Variable maxResults : Z.

(** X9. Every extracted result has a title and a link that are not
    empty: a container whose title is blank and an anchor without text
    are passed over. *)
Theorem results_have_title_and_link (r : SearchResult) :
  r ∈ extractResults D maxResults ->
  title r <> EmptyString /\ link r <> EmptyString.
Proof.
  intros Hr. unfold extractResults, Js.slice0 in Hr.
  apply elem_of_take in Hr as (i & Hr & _).
  apply list_elem_of_lookup_2 in Hr. revert r Hr.
  set (P := fun acc : Acc =>
              forall r, r ∈ acc_results acc ->
                        title r <> EmptyString /\ link r <> EmptyString).
  change (P (supplemented D maxResults)).
  assert (forall acc t l s seen,
            P acc -> Js.truthy t = true -> Js.truthy l = true ->
            P {| acc_results := acc_results acc ++ [mkResult t l s];
                 seenUrls := seen |}) as Hpush.
  { intros acc t l s seen Hacc Ht Hl r Hr. simpl in Hr.
    apply elem_of_app in Hr as [Hr|Hr]; [now apply Hacc |].
    apply list_elem_of_singleton in Hr. subst r. simpl.
    unfold Js.truthy in Ht, Hl.
    apply negb_true_iff in Ht, Hl.
    split; now apply String.eqb_neq. }
  assert (P (cascade D maxResults)) as Hc.
  { unfold cascade. apply forOf_invariant; [|intros r Hr; inversion Hr].
    intros sel s Hs. unfold processSelectorSet.
    apply forOf_invariant; [|exact Hs].
    intros c s' Hs'. unfold processContainer.
    destruct (querySelector D c (sel_title sel)) as [t|]; [|exact Hs'].
    destruct (_ || _ || _); [exact Hs' |].
    destruct (Js.truthy (trimmedText D t) && Js.truthy (findLink D c t))
      eqn:E; [|exact Hs'].
    apply andb_true_iff in E as [Et El]. now apply Hpush. }
  unfold supplemented. destruct (_ <? maxResults); [|exact Hc].
  apply forOf_invariant; [|exact Hc].
  intros el s Hs. unfold processAnchor.
  destruct (negb (isHTMLAnchorElement D el)); [exact Hs |].
  destruct (negb (Js.truthy (href D el)) || _ || _ || _ || _) eqn:E;
    [exact Hs |].
  destruct (negb (Js.truthy (trimmedText D el))) eqn:Et; [exact Hs |].
  do 4 (apply orb_false_iff in E as [E _]).
  apply negb_false_iff in E, Et. now apply Hpush.
Qed.

(** X10. For a limit that is not negative, the extracted list is the
    results of the selector cascade, in their order, followed by results of
    the supplementary pass; each of those has a link that holds none of
    [google.com/], [accounts.google] and [support.google], and a snippet that
    is empty or is longer than twenty characters and differs from the
    title. *)
Theorem cascade_first_then_supplementary :
  0 <= maxResults ->
  exists extra,
    extractResults D maxResults = acc_results (cascade D maxResults) ++ extra
    /\ Forall supplementary extra.
Proof.
  intros Hk. unfold extractResults.
  rewrite (slice0_all _ _ (supplemented_bounded D maxResults Hk)).
  set (base := acc_results (cascade D maxResults)).
  set (P := fun acc : Acc =>
              exists extra, acc_results acc = base ++ extra
                            /\ Forall supplementary extra).
  change (P (supplemented D maxResults)).
  assert (P (cascade D maxResults)) as Hc.
  { exists []. split; [now rewrite app_nil_r | constructor]. }
  unfold supplemented. destruct (_ <? maxResults); [|exact Hc].
  apply forOf_invariant; [|exact Hc].
  intros el s (extra & Hs & Hall). unfold processAnchor.
  destruct (negb (isHTMLAnchorElement D el)); [now exists extra |].
  destruct (negb (Js.truthy (href D el)) || _ || _ || _ || _) eqn:E;
    [now exists extra |].
  destruct (negb (Js.truthy (trimmedText D el))) eqn:Et; [now exists extra |].
  apply orb_false_iff in E as [E E5].
  apply orb_false_iff in E as [E E4].
  apply orb_false_iff in E as [E E3].
  apply orb_false_iff in E as [E1 _].
  apply negb_false_iff in E1, Et.
  eexists (extra ++ [_]). cbn [acc_results].
  split; [rewrite Hs; now rewrite app_assoc |].
  apply Forall_app. split; [exact Hall |].
  constructor; [|constructor].
  unfold supplementary. cbn [title link snippet].
  repeat split; try assumption. apply ancestorSnippet_spec.
Qed.

End ExtractorResults.

Lemma cascade_first_then_supplementary_witness :
  exists extra,
    extractResults Fixture.pageDom 10
    = acc_results (cascade Fixture.pageDom 10) ++ extra
    /\ Forall supplementary extra.
Proof. apply (cascade_first_then_supplementary Fixture.pageDom 10). lia. Defined.

Lemma results_have_title_and_link_witness :
  title (mkResult "First result" "https://example.com/a" EmptyString)
  <> EmptyString
  /\ link (mkResult "First result" "https://example.com/a" EmptyString)
     <> EmptyString.
Proof.
  apply (results_have_title_and_link Fixture.pageDom 10).
  replace (extractResults Fixture.pageDom 10)
    with [ mkResult "First result" "https://example.com/a" EmptyString;
           mkResult "Third result" "https://example.org/c"
             "A snippet of the third result.";
           mkResult "Outside link" "https://example.net/d"
             "Outside link and the text that surrounds it" ]
    by (vm_compute; reflexivity).
  apply list_elem_of_here.
Defined.

(** ** What a run emits *)

Lemma navigations_app (l1 l2 : list Event) :
  navigations (l1 ++ l2) = (navigations l1 + navigations l2)%nat.
Proof. unfold navigations. now rewrite List.filter_app, List.length_app. Qed.

Lemma run_emits (P : Event -> Prop) (n : nat) {A : Type} (m : M A)
    (Q : A -> Prop) :
  run P n m Q -> emits P m Q.
Proof.
  intros H w. destruct (H w) as (evs & Ht & Hall & _ & HQ).
  exists evs. auto.
Qed.

Lemma run_navigatesAtMost (P : Event -> Prop) (n : nat) {A : Type} (m : M A)
    (Q : A -> Prop) :
  run P n m Q -> navigatesAtMost m n.
Proof.
  intros H w. destruct (H w) as (evs & Ht & _ & Hn & _).
  exists evs. auto.
Qed.

Lemma existsb_false_weaken {A : Type} (f g : A -> bool) (l : list A) :
  (forall x, g x = true -> f x = true) ->
  existsb f l = false -> existsb g l = false.
Proof.
  intros Hfg. induction l as [|x l IH]; simpl; [reflexivity |].
  intros H. apply orb_false_iff in H as (Hx & Hl).
  apply orb_false_iff. split; [|now apply IH].
  destruct (g x) eqn:E; [|reflexivity].
  apply Hfg in E. congruence.
Qed.

Lemma calm_after_search (u : string) (resp : option string) :
  isBlockedPage u resp = false -> isBlockedAfterSearch u = false.
Proof.
  apply existsb_false_weaken. intros p Hp. now rewrite Hp.
Qed.

Section Run.

Variable P : Event -> Prop.

Lemma run_silent {A : Type} (n : nat) (m : M A) (Q : A -> Prop) :
  (forall w, trace (snd (m w)) = trace w
             /\ match fst (m w) with Ok a => Q a | Throw _ => True end) ->
  run P n m Q.
Proof.
  intros H w. destruct (H w) as (Ht & HQ). exists [].
  split; [now rewrite app_nil_r |]. split; [constructor |].
  split; [apply Nat.le_0_l | exact HQ].
Qed.

Lemma run_ret {A : Type} (n : nat) (a : A) (Q : A -> Prop) :
  Q a -> run P n (ret a) Q.
Proof. intros HQ. apply run_silent. intros w. simpl. auto. Qed.

Lemma run_throw {A : Type} (n : nat) (e : string) (Q : A -> Prop) :
  run P n (throw e) Q.
Proof. apply run_silent. intros w. simpl. auto. Qed.

Lemma run_getSaved (n : nat) : run P n getSaved (fun _ => True).
Proof. apply run_silent. intros w. simpl. auto. Qed.

Lemma run_setSaved (n : nat) (s : SavedState) :
  run P n (setSaved s) (fun _ => True).
Proof. apply run_silent. intros w. simpl. auto. Qed.

Lemma run_fresh (n : nat) : run P n fresh (fun _ => True).
Proof. apply run_silent. intros w. simpl. auto. Qed.

Lemma run_bind_count {A B : Type} (a b : nat) (m : M A) (k : A -> M B)
    (R : A -> Prop) (Q : B -> Prop) :
  run P a m R -> (forall x, R x -> run P b (k x) Q) ->
  run P (a + b) (bind m k) Q.
Proof.
  intros Hm Hk w. unfold bind.
  destruct (Hm w) as (evs & Ht & Hall & Hn & Ha).
  destruct (m w) as [[x|e] w']; simpl in *.
  - destruct (Hk x Ha w') as (evs' & Ht' & Hall' & Hn' & Hb).
    exists (evs ++ evs'). rewrite Ht', Ht, app_assoc, navigations_app.
    split; [reflexivity |]. split; [now apply Forall_app |].
    split; [lia | exact Hb].
  - exists evs. repeat split; try assumption. lia.
Qed.

Lemma run_bind {A B : Type} (n : nat) (m : M A) (k : A -> M B)
    (R : A -> Prop) (Q : B -> Prop) :
  run P 0 m R -> (forall x, R x -> run P n (k x) Q) -> run P n (bind m k) Q.
Proof. intros Hm Hk. exact (run_bind_count 0 n m k R Q Hm Hk). Qed.

Lemma run_bind_any {A B : Type} (n : nat) (m : M A) (k : A -> M B)
    (Q : B -> Prop) :
  run P 0 m (fun _ => True) -> (forall x, run P n (k x) Q) ->
  run P n (bind m k) Q.
Proof. intros Hm Hk. eapply run_bind; [exact Hm | intros x _; apply Hk]. Qed.

Lemma run_tryCatch {A : Type} (n : nat) (m : M A) (h : string -> M A)
    (Q : A -> Prop) :
  run P n m Q -> (forall e, run P 0 (h e) Q) -> run P n (tryCatch m h) Q.
Proof.
  intros Hm Hh w. unfold tryCatch.
  destruct (Hm w) as (evs & Ht & Hall & Hn & Ha).
  destruct (m w) as [[a|e] w']; simpl in *.
  - exists evs. auto.
  - destruct (Hh e w') as (evs' & Ht' & Hall' & Hn' & Hb).
    exists (evs ++ evs'). rewrite Ht', Ht, app_assoc, navigations_app.
    split; [reflexivity |]. split; [now apply Forall_app |].
    split; [lia | exact Hb].
Qed.

Lemma run_weaken {A : Type} (n n' : nat) (m : M A) (R Q : A -> Prop) :
  run P n m R -> (n <= n')%nat -> (forall a, R a -> Q a) -> run P n' m Q.
Proof.
  intros Hm Hn HRQ w. destruct (Hm w) as (evs & Ht & Hall & Hc & Ha).
  exists evs. repeat split; try assumption; [lia |].
  destruct (fst (m w)); [apply HRQ, Ha | exact I].
Qed.

Variable env : nat -> Event -> Reply.

(** The value of a call that returns is an answer of the environment. *)
Lemma run_call (n : nat) (ev : Event) :
  P ev -> isGoto ev = false ->
  run P n (call env ev) (fun r => exists t, r = env t ev).
Proof.
  intros Hev Hg w. exists [ev]. unfold call, navigations. simpl.
  rewrite Hg.
  destruct (throws (env (tick w) ev)); simpl;
    (split; [reflexivity |]; split; [now constructor |];
     split; [apply Nat.le_0_l |]); [exact I |].
  now exists (tick w).
Qed.

Lemma run_goto (n : nat) (ev : Event) :
  P ev -> run P (S n) (call env ev) (fun r => exists t, r = env t ev).
Proof.
  intros Hev w. exists [ev]. unfold call, navigations. simpl.
  assert (length (if isGoto ev then [ev] else []) <= S n)%nat as Hn
    by (destruct (isGoto ev); simpl; lia).
  destruct (throws (env (tick w) ev)); simpl;
    (split; [reflexivity |]; split; [now constructor |];
     split; [exact Hn |]); [exact I |].
  now exists (tick w).
Qed.

Lemma run_observe (n : nat) (ev : Event) :
  P ev -> isGoto ev = false ->
  run P n (observe env ev) (fun r => exists t, r = env t ev).
Proof.
  intros Hev Hg w. exists [ev]. unfold observe, navigations. simpl.
  rewrite Hg. split; [reflexivity |]. split; [now constructor |].
  split; [apply Nat.le_0_l |]. now exists (tick w).
Qed.

Lemma run_call_any (n : nat) (ev : Event) :
  P ev -> isGoto ev = false -> run P n (call env ev) (fun _ => True).
Proof.
  intros H Hg. eapply run_weaken; [now apply (run_call n) | lia | auto].
Qed.

Lemma run_observe_any (n : nat) (ev : Event) :
  P ev -> isGoto ev = false -> run P n (observe env ev) (fun _ => True).
Proof.
  intros H Hg. eapply run_weaken; [now apply (run_observe n) | lia | auto].
Qed.

End Run.

(** One step of a proof of [run]; [side] proves that [P] lets the event
    of a call through. *)
Ltac run_step side :=
  match goal with
  | |- run _ _ (bind _ _) _ => apply run_bind_any; [ | intros ? ]
  | |- run _ _ (ret _) _ => apply run_ret; exact I
  | |- run _ _ (throw _) _ => apply run_throw
  | |- run _ _ (tryCatch _ _) _ => apply run_tryCatch; [ | intros ? ]
  | |- run _ _ (call _ _) _ => apply run_call_any; [side | reflexivity]
  | |- run _ _ (observe _ _) _ => apply run_observe_any; [side | reflexivity]
  | |- run _ _ getSaved _ => apply run_getSaved
  | |- run _ _ (setSaved _) _ => apply run_setSaved
  | |- run _ _ fresh _ => apply run_fresh
  | |- run _ _ (if ?c then _ else _) _ => destruct c
  | |- run _ _ (match ?c with _ => _ end) _ => destruct c
  end.

Section RunController.

Variable P : Event -> Prop.
Hypothesis Pneutral : forall ev, neutral ev = true -> humanPace ev -> P ev.

Variable devices : string -> option DeviceDescriptor.
Variable host : Host.
Variable env : nat -> Event -> Reply.
Variable dirname : string -> string.
Variable regexReplace : string -> string -> string -> string.

Ltac neutral_side :=
  apply Pneutral;
  [ reflexivity
  | cbv beta in *; simpl;
    first [ exact I | lia | left; lia | right; reflexivity ] ].

Lemma run_launch (n : nat) (headless : bool) :
  (forall b, P (EvLaunch headless b)) ->
  run P n (launch env headless) (fun _ => True).
Proof.
  intros Hl. unfold launch. repeat run_step ltac:(apply Hl).
Qed.

(** The delay drawn lies between the two bounds. *)
Lemma run_getRandomDelay (n min max : nat) :
  (min <= max)%nat ->
  run P n (getRandomDelay env min max) (fun d => (min <= d <= max)%nat).
Proof.
  intros Hmm. unfold getRandomDelay.
  apply run_bind_any; [run_step neutral_side |]. intros r.
  apply run_ret.
  pose proof (Nat.mod_upper_bound (r_random r) (max - min + 1)). lia.
Qed.

Lemma run_findSearchInput (n : nat) (page : Page) (selectors : list string) :
  run P n (findSearchInput env page selectors) (fun _ => True).
Proof.
  induction selectors as [|s l IH]; simpl;
    repeat run_step neutral_side. exact IH.
Qed.

Lemma run_waitForResults (n : nat) (page : Page) (selectors : list string) :
  run P n (waitForResults env page selectors) (fun _ => True).
Proof.
  induction selectors as [|s l IH]; simpl;
    repeat run_step neutral_side. exact IH.
Qed.

Lemma run_openPage (n : nat) (locale : string) (storageState : option string)
    (browser : Browser) :
  run P n (openPage devices host env locale storageState browser)
    (fun _ => True).
Proof. unfold openPage. repeat run_step neutral_side. Qed.

Lemma run_selectDomain (n : nat) : run P n (selectDomain env) (fun _ => True).
Proof. unfold selectDomain. repeat run_step neutral_side. Qed.

Lemma run_submitQuery (n : nat) (query : string) (a : Attempt) :
  run P n (submitQuery env query a) (fun _ => True).
Proof.
  unfold submitQuery.
  run_step idtac; [apply run_findSearchInput |].
  run_step idtac; [run_step idtac |].
  run_step idtac; [run_step neutral_side |].
  eapply run_bind; [apply run_getRandomDelay; lia |]. intros d Hd.
  run_step idtac; [run_step neutral_side |].
  eapply run_bind; [apply run_getRandomDelay; lia |]. intros d' Hd'.
  repeat run_step neutral_side.
Qed.

Lemma run_loadState (n : nat) (stateFile : string) :
  run P n (loadState env stateFile) (fun _ => True).
Proof. unfold loadState. repeat run_step neutral_side. Qed.

Lemma run_saveState (n : nat) (stateFile : string) (noSaveState : bool)
    (a : Attempt) :
  saveAllowed P noSaveState ->
  run P n (saveState env dirname stateFile noSaveState a) (fun _ => True).
Proof.
  intros [-> | (Hm & Hs & Hw)]; unfold saveState.
  - cbn [negb]. repeat run_step idtac.
  - repeat run_step ltac:(first [apply Hm | apply Hs | apply Hw
                                 | neutral_side]).
Qed.

Lemma run_close_own (n : nat) (a : Attempt) :
  closeOwnAllowed P a ->
  run P n (if negb (browserWasProvided a)
           then bind (call env (EvBrowserClose (a_browser a)))
                  (fun _ => ret tt)
           else ret tt) (fun _ => True).
Proof.
  intros Ha. destruct (browserWasProvided a) eqn:E; simpl.
  - run_step idtac.
  - specialize (Ha E). repeat run_step ltac:(exact Ha).
Qed.

Lemma run_catchBlock (n : nat) (query stateFile : string)
    (noSaveState : bool) (a : Attempt) (error : string) :
  saveAllowed P noSaveState -> closeOwnAllowed P a ->
  run P n (catchBlock env dirname query stateFile noSaveState a error)
    (fun t => t <> Retry).
Proof.
  intros Hs Ha. unfold catchBlock.
  run_step idtac; [now apply run_saveState |].
  run_step idtac; [now apply run_close_own |].
  apply run_ret. discriminate.
Qed.

Lemma run_escalate {A : Type} (n : nat) (a : Attempt) :
  escalateAllowed P a ->
  run P n (escalate env (A := A) a) (fun t => t = Retry).
Proof.
  intros (Hp & Hc & Hb). unfold escalate.
  run_step idtac; [run_step ltac:(exact Hp) |].
  run_step idtac; [run_step ltac:(exact Hc) |].
  destruct (browserWasProvided a).
  - run_step idtac; [apply run_launch; intros b; apply Hb |].
    apply run_tryCatch.
    + run_step idtac; [run_step idtac |].
      run_step idtac; [run_step neutral_side |].
      run_step idtac; [run_step idtac |].
      run_step idtac; [run_step neutral_side |].
      run_step idtac; [run_step ltac:(apply Hb) |].
      now apply run_ret.
    + intros e. run_step idtac; [run_step ltac:(apply Hb) |].
      apply run_throw.
  - run_step idtac; [run_step ltac:(exact Hb) |]. now apply run_ret.
Qed.

Lemma run_escalateHtml {A : Type} (n : nat) (a : Attempt) :
  escalateHtmlAllowed P a ->
  run P n (escalateHtml env (A := A) a) (fun t => t = Retry).
Proof.
  intros (Hp & Hc & Hb). unfold escalateHtml.
  run_step idtac; [run_step ltac:(exact Hp) |].
  run_step idtac; [run_step ltac:(exact Hc) |].
  run_step idtac; [run_step ltac:(exact Hb) |]. now apply run_ret.
Qed.

(** A checkpoint ends the attempt early only when it found a block page
    and the attempt is headless, and then with what the escalation
    returns. *)
Lemma run_checkpoint {A : Type} (n : nat) (a : Attempt) (blocked : bool)
    (esc : M (TryResult A)) (afterWait : M unit) (E : Prop)
    (R : TryResult A -> Prop) :
  (calmEnv env -> blocked = false) ->
  checkpointsAllowed P env a E ->
  (E -> run P 0 esc R) ->
  run P 0 afterWait (fun _ => True) ->
  run P n (checkpoint env a blocked esc afterWait)
    (fun r => (calmEnv env \/ a_headless a = false -> r = None)
              /\ forall t, r = Some t -> R t).
Proof.
  intros Hcalm Ha Hesc Hafter. unfold checkpoint.
  destruct blocked; [|now apply run_ret].
  destruct Ha as [Hc | Ha]; [now specialize (Hcalm Hc) |].
  destruct (a_headless a).
  - eapply run_bind; [now apply Hesc |]. intros t Ht.
    apply run_ret. split.
    + intros [Hc | Hc]; [now specialize (Hcalm Hc) | easy].
    + now intros t' [= <-].
  - run_step idtac; [run_step ltac:(exact Ha) |].
    run_step idtac; [exact Hafter |]. now apply run_ret.
Qed.

Lemma run_tryBlock (n : nat) (query : string) (limit : Z)
    (stateFile : string) (noSaveState : bool) (a : Attempt) :
  (forall pg d, P (EvGoto pg d)) ->
  saveAllowed P noSaveState -> closeOwnAllowed P a ->
  checkpointsAllowed P env a (escalateAllowed P a) ->
  run P (S n) (tryBlock env dirname query limit stateFile noSaveState a)
    (fun t => (calmEnv env \/ a_headless a = false -> t <> Retry)
              /\ forall r, t = Done r ->
                   exists D, r = mkResponse query (extractResults D limit)).
Proof.
  intros Hgoto Hs Hc Hcp. unfold tryBlock.
  run_step idtac; [apply run_selectDomain |].
  eapply (run_bind_count P 1 n); [apply run_goto, Hgoto |].
  intros response (t1 & ->).
  eapply run_bind; [apply run_observe; [neutral_side | reflexivity] |].
  intros currentUrl (t2 & ->).
  eapply run_bind.
  { apply run_checkpoint with (E := escalateAllowed P a);
      [intros Hcalm; apply Hcalm | exact Hcp | apply run_escalate
      | run_step idtac]. }
  intros esc1 (H1 & H1'). destruct esc1 as [t|].
  { apply run_ret. split; [intros H; now specialize (H1 H) |].
    intros r ->. now specialize (H1' _ eq_refl). }
  run_step idtac; [apply run_submitQuery |].
  eapply run_bind; [apply run_observe; [neutral_side | reflexivity] |].
  intros searchUrl (t3 & ->).
  eapply run_bind.
  { apply run_checkpoint with (E := escalateAllowed P a);
      [intros Hcalm; eapply calm_after_search, (Hcalm _ _ 0%nat EvRandom)
      | exact Hcp | apply run_escalate
      | repeat run_step neutral_side]. }
  intros esc2 (H2 & H2'). destruct esc2 as [t|].
  { apply run_ret. split; [intros H; now specialize (H2 H) |].
    intros r ->. now specialize (H2' _ eq_refl). }
  run_step idtac; [run_step neutral_side |].
  run_step idtac; [apply run_waitForResults |].
  eapply run_bind with
    (R := fun r => (calmEnv env \/ a_headless a = false -> r = None)
                   /\ forall t, r = Some t -> t = Retry).
  { match goal with |- run _ _ (if ?c then _ else _) _ => destruct c end;
      [apply run_ret; split; [reflexivity | discriminate] |].
    eapply run_bind; [apply run_observe; [neutral_side | reflexivity] |].
    intros currentUrl' (t4 & ->).
    destruct (isBlockedDuringResults _) eqn:Eb; [|apply run_throw].
    apply run_checkpoint with (E := escalateAllowed P a);
      [ | exact Hcp | apply run_escalate | ].
    - intros Hcalm. rewrite <- Eb.
      eapply calm_after_search, (Hcalm _ _ 0%nat EvRandom).
    - run_step idtac; [apply run_waitForResults |].
      repeat run_step idtac. }
  intros esc3 (H3 & H3'). destruct esc3 as [t|].
  { apply run_ret. split; [intros H; now specialize (H3 H) |].
    intros r ->. now specialize (H3' _ eq_refl). }
  eapply run_bind; [apply run_getRandomDelay; lia |]. intros d Hd.
  run_step idtac; [run_step neutral_side |].
  eapply run_bind; [apply run_call; [neutral_side | reflexivity] |].
  intros page _.
  run_step idtac; [now apply run_saveState |].
  run_step idtac; [now apply run_close_own |].
  apply run_ret. split; [discriminate |].
  intros r [= <-]. now exists (r_dom page).
Qed.

Lemma run_guardedSearch (n : nat) (query : string) (limit : Z)
    (stateFile : string) (noSaveState : bool) (a : Attempt) :
  (forall pg d, P (EvGoto pg d)) ->
  saveAllowed P noSaveState -> closeOwnAllowed P a ->
  checkpointsAllowed P env a (escalateAllowed P a) ->
  run P (S n) (guardedSearch env dirname query limit stateFile noSaveState a)
    (fun t => calmEnv env \/ a_headless a = false -> t <> Retry).
Proof.
  intros Hgoto Hs Hc Hcp. unfold guardedSearch. apply run_tryCatch.
  - eapply run_weaken; [now apply run_tryBlock | apply Nat.le_refl |].
    intros t (Ht & _). exact Ht.
  - intros e. eapply run_weaken; [now apply (run_catchBlock 0) | lia |].
    intros t Ht _. exact Ht.
Qed.

End RunController.

Section RunEntry.

Variable P : Event -> Prop.
Hypothesis Pneutral : forall ev, neutral ev = true -> humanPace ev -> P ev.
Hypothesis Pgoto : forall pg d, P (EvGoto pg d).

Variable devices : string -> option DeviceDescriptor.
Variable host : Host.
Variable env : nat -> Event -> Reply.
Variable dirname : string -> string.
Variable regexReplace : string -> string -> string -> string.

Ltac neutral_side :=
  apply Pneutral;
  [ reflexivity
  | cbv beta in *; simpl;
    first [ exact I | lia | left; lia | right; reflexivity ] ].

Lemma run_acquireBrowser (n : nat) (existingBrowser : option Browser)
    (headless : bool) :
  (existingBrowser = None -> forall b, P (EvLaunch headless b)) ->
  run P n (acquireBrowser env existingBrowser headless)
    (fun bp => snd bp = false -> existingBrowser = None).
Proof.
  intros Hl. unfold acquireBrowser. destruct existingBrowser as [b|].
  - apply run_ret. discriminate.
  - run_step idtac; [apply run_launch, Hl; reflexivity |].
    now apply run_ret.
Qed.

(** One attempt of [performSearch] and the one [retry] it may end with:
    [retry] runs only after a headless attempt met a block page. *)
Lemma run_performSearchBody (n : nat) (query : string) (limit : Z)
    (stateFile : string) (noSaveState : bool) (locale : string)
    (storageState : option string) (existingBrowser : option Browser)
    (retry : M SearchResponse) (headless : bool) :
  (existingBrowser = None ->
   forall b, P (EvLaunch headless b) /\ P (EvBrowserClose b)) ->
  saveAllowed P noSaveState ->
  (forall a, a_headless a = headless ->
             checkpointsAllowed P env a (escalateAllowed P a)) ->
  calmEnv env \/ headless = false \/ run P n retry (fun _ => True) ->
  run P (S n)
    (performSearchBody devices host env dirname query limit stateFile
       noSaveState locale storageState existingBrowser retry headless)
    (fun _ => True).
Proof.
  intros Hl Hs Hcp Hretry. unfold performSearchBody.
  eapply run_bind;
    [apply run_acquireBrowser; intros E b; now apply Hl |].
  intros [b p] Hbp. unfold runAttempt.
  run_step idtac; [now apply run_openPage |].
  destruct x as [[opts c] pg].
  eapply (run_bind_count P 1 n).
  - apply (run_guardedSearch P Pneutral env dirname 0); try assumption.
    + intros E. apply Hl. now apply Hbp.
    + now apply Hcp.
  - intros t Ht. cbn [a_headless] in Ht. destruct t as [r|].
    + now apply run_ret.
    + destruct Hretry as [Hc | [Hh | Hr]]; [| | exact Hr].
      * exfalso. apply Ht; auto.
      * exfalso. apply Ht; auto.
Qed.

(** In an environment without block pages [performSearch] is one
    attempt. *)
Lemma run_performSearch_calm (query : string) (limit : Z)
    (stateFile : string) (noSaveState : bool) (locale : string)
    (storageState : option string) (existingBrowser : option Browser)
    (headless : bool) :
  calmEnv env ->
  (existingBrowser = None ->
   forall b, P (EvLaunch headless b) /\ P (EvBrowserClose b)) ->
  saveAllowed P noSaveState ->
  run P 1
    (performSearch devices host env dirname query limit stateFile
       noSaveState locale storageState existingBrowser headless)
    (fun _ => True).
Proof.
  intros Hcalm Hl Hs. unfold performSearch.
  apply run_performSearchBody; try assumption.
  - intros a _. now left.
  - now left.
Qed.

Lemma run_ensureDir (n : nat) (dir : string) :
  P (EvMkdir dir) -> run P n (ensureDir env dir) (fun _ => True).
Proof.
  intros Hm. unfold ensureDir.
  repeat run_step ltac:(first [exact Hm | neutral_side]).
Qed.

Lemma run_htmlOutputPath (n : nat) (query : string)
    (outputPath : option string) :
  P EvNow -> (forall d, P (EvMkdir d)) ->
  run P n (htmlOutputPath env regexReplace query outputPath)
    (fun _ => True).
Proof.
  intros Hnow Hm. unfold htmlOutputPath.
  destruct outputPath as [p|]; [destruct (Js.truthy p) |].
  - now apply run_ret.
  - run_step idtac; [apply run_ensureDir, Hm |].
    repeat run_step ltac:(exact Hnow).
  - run_step idtac; [apply run_ensureDir, Hm |].
    repeat run_step ltac:(exact Hnow).
Qed.

Lemma run_tryBlockHtml (n : nat) (query stateFile : string)
    (noSaveState saveToFile : bool) (outputPath : option string)
    (a : Attempt) :
  saveAllowed P noSaveState -> htmlAllowed P saveToFile ->
  P (EvBrowserClose (a_browser a)) ->
  checkpointsAllowed P env a (escalateHtmlAllowed P a) ->
  run P (S n)
    (tryBlockHtml env dirname regexReplace query stateFile noSaveState
       saveToFile outputPath a)
    (captured (calmEnv env) saveToFile a).
Proof.
  intros Hs Hh Hc Hcp. unfold tryBlockHtml.
  run_step idtac; [now apply run_selectDomain |].
  eapply (run_bind_count P 1 n); [apply run_goto, Pgoto |].
  intros response (t1 & ->).
  eapply run_bind; [apply run_observe; [neutral_side | reflexivity] |].
  intros currentUrl (t2 & ->).
  eapply run_bind.
  { apply run_checkpoint with (E := escalateHtmlAllowed P a);
      [intros Hcalm; apply Hcalm | exact Hcp | apply run_escalateHtml
      | run_step idtac]. }
  intros esc1 (H1 & H1'). destruct esc1 as [t|].
  { apply run_ret. split; [intros H; now specialize (H1 H) |].
    intros r ->. now specialize (H1' _ eq_refl). }
  run_step idtac; [now apply run_submitQuery |].
  eapply run_bind; [apply run_observe; [neutral_side | reflexivity] |].
  intros searchUrl (t3 & ->).
  eapply run_bind.
  { apply run_checkpoint with (E := escalateHtmlAllowed P a);
      [intros Hcalm; eapply calm_after_search, (Hcalm _ _ 0%nat EvRandom)
      | exact Hcp | apply run_escalateHtml
      | repeat run_step neutral_side]. }
  intros esc2 (H2 & H2'). destruct esc2 as [t|].
  { apply run_ret. split; [intros H; now specialize (H2 H) |].
    intros r ->. now specialize (H2' _ eq_refl). }
  run_step idtac; [run_step neutral_side |].
  run_step idtac; [run_step neutral_side |].
  run_step idtac; [run_step neutral_side |].
  run_step idtac; [run_step neutral_side |].
  eapply run_bind with
    (R := fun paths => saveToFile = false -> paths = (None, None)).
  { destruct Hh as [-> | (Hnow & Hm & Hw & Hsc)].
    - now apply run_ret.
    - destruct saveToFile; [|now apply run_ret].
      run_step idtac; [now apply run_htmlOutputPath |].
      run_step idtac; [apply run_ensureDir, Hm |].
      run_step idtac; [run_step ltac:(apply Hw) |].
      run_step idtac; [run_step ltac:(apply Hsc) |].
      apply run_ret. discriminate. }
  intros paths Hpaths.
  run_step idtac; [now apply run_saveState |].
  run_step idtac; [run_step ltac:(exact Hc) |].
  apply run_ret. split; [discriminate |].
  intros r [= <-] Hf. rewrite (Hpaths Hf). now split.
Qed.

Lemma run_guardedHtml (n : nat) (query stateFile : string)
    (noSaveState saveToFile : bool) (outputPath : option string)
    (a : Attempt) :
  saveAllowed P noSaveState -> htmlAllowed P saveToFile ->
  P (EvBrowserClose (a_browser a)) ->
  checkpointsAllowed P env a (escalateHtmlAllowed P a) ->
  run P (S n)
    (guardedHtml env dirname regexReplace query stateFile noSaveState
       saveToFile outputPath a)
    (captured (calmEnv env) saveToFile a).
Proof.
  intros Hs Hh Hc Hcp. unfold guardedHtml. apply run_tryCatch.
  - now apply run_tryBlockHtml.
  - intros e. unfold catchBlockHtml.
    run_step idtac; [now apply (run_saveState P Pneutral) |].
    run_step idtac; [run_step ltac:(exact Hc) |].
    apply run_throw.
Qed.

Lemma run_performSearchAndGetHtmlBody (n : nat) (query stateFile : string)
    (noSaveState : bool) (locale : string) (storageState : option string)
    (saveToFile : bool) (outputPath : option string)
    (retry : M HtmlResponse) (headless : bool) :
  (forall b, P (EvLaunch headless b) /\ P (EvBrowserClose b)) ->
  saveAllowed P noSaveState -> htmlAllowed P saveToFile ->
  (forall a, a_headless a = headless ->
             checkpointsAllowed P env a (escalateHtmlAllowed P a)) ->
  calmEnv env \/ headless = false \/ run P n retry (unsaved saveToFile) ->
  run P (S n)
    (performSearchAndGetHtmlBody devices host env dirname regexReplace query
       stateFile noSaveState locale storageState saveToFile outputPath
       retry headless)
    (unsaved saveToFile).
Proof.
  intros Hl Hs Hh Hcp Hretry. unfold performSearchAndGetHtmlBody.
  run_step idtac; [apply run_launch; intros b; apply Hl |].
  run_step idtac; [now apply run_openPage |].
  destruct x0 as [[opts c] pg].
  eapply (run_bind_count P 1 n).
  - apply (run_guardedHtml 0); try assumption.
    + apply Hl.
    + now apply Hcp.
  - intros t (Ht & Hp). cbn [a_headless] in Ht. destruct t as [r|].
    + apply run_ret. intros Hf. now apply Hp.
    + destruct Hretry as [Hc | [Hh' | Hr]]; [| | exact Hr].
      * exfalso. apply Ht; auto.
      * exfalso. apply Ht; auto.
Qed.

Lemma run_performSearchAndGetHtml_calm (query stateFile : string)
    (noSaveState : bool) (locale : string) (storageState : option string)
    (saveToFile : bool) (outputPath : option string) (headless : bool) :
  calmEnv env ->
  (forall b, P (EvLaunch headless b) /\ P (EvBrowserClose b)) ->
  saveAllowed P noSaveState -> htmlAllowed P saveToFile ->
  run P 1
    (performSearchAndGetHtml devices host env dirname regexReplace query
       stateFile noSaveState locale storageState saveToFile outputPath
       headless)
    (unsaved saveToFile).
Proof.
  intros Hcalm Hl Hs Hh. unfold performSearchAndGetHtml.
  apply run_performSearchAndGetHtmlBody; try assumption.
  - intros a _. now left.
  - now left.
Qed.

End RunEntry.

(** The calls that write no file are all [P] lets through, apart from
    what saving the state and the page need. *)
Section RunAny.

Variable P : Event -> Prop.
Hypothesis Pall : forall ev, writesFile ev = false -> humanPace ev -> P ev.

Variable devices : string -> option DeviceDescriptor.
Variable host : Host.
Variable env : nat -> Event -> Reply.
Variable dirname : string -> string.
Variable regexReplace : string -> string -> string -> string.

Lemma Pall_neutral (ev : Event) : neutral ev = true -> humanPace ev -> P ev.
Proof. intros Hn Hp. apply Pall; [now destruct ev | exact Hp]. Qed.

Lemma Pall_escalate (a : Attempt) : escalateAllowed P a.
Proof.
  unfold escalateAllowed. repeat split; try now apply Pall.
  destruct (browserWasProvided a); [split |]; now apply Pall.
Qed.

Lemma Pall_checkpoints (a : Attempt) (E : Prop) :
  E -> checkpointsAllowed P env a E.
Proof. intros HE. right. destruct (a_headless a); [exact HE | now apply Pall]. Qed.

(** Whatever the environment answers, [performSearch] is one attempt when
    it starts headed, and at most two when it starts headless. *)
Lemma run_performSearch_any (query : string) (limit : Z)
    (stateFile : string) (noSaveState : bool) (locale : string)
    (storageState : option string) (existingBrowser : option Browser)
    (headless : bool) :
  saveAllowed P noSaveState ->
  run P (if headless then 2 else 1)
    (performSearch devices host env dirname query limit stateFile
       noSaveState locale storageState existingBrowser headless)
    (fun _ => True).
Proof.
  intros Hs. unfold performSearch.
  assert (forall h r n,
            calmEnv env \/ h = false \/ run P n r (fun _ => True) ->
            run P (S n)
              (performSearchBody devices host env dirname query limit
                 stateFile noSaveState locale storageState existingBrowser
                 r h) (fun _ => True)) as Hbody.
  { intros h r n Hr.
    apply (run_performSearchBody P Pall_neutral); try assumption.
    - intros pg d. now apply Pall.
    - intros _ b. split; now apply Pall.
    - intros a _. apply Pall_checkpoints, Pall_escalate. }
  destruct headless.
  - apply Hbody. right. right. apply Hbody. right. now left.
  - apply Hbody. right. now left.
Qed.

Lemma run_performSearchAndGetHtml_any (query stateFile : string)
    (noSaveState : bool) (locale : string) (storageState : option string)
    (saveToFile : bool) (outputPath : option string) (headless : bool) :
  saveAllowed P noSaveState -> htmlAllowed P saveToFile ->
  run P (if headless then 2 else 1)
    (performSearchAndGetHtml devices host env dirname regexReplace query
       stateFile noSaveState locale storageState saveToFile outputPath
       headless)
    (unsaved saveToFile).
Proof.
  intros Hs Hh. unfold performSearchAndGetHtml.
  assert (forall h r n,
            calmEnv env \/ h = false \/ run P n r (unsaved saveToFile) ->
            run P (S n)
              (performSearchAndGetHtmlBody devices host env dirname
                 regexReplace query stateFile noSaveState locale
                 storageState saveToFile outputPath r h)
              (unsaved saveToFile)) as Hbody.
  { intros h r n Hr.
    apply (run_performSearchAndGetHtmlBody P Pall_neutral); try assumption.
    - intros pg d. now apply Pall.
    - intros b. split; now apply Pall.
    - intros a _. apply Pall_checkpoints.
      unfold escalateHtmlAllowed. repeat split; now apply Pall. }
  destruct headless.
  - apply Hbody. right. right. apply Hbody. right. now left.
  - apply Hbody. right. now left.
Qed.

End RunAny.

(** X11. A search that is told not to save its state
    ([noSaveState: true]) writes nothing: whatever the environment answers
    and however the run ends, it creates no directory, stores no browser
    state and writes no fingerprint file. *)
Theorem search_without_saving_writes_nothing
    (devices : string -> option DeviceDescriptor) (host : Host)
    (env : nat -> Event -> Reply) (dirname : string -> string)
    (query : string) (options : CommandOptions)
    (existingBrowser : option Browser) :
  noSaveState options = Some true ->
  emits (fun ev => writesFile ev = false)
    (googleSearch devices host env dirname query options existingBrowser)
    (fun _ => True).
Proof.
  intros Hn. apply (run_emits _ 2). unfold googleSearch. rewrite Hn.
  cbn [withDefault].
  apply run_bind_any.
  - apply run_loadState. intros ev Hev _. now destruct ev.
  - intros storageState.
    eapply run_weaken;
      [ apply run_performSearch_any; [intros ev Hev _; exact Hev | now left]
      | destruct (withDefault true (headless options)); lia
      | auto ].
Qed.

Lemma search_without_saving_writes_nothing_witness :
  emits (fun ev => writesFile ev = false)
    (googleSearch Fixture.devices Fixture.host Fixture.envChallenge
       Fixture.dirname "rocq"
       (mkOptions None None None None (Some true) None) None)
    (fun _ => True).
Proof.
  apply (search_without_saving_writes_nothing Fixture.devices Fixture.host
           Fixture.envChallenge Fixture.dirname "rocq"
           (mkOptions None None None None (Some true) None) None).
  reflexivity.
Defined.

(** X12. What a page capture writes follows its arguments: the page and
    the screenshot are written only when [saveToFile] is set, the browser
    state and the fingerprint only when [noSaveState] is not, and a
    directory is created only for one of the two. A capture without
    [saveToFile] returns neither [savedPath] nor [screenshotPath]. *)
Theorem capture_writes_only_on_request
    (devices : string -> option DeviceDescriptor) (host : Host)
    (env : nat -> Event -> Reply) (dirname : string -> string)
    (regexReplace : string -> string -> string -> string)
    (query : string) (options : CommandOptions) (saveToFile : bool)
    (outputPath : option string) :
  emits (captureWrites saveToFile (withDefault false (noSaveState options)))
    (getGoogleSearchPageHtml devices host env dirname regexReplace query
       options saveToFile outputPath)
    (unsaved saveToFile).
Proof.
  apply (run_emits _ 2). unfold getGoogleSearchPageHtml.
  set (ns := withDefault false (noSaveState options)).
  assert (forall ev, writesFile ev = false -> humanPace ev ->
                     captureWrites saveToFile ns ev) as Pall
    by (intros ev Hev _; now destruct ev).
  apply run_bind_any.
  - apply run_loadState. intros ev Hev _. now destruct ev.
  - intros storageState.
    apply (run_performSearchAndGetHtml_any _ Pall) with (headless := true).
    + destruct ns; [now left | right]. repeat split; simpl; auto.
    + destruct saveToFile; [right | now left]. repeat split; simpl; auto.
Qed.

(** X13. A run navigates at most twice: [googleSearch] loads the search
    engine's page once per attempt, and makes at most two attempts when it
    starts headless and one when it starts headed; a page capture, which
    always starts headless, makes at most two. *)
Theorem run_navigates_at_most_twice
    (devices : string -> option DeviceDescriptor) (host : Host)
    (env : nat -> Event -> Reply) (dirname : string -> string)
    (regexReplace : string -> string -> string -> string)
    (query : string) (options : CommandOptions)
    (existingBrowser : option Browser) (saveToFile : bool)
    (outputPath : option string) :
  navigatesAtMost
    (googleSearch devices host env dirname query options existingBrowser)
    (if withDefault true (headless options) then 2 else 1)
  /\ navigatesAtMost
       (getGoogleSearchPageHtml devices host env dirname regexReplace query
          options saveToFile outputPath) 2.
Proof.
  assert (forall b, saveAllowed (fun _ => True) b) as Hs
    by (intros b; right; auto).
  split.
  - apply (run_navigatesAtMost (fun _ => True) _ _ (fun _ => True)).
    unfold googleSearch. apply run_bind_any; [now apply run_loadState |].
    intros storageState. now apply run_performSearch_any.
  - apply (run_navigatesAtMost (fun _ => True) _ _ (unsaved saveToFile)).
    unfold getGoogleSearchPageHtml.
    apply run_bind_any; [now apply run_loadState |].
    intros storageState.
    apply (run_performSearchAndGetHtml_any (fun _ => True))
      with (headless := true); auto.
    right. auto.
Qed.

(** X14. In an environment that never shows a block page, a run is a
    single attempt: it navigates once at most, closes no page and no
    context, and waits for no user. [googleSearch] launches a browser (in
    the mode of its [headless] option) and closes a browser only when the
    caller gave none: with a browser of the caller, the context and the
    page it created stay open in that browser. A page capture launches
    headless. *)
Theorem calm_run_is_one_attempt
    (devices : string -> option DeviceDescriptor) (host : Host)
    (env : nat -> Event -> Reply) (dirname : string -> string)
    (regexReplace : string -> string -> string -> string)
    (query : string) (options : CommandOptions)
    (existingBrowser : option Browser) (saveToFile : bool)
    (outputPath : option string) :
  calmEnv env ->
  emits (singleAttempt (withDefault true (headless options)) existingBrowser)
    (googleSearch devices host env dirname query options existingBrowser)
    (fun _ => True)
  /\ navigatesAtMost
       (googleSearch devices host env dirname query options existingBrowser)
       1
  /\ emits (singleAttempt true None)
       (getGoogleSearchPageHtml devices host env dirname regexReplace query
          options saveToFile outputPath)
       (fun _ => True)
  /\ navigatesAtMost
       (getGoogleSearchPageHtml devices host env dirname regexReplace query
          options saveToFile outputPath)
       1.
Proof.
  intros Hcalm.
  assert (forall h eb ev, neutral ev = true -> humanPace ev ->
                          singleAttempt h eb ev) as Pn
    by (intros h eb ev Hev _; now destruct ev).
  assert (forall h eb b, saveAllowed (singleAttempt h eb) b) as Hs
    by (intros h eb b; right; simpl; auto).
  assert (run (singleAttempt (withDefault true (headless options))
                 existingBrowser) 1
            (googleSearch devices host env dirname query options
               existingBrowser) (fun _ => True)) as Hsearch.
  { unfold googleSearch. apply run_bind_any; [apply run_loadState, Pn |].
    intros storageState. apply run_performSearch_calm; auto.
    - now intros pg d.
    - intros E b. simpl. auto. }
  assert (run (singleAttempt true None) 1
            (getGoogleSearchPageHtml devices host env dirname regexReplace
               query options saveToFile outputPath) (fun _ => True))
    as Hcapture.
  { unfold getGoogleSearchPageHtml.
    apply run_bind_any; [apply run_loadState, Pn |].
    intros storageState.
    eapply run_weaken;
      [ apply run_performSearchAndGetHtml_calm; auto | apply Nat.le_refl
      | auto ].
    - now intros pg d.
    - intros b. simpl. auto.
    - right. simpl. auto. }
  split; [exact (run_emits _ _ _ _ Hsearch) |].
  split; [exact (run_navigatesAtMost _ _ _ _ Hsearch) |].
  split; [exact (run_emits _ _ _ _ Hcapture) |].
  exact (run_navigatesAtMost _ _ _ _ Hcapture).
Qed.

Lemma calm_run_is_one_attempt_witness :
  emits (singleAttempt true (Some 0%nat))
    (googleSearch Fixture.devices Fixture.host Fixture.envCalm
       Fixture.dirname "rocq" Fixture.noOptions (Some 0%nat))
    (fun _ => True)
  /\ navigatesAtMost
       (googleSearch Fixture.devices Fixture.host Fixture.envCalm
          Fixture.dirname "rocq" Fixture.noOptions (Some 0%nat))
       1
  /\ emits (singleAttempt true None)
       (getGoogleSearchPageHtml Fixture.devices Fixture.host Fixture.envCalm
          Fixture.dirname Fixture.regexReplace "rocq" Fixture.noOptions
          false None)
       (fun _ => True)
  /\ navigatesAtMost
       (getGoogleSearchPageHtml Fixture.devices Fixture.host Fixture.envCalm
          Fixture.dirname Fixture.regexReplace "rocq" Fixture.noOptions
          false None)
       1.
Proof.
  apply (calm_run_is_one_attempt Fixture.devices Fixture.host
           Fixture.envCalm Fixture.dirname Fixture.regexReplace "rocq"
           Fixture.noOptions (Some 0%nat) false None).
  intros t ev t' ev'. reflexivity.
Defined.

(** X15. Every run keeps the pace the code gives it: the keys of the
    query are typed with a delay of 10 to 30 ms, and each pause lasts 100
    to 500 ms or, before a page is captured, one second. *)
Theorem run_keeps_human_pace
    (devices : string -> option DeviceDescriptor) (host : Host)
    (env : nat -> Event -> Reply) (dirname : string -> string)
    (regexReplace : string -> string -> string -> string)
    (query : string) (options : CommandOptions)
    (existingBrowser : option Browser) (saveToFile : bool)
    (outputPath : option string) :
  emits humanPace
    (googleSearch devices host env dirname query options existingBrowser)
    (fun _ => True)
  /\ emits humanPace
       (getGoogleSearchPageHtml devices host env dirname regexReplace query
          options saveToFile outputPath)
       (fun _ => True).
Proof.
  assert (forall ev, writesFile ev = false -> humanPace ev -> humanPace ev)
    as Pall by auto.
  assert (forall ev, neutral ev = true -> humanPace ev -> humanPace ev)
    as Pn by auto.
  assert (forall b, saveAllowed humanPace b) as Hs
    by (intros b; right; simpl; auto).
  split.
  - apply (run_emits _ 2). unfold googleSearch.
    apply run_bind_any; [apply run_loadState, Pn |].
    intros storageState.
    eapply run_weaken;
      [ apply run_performSearch_any; auto
      | destruct (withDefault true (headless options)); lia
      | auto ].
  - apply (run_emits _ 2). unfold getGoogleSearchPageHtml.
    apply run_bind_any; [apply run_loadState, Pn |].
    intros storageState.
    eapply run_weaken;
      [ apply (run_performSearchAndGetHtml_any _ Pall)
          with (headless := true); auto
      | apply Nat.le_refl | auto ].
    right. simpl. auto.
Qed.

(** ** The Google domain of a run *)

Lemma pick_in (l : list string) (r : nat) : l <> [] -> pick l r ∈ l.
Proof.
  intros Hl. unfold pick. apply list_elem_of_In, nth_In.
  apply Nat.mod_upper_bound. now destruct l.
Qed.

Lemma selectDomain_saved (env : nat -> Event -> Reply) (w : World)
    (d : string) :
  googleDomain (savedState w) = Some d -> Js.truthy d = true ->
  selectDomain env w = (Ok d, w).
Proof.
  intros Hd Ht. unfold selectDomain, bind, getSaved. simpl.
  now rewrite Hd, Ht.
Qed.

(** X16. The Google domain is settled by the first attempt that needs it:
    [selectDomain] never fails; it returns the saved domain without a
    random draw when there is one, and otherwise draws one of the four
    domains of [googleDomains] and saves it; the fingerprint is left as it
    is, and every later selection of the run returns the same domain. *)
Theorem domain_settled_after_first_selection
    (env : nat -> Event -> Reply) (w : World) :
  exists d w',
    selectDomain env w = (Ok d, w')
    /\ googleDomain (savedState w') = Some d
    /\ fingerprint (savedState w') = fingerprint (savedState w)
    /\ Js.truthy d = true
    /\ ((googleDomain (savedState w) = Some d /\ w' = w)
        \/ (d ∈ googleDomains /\ trace w' = trace w ++ [EvRandom]))
    /\ selectDomain env w' = (Ok d, w').
Proof.
  assert (forall r, Js.truthy (pick googleDomains r) = true) as Htruthy.
  { intros r. pose proof (pick_in googleDomains r) as Hin.
    specialize (Hin ltac:(discriminate)).
    remember (pick googleDomains r) as d eqn:Hd. clear Hd.
    unfold googleDomains in Hin.
    repeat (apply elem_of_cons in Hin as [-> | Hin]; [reflexivity |]).
    now apply elem_of_nil in Hin. }
  destruct (googleDomain (savedState w)) as [d0|] eqn:E;
    [destruct (Js.truthy d0) eqn:T |].
  - exists d0, w.
    pose proof (selectDomain_saved env w d0 E T) as Hsel.
    repeat split; auto.
  - eexists _, _. split.
    { unfold selectDomain, bind, getSaved, observe, setSaved, ret.
      simpl. rewrite E, T. reflexivity. }
    simpl. split; [reflexivity |]. split; [reflexivity |].
    split; [apply Htruthy |].
    split; [right; split; [apply pick_in; discriminate | reflexivity] |].
    apply selectDomain_saved; [reflexivity | apply Htruthy].
  - eexists _, _. split.
    { unfold selectDomain, bind, getSaved, observe, setSaved, ret.
      simpl. rewrite E. reflexivity. }
    simpl. split; [reflexivity |]. split; [reflexivity |].
    split; [apply Htruthy |].
    split; [right; split; [apply pick_in; discriminate | reflexivity] |].
    apply selectDomain_saved; [reflexivity | apply Htruthy].
Qed.

(** ** The two selector loops *)

(** X17. The wait for the results tries the selectors of its list in
    order and never rejects: a selector that times out moves the loop to
    the next one, the first one that appears ends it with [true], and
    [false] is returned only after every selector has timed out. *)
Theorem waitForResults_stops_at_first_hit
    (env : nat -> Event -> Reply) (page : Page) (selectors : list string)
    (w : World) :
  exists k found,
    waitForResults env page selectors w
    = (Ok found,
       mkWorld (tick w + k) (nextId w)
         (trace w ++ (EvWaitForSelector page <$> take k selectors))
         (savedState w))
    /\ (k <= length selectors)%nat
    /\ (if found then (1 <= k)%nat else k = length selectors)
    /\ forall i s, selectors !! i = Some s -> (i < k)%nat ->
         (throws (env (tick w + i)%nat (EvWaitForSelector page s)) = None
          <-> found = true /\ S i = k).
Proof.
  revert w. induction selectors as [|s l IH]; intros w.
  - exists 0%nat, false. destruct w as [t n tr sv]. simpl.
    rewrite Nat.add_0_r, app_nil_r.
    repeat split; try reflexivity; try lia; intros; try lia; easy.
  - cbn [waitForResults]. unfold bind at 1, tryCatch, bind at 1, call.
    destruct (throws (env (tick w) (EvWaitForSelector page s))) as [e|] eqn:E.
    + cbn [ret]. destruct (IH (record (EvWaitForSelector page s) w))
        as (k & found & Hrun & Hk & Hfound & Hidx).
      exists (S k), found. rewrite Hrun. cbn [record tick nextId trace savedState].
      split.
      { f_equal. f_equal; [lia |]. cbn [take fmap list_fmap].
        now rewrite <- app_assoc. }
      split; [simpl; lia |].
      split; [destruct found; simpl; lia |].
      intros i s' Hi Hlt. destruct i as [|i].
      * injection Hi as <-. rewrite Nat.add_0_r, E.
        split; [discriminate | intros [-> H]; lia].
      * specialize (Hidx i s' Hi ltac:(lia)).
        cbn [record tick] in Hidx.
        replace (tick w + S i)%nat with (S (tick w) + i)%nat by lia.
        rewrite Hidx. split; intros [H1 H2]; split; auto; lia.
    + cbn [ret]. exists 1%nat, true.
      split; [unfold ret, record; simpl; f_equal; f_equal; lia |].
      split; [simpl; lia |]. split; [lia |].
      intros i s' Hi Hlt. assert (i = 0%nat) as -> by lia.
      injection Hi as <-. rewrite Nat.add_0_r, E. easy.
Qed.

(** X18. The search box is looked for with the selectors of its list in
    order: each selector before the last one tried was answered without
    an error and without an element; the loop stops at the first selector
    that finds an element, or at the first query that fails, whose error
    it passes on; it returns without a search box only after every
    selector was tried. *)
Theorem findSearchInput_stops_at_first_hit
    (env : nat -> Event -> Reply) (page : Page) (selectors : list string)
    (w : World) :
  exists k,
    snd (findSearchInput env page selectors w)
    = mkWorld (tick w + k) (nextId w)
        (trace w ++ (EvQuerySelector page <$> take k selectors))
        (savedState w)
    /\ (k <= length selectors)%nat
    /\ match fst (findSearchInput env page selectors w) with
       | Ok false => k = length selectors
       | _ => (1 <= k)%nat
       end
    /\ forall i s, selectors !! i = Some s -> (i < k)%nat ->
         let r := env (tick w + i)%nat (EvQuerySelector page s) in
         if (S i <? k)%nat then throws r = None /\ r_found r = false
         else match fst (findSearchInput env page selectors w) with
              | Ok found => throws r = None /\ r_found r = found
              | Throw e => throws r = Some e
              end.
Proof.
  revert w. induction selectors as [|s l IH]; intros w.
  - exists 0%nat. destruct w as [t n tr sv]. simpl.
    rewrite Nat.add_0_r, app_nil_r.
    repeat split; try reflexivity; try lia; intros; lia.
  - assert (findSearchInput env page (s :: l) w
            = match throws (env (tick w) (EvQuerySelector page s)) with
              | Some e => (Throw e, record (EvQuerySelector page s) w)
              | None =>
                  if r_found (env (tick w) (EvQuerySelector page s))
                  then (Ok true, record (EvQuerySelector page s) w)
                  else findSearchInput env page l
                         (record (EvQuerySelector page s) w)
              end) as Heq.
    { cbn [findSearchInput]. unfold bind, call.
      destruct (throws (env (tick w) (EvQuerySelector page s)));
        [reflexivity |].
      now destruct (r_found (env (tick w) (EvQuerySelector page s))). }
    rewrite Heq. clear Heq.
    destruct (throws (env (tick w) (EvQuerySelector page s))) as [e|] eqn:E;
      [|destruct (r_found (env (tick w) (EvQuerySelector page s))) eqn:F].
    + exists 1%nat. cbn [fst snd].
      split; [unfold record; simpl; f_equal; lia |].
      split; [simpl; lia |]. split; [lia |].
      intros i s' Hi Hlt. assert (i = 0%nat) as -> by lia.
      injection Hi as <-. rewrite Nat.add_0_r. simpl. exact E.
    + exists 1%nat. cbn [fst snd].
      split; [unfold record; simpl; f_equal; lia |].
      split; [simpl; lia |]. split; [lia |].
      intros i s' Hi Hlt. assert (i = 0%nat) as -> by lia.
      injection Hi as <-. rewrite Nat.add_0_r. simpl. auto.
    + destruct (IH (record (EvQuerySelector page s) w))
        as (k & Hrun & Hk & Hres & Hidx).
      exists (S k). rewrite Hrun.
      cbn [record tick nextId trace savedState].
      split.
      { f_equal; [lia |]. cbn [take fmap list_fmap].
        now rewrite <- app_assoc. }
      split; [simpl; lia |].
      split.
      { destruct (fst (findSearchInput env page l
                         (record (EvQuerySelector page s) w)))
          as [[]|]; simpl; lia. }
      intros i s' Hi Hlt. destruct i as [|i].
      * injection Hi as <-. rewrite Nat.add_0_r.
        destruct (S 0 <? S k)%nat eqn:L.
        { cbn zeta. auto. }
        apply Nat.ltb_ge in L. assert (k = 0%nat) as -> by lia.
        cbn zeta. 
        destruct (fst (findSearchInput env page l
                         (record (EvQuerySelector page s) w)))
          as [[]|]; simpl in Hres; try lia.
        destruct l; [auto | discriminate].
      * specialize (Hidx i s' Hi ltac:(lia)).
        cbn [record tick] in Hidx. cbn zeta in *.
        replace (tick w + S i)%nat with (S (tick w) + i)%nat by lia.
        replace (S (S i) <? S k)%nat with (S i <? k)%nat by reflexivity.
        exact Hidx.
Qed.

(** ** Failures before the [try] statement *)

Lemma launch_outcome (env : nat -> Event -> Reply) (headless : bool)
    (w : World) (b : Browser) (w1 : World) :
  launch env headless w = (Ok b, w1) ->
  b = nextId w /\ trace w1 = trace w ++ [EvLaunch headless b].
Proof.
  unfold launch, bind, fresh, call, ret. simpl.
  destruct (throws (env (tick w) (EvLaunch headless (nextId w))));
    [discriminate |].
  intros [= <- <-]. now split.
Qed.

Lemma openPage_closes_nothing
    (devices : string -> option DeviceDescriptor) (host : Host)
    (env : nat -> Event -> Reply) (locale : string)
    (storageState : option string) (b : Browser) (w : World) :
  exists evs,
    trace (snd (openPage devices host env locale storageState b w))
    = trace w ++ evs
    /\ forall x, EvBrowserClose x ∉ evs.
Proof.
  destruct (run_openPage (fun ev => forall x, ev <> EvBrowserClose x)
              (fun ev Hev _ x => ltac:(now destruct ev))
              devices host env 0 locale storageState b w)
    as (evs & Ht & Hall & _).
  exists evs. split; [exact Ht |].
  intros x Hin. rewrite Forall_forall in Hall. exact (Hall _ Hin x eq_refl).
Qed.

(** X19. An error in creating the browser context or the page is raised
    before the [try] statement: the run rejects with that very error
    (a search returns no mock result, a page capture does not wrap the
    message), and the browser that the run launched is not closed. *)
Theorem setup_failure_leaves_browser_open
    (devices : string -> option DeviceDescriptor) (host : Host)
    (env : nat -> Event -> Reply) (dirname : string -> string)
    (regexReplace : string -> string -> string -> string)
    (query : string) (limit : Z) (stateFile : string) (noSaveState : bool)
    (locale : string) (storageState : option string) (saveToFile : bool)
    (outputPath : option string) (headless : bool)
    (w : World) (b : Browser) (w1 : World) (e : string) (w2 : World) :
  launch env headless w = (Ok b, w1) ->
  openPage devices host env locale storageState b w1 = (Throw e, w2) ->
  performSearch devices host env dirname query limit stateFile noSaveState
    locale storageState None headless w = (Throw e, w2)
  /\ performSearchAndGetHtml devices host env dirname regexReplace query
       stateFile noSaveState locale storageState saveToFile outputPath
       headless w = (Throw e, w2)
  /\ exists evs,
       trace w2 = trace w ++ EvLaunch headless b :: evs
       /\ forall x, EvBrowserClose x ∉ evs.
Proof.
  intros Hl Ho. split; [|split].
  - unfold performSearch, performSearchBody, acquireBrowser, runAttempt.
    unfold bind, ret. rewrite Hl. cbv beta iota. now rewrite Ho.
  - unfold performSearchAndGetHtml, performSearchAndGetHtmlBody.
    unfold bind, ret. rewrite Hl. cbv beta iota. now rewrite Ho.
  - destruct (launch_outcome env headless w b w1 Hl) as (_ & Ht1).
    destruct (openPage_closes_nothing devices host env locale storageState
                b w1) as (evs & Ht2 & Hno).
    rewrite Ho in Ht2. simpl in Ht2. exists evs.
    split; [|exact Hno]. rewrite Ht2, Ht1. now rewrite <- app_assoc.
Qed.

Lemma setup_failure_leaves_browser_open_witness :
  let w := startWorld 1 in
  let w1 := snd (launch envNoContext true w) in
  let w2 := snd (openPage Fixture.devices Fixture.host envNoContext "en-US"
                   None 1%nat w1) in
  performSearch Fixture.devices Fixture.host envNoContext Fixture.dirname
    "rocq" 10 "./browser-state.json" false "en-US" None None true w
  = (Throw "Target closed", w2)
  /\ performSearchAndGetHtml Fixture.devices Fixture.host envNoContext
       Fixture.dirname Fixture.regexReplace "rocq" "./browser-state.json"
       false "en-US" None false None true w
     = (Throw "Target closed", w2)
  /\ exists evs,
       trace w2 = trace w ++ EvLaunch true 1%nat :: evs
       /\ forall x, EvBrowserClose x ∉ evs.
Proof.
  apply (setup_failure_leaves_browser_open Fixture.devices Fixture.host
           envNoContext Fixture.dirname Fixture.regexReplace "rocq" 10
           "./browser-state.json" false "en-US" None false None true
           (startWorld 1) 1%nat
           (snd (launch envNoContext true (startWorld 1)))
           "Target closed").
  - vm_compute. reflexivity.
  - vm_compute. reflexivity.
Defined.

(** ** The handler of the MCP tool *)

(** X20. The handler of the tool [google-search] never rejects, and does
    not close the global browser it searches with. When [googleSearch]
    rejects with an error, the result is the error result with the text
    [Search failed: ] and the message; when it returns, the text is the
    JSON of the response, preceded by the warning and an empty line exactly
    when the state file did not exist before the search. *)
Theorem search_tool_never_rejects
    (devices : string -> option DeviceDescriptor) (host : Host)
    (env : nat -> Event -> Reply) (dirname : string -> string)
    (stringify : SearchResponse -> string) (stateFilePath : string)
    (b : Browser) (query : string) (limit timeout : option Z) (w : World) :
  (b < nextId w)%nat ->
  exists r w' evs,
    searchTool devices host env dirname stringify stateFilePath (Some b)
      query limit timeout w = (Ok r, w')
    /\ trace w' = trace w ++ evs
    /\ (EvBrowserClose b ∉ evs)
    /\ match fst (googleSearch devices host env dirname query
                    (mkOptions limit timeout None (Some stateFilePath) None
                       None)
                    (Some b) (record (EvExistsSync stateFilePath) w)) with
       | Ok results =>
           isError r = false
           /\ text r
              = (if r_exists (env (tick w) (EvExistsSync stateFilePath))
                 then EmptyString
                 else stateFileWarning +:+ newline +:+ newline)
                +:+ stringify results
       | Throw error =>
           isError r = true /\ text r = "Search failed: " +:+ error
       end.
Proof.
  intros Hb. unfold searchTool, tryCatch, bind at 1, observe.
  set (w1 := record (EvExistsSync stateFilePath) w).
  set (options := mkOptions limit timeout None (Some stateFilePath) None None).
  destruct (keeps_googleSearch devices host env dirname (nextId w) query
              options (Some b) w1 (le_n _)) as (evs & Ht & _ & Hall & _).
  unfold bind.
  destruct (googleSearch devices host env dirname query options (Some b) w1)
    as [[results|error] w2]; simpl in Ht |- *.
  - eexists _, _, (EvExistsSync stateFilePath :: evs).
    split; [reflexivity |].
    split; [rewrite Ht; now rewrite <- app_assoc |].
    split.
    + intros Hin. apply elem_of_cons in Hin as [Hin | Hin];
        [discriminate |].
      rewrite Forall_forall in Hall. specialize (Hall _ Hin b eq_refl). lia.
    + split; [reflexivity |].
      destruct (r_exists (env (tick w) (EvExistsSync stateFilePath)));
        reflexivity.
  - eexists _, _, (EvExistsSync stateFilePath :: evs).
    split; [reflexivity |].
    split; [rewrite Ht; now rewrite <- app_assoc |].
    split.
    + intros Hin. apply elem_of_cons in Hin as [Hin | Hin];
        [discriminate |].
      rewrite Forall_forall in Hall. specialize (Hall _ Hin b eq_refl). lia.
    + now split.
Qed.

Lemma search_tool_never_rejects_witness :
  exists r w' evs,
    searchTool Fixture.devices Fixture.host Fixture.envNoSearchBox
      Fixture.dirname (fun r => query r) "/home/user/.state.json"
      (Some 0%nat) "rocq" None None (startWorld 1) = (Ok r, w')
    /\ trace w' = trace (startWorld 1) ++ evs
    /\ (EvBrowserClose 0%nat ∉ evs)
    /\ match fst (googleSearch Fixture.devices Fixture.host
                    Fixture.envNoSearchBox Fixture.dirname "rocq"
                    (mkOptions None None None (Some "/home/user/.state.json")
                       None None)
                    (Some 0%nat)
                    (record (EvExistsSync "/home/user/.state.json")
                       (startWorld 1))) with
       | Ok results =>
           isError r = false
           /\ text r
              = (if r_exists (Fixture.envNoSearchBox (tick (startWorld 1))
                                (EvExistsSync "/home/user/.state.json"))
                 then EmptyString
                 else stateFileWarning +:+ newline +:+ newline)
                +:+ query results
       | Throw error =>
           isError r = true /\ text r = "Search failed: " +:+ error
       end.
Proof.
  apply (search_tool_never_rejects Fixture.devices Fixture.host
           Fixture.envNoSearchBox Fixture.dirname (fun r => query r)
           "/home/user/.state.json" 0%nat "rocq" None None (startWorld 1)).
  simpl. lia.
Defined.

(** ** The first launch of a page capture *)

Lemma launch_first {A : Type} (env : nat -> Event -> Reply) (headless : bool)
    (k : Browser -> M A) (w : World) :
  (forall b, emits (fun _ => True) (k b) (fun _ => True)) ->
  exists rest,
    trace (snd (bind (launch env headless) k w))
    = trace w ++ EvLaunch headless (nextId w) :: rest.
Proof.
  intros Hk. unfold launch, bind, fresh, call, ret. simpl.
  destruct (throws (env (tick w) (EvLaunch headless (nextId w)))).
  - exists []. reflexivity.
  - match goal with
    | |- context [k ?b ?w1] => destruct (Hk b w1) as (evs & Ht & _)
    end.
    exists evs. rewrite Ht. simpl. now rewrite <- app_assoc.
Qed.

(** X22. A page capture ignores the [headless] option: whatever the
    options and the environment, the first browser that
    [getGoogleSearchPageHtml] launches is launched headless, and nothing is
    launched while the state is loaded before. *)
Theorem capture_always_starts_headless
    (devices : string -> option DeviceDescriptor) (host : Host)
    (env : nat -> Event -> Reply) (dirname : string -> string)
    (regexReplace : string -> string -> string -> string)
    (query : string) (options : CommandOptions) (saveToFile : bool)
    (outputPath : option string) (w : World) :
  exists pre rest,
    trace (snd (getGoogleSearchPageHtml devices host env dirname
                  regexReplace query options saveToFile outputPath w))
    = trace w ++ pre ++ EvLaunch true (nextId w) :: rest
    /\ forall h b, EvLaunch h b ∉ pre.
Proof.
  unfold getGoogleSearchPageHtml.
  set (stateFile := withDefault "./browser-state.json" (stateFile options)).
  set (ns := withDefault false (noSaveState options)).
  set (locale := withDefault "en-US" (locale options)).
  destruct (loadState_outcome env stateFile w)
    as (pre & ss & w' & Hload & Ht & Hn & Hno).
  exists pre. unfold bind at 1. rewrite Hload.
  unfold performSearchAndGetHtml.
  unfold performSearchAndGetHtmlBody at 1.
  match goal with
  | |- context [bind (launch env true) ?k w'] =>
      destruct (launch_first env true k w') as (rest & Hrest)
  end.
  - intros b.
    assert (forall ev : Event, neutral ev = true -> humanPace ev -> True)
      as Pn by auto.
    assert (forall ev : Event, writesFile ev = false -> humanPace ev -> True)
      as Pall by auto.
    assert (saveAllowed (fun _ => True) ns) as Hs by (right; auto).
    assert (htmlAllowed (fun _ => True) saveToFile) as Hh by (right; auto).
    apply (run_emits _ 2).
    apply run_bind_any; [now apply run_openPage |].
    intros [[opts c] pg].
    eapply (run_bind_count _ 1 1).
    + apply (run_guardedHtml (fun _ => True) Pn (fun _ _ => I) env dirname
               regexReplace 0); auto.
      apply Pall_checkpoints; [auto |].
      unfold escalateHtmlAllowed. auto.
    + intros [r|] _; [now apply run_ret |].
      eapply run_weaken;
        [ apply (run_performSearchAndGetHtmlBody (fun _ => True) Pn
                   (fun _ _ => I) devices host env dirname regexReplace 0)
        | apply Nat.le_refl | auto ]; auto.
      intros a _. apply Pall_checkpoints; [auto |].
      unfold escalateHtmlAllowed. auto.
  - exists rest. rewrite Hrest, Ht, Hn. split; [|exact Hno].
    now rewrite <- app_assoc.
Qed.

(** ** The pages and contexts a run closes (C4) *)

Lemma derivedFrom_keepsOpen (b : Browser) (n : nat) (evs : list Event) :
  Forall keepsOpen evs -> derivedFrom b n evs.
Proof.
  intros Hall. rewrite Forall_forall in Hall.
  split; intros x Hin; destruct (Hall _ Hin).
Qed.

Lemma derivedFrom_app (b : Browser) (n n' : nat) (evs1 evs2 : list Event) :
  derivedFrom b n evs1 -> derivedFrom b n' evs2 -> (n <= n')%nat ->
  derivedFrom b n (evs1 ++ evs2).
Proof.
  intros (Hc1 & Hp1) (Hc2 & Hp2) Hn. split.
  - intros c Hin. apply elem_of_app in Hin as [Hin | Hin].
    + destruct (Hc1 c Hin) as (Hle & opts & ss & Hnew).
      split; [exact Hle |]. exists opts, ss. apply elem_of_app. now left.
    + destruct (Hc2 c Hin) as (Hle & opts & ss & Hnew).
      split; [lia |]. exists opts, ss. apply elem_of_app. now right.
  - intros p Hin. apply elem_of_app in Hin as [Hin | Hin].
    + destruct (Hp1 p Hin) as (Hle & c & opts & ss & Hpg & Hnew).
      split; [exact Hle |]. exists c, opts, ss.
      split; apply elem_of_app; now left.
    + destruct (Hp2 p Hin) as (Hle & c & opts & ss & Hpg & Hnew).
      split; [lia |]. exists c, opts, ss.
      split; apply elem_of_app; now right.
Qed.

(** The events of an attempt: the page is opened, then the [try]
    statement closes nothing but the page and the context of the
    attempt. *)
Lemma derivedFrom_attempt (b : Browser) (n : nat) (a : Attempt)
    (opts : ContextOptions) (ss : option string) (evs1 evs2 : list Event) :
  Forall keepsOpen evs1 -> Forall (closesOnly a) evs2 ->
  (n <= a_context a)%nat -> (n <= a_page a)%nat ->
  EvNewContext b opts ss (a_context a) ∈ evs1 ->
  EvNewPage (a_context a) (a_page a) ∈ evs1 ->
  derivedFrom b n (evs1 ++ evs2).
Proof.
  intros H1 H2 Hc Hp Hnew Hpg.
  rewrite Forall_forall in H1. rewrite Forall_forall in H2. split.
  - intros c Hin. apply elem_of_app in Hin as [Hin | Hin];
      [destruct (H1 _ Hin) |].
    specialize (H2 _ Hin). simpl in H2. subst c.
    split; [exact Hc |]. exists opts, ss. apply elem_of_app. now left.
  - intros p Hin. apply elem_of_app in Hin as [Hin | Hin];
      [destruct (H1 _ Hin) |].
    specialize (H2 _ Hin). simpl in H2. subst p.
    split; [exact Hp |]. exists (a_context a), opts, ss.
    split; apply elem_of_app; now left.
Qed.

(** Opening the page closes nothing; the context it returns was created on
    the browser it was given, and the page in that context, both under new
    handles. *)
Lemma openPage_creates
    (devices : string -> option DeviceDescriptor) (host : Host)
    (env : nat -> Event -> Reply) (locale : string)
    (storageState : option string) (b : Browser) (w : World) :
  exists evs,
    trace (snd (openPage devices host env locale storageState b w))
    = trace w ++ evs
    /\ Forall keepsOpen evs
    /\ (nextId w <= nextId (snd (openPage devices host env locale
                                   storageState b w)))%nat
    /\ match fst (openPage devices host env locale storageState b w) with
       | Ok (opts, c, pg) =>
           (nextId w <= c)%nat /\ (nextId w <= pg)%nat
           /\ EvNewContext b opts storageState c ∈ evs
           /\ EvNewPage c pg ∈ evs
       | Throw _ => True
       end.
Proof.
  unfold openPage, bind, getSaved, setSaved, fresh, call, observe, ret.
  cbn [fst snd savedState].
  destruct (usesSavedDevice devices (savedState w));
    cbn [fst snd];
    match goal with
    | |- context [resolveFingerprint ?d ?h ?l ?s ?r] =>
        destruct (resolveFingerprint d h l s r) as [[dn opts] s']
    end;
    cbn [record tick nextId trace savedState fst snd];
    repeat (match goal with
            | |- context [throws (env ?t ?ev)] => destruct (throws (env t ev))
            end;
            cbn [record tick nextId trace savedState fst snd]).
  all: eexists; (split; [rewrite <- ?app_assoc; reflexivity |]); cbn [app].
  all: split; [repeat constructor |].
  all: split; [lia |]; try exact I.
  all: split; [lia |]; split; [lia |].
  all: split; apply list_elem_of_In; simpl; auto 10.
Qed.

Section ControllerTidy.

Variable devices : string -> option DeviceDescriptor.
Variable host : Host.
Variable env : nat -> Event -> Reply.
Variable dirname : string -> string.
Variable query : string.
Variable limit : Z.
Variable stateFile : string.
Variable noSaveState : bool.
Variable locale : string.
Variable storageState : option string.
Variable b : Browser.

(** The [try] statement of an attempt closes no page but the page of the
    attempt and no context but its context, and allocates upwards. *)
Lemma guardedSearch_closes_own (a : Attempt) (w : World) :
  browserWasProvided a = true ->
  exists evs,
    trace (snd (guardedSearch env dirname query limit stateFile noSaveState
                  a w)) = trace w ++ evs
    /\ Forall (closesOnly a) evs
    /\ (nextId w
        <= nextId (snd (guardedSearch env dirname query limit stateFile
                          noSaveState a w)))%nat.
Proof.
  intros Hp.
  assert (forall ev, neutral ev = true -> humanPace ev -> closesOnly a ev)
    as Pn by (intros ev Hev _; now destruct ev).
  destruct (run_guardedSearch (closesOnly a) Pn env dirname 0 query limit
              stateFile noSaveState a) with (w := w)
    as (evs & Ht & Hall & _).
  - now intros pg d.
  - right. simpl. auto.
  - now intros _.
  - right. destruct (a_headless a); simpl; [|exact I].
    unfold escalateAllowed. simpl. rewrite Hp. auto.
  - exists evs. split; [exact Ht |]. split; [exact Hall |].
    assert (keeps (nextId w)
              (guardedSearch env dirname query limit stateFile noSaveState a)
              (fun _ => True)) as Hk.
    { unfold guardedSearch. apply keeps_tryCatch.
      - apply keeps_tryBlock. intros E. congruence.
      - intros e. apply keeps_catchBlock. intros E. congruence. }
    destruct (Hk w (le_n _)) as (_ & _ & Hn & _). exact Hn.
Qed.

Lemma body_with_browser (retry : M SearchResponse) (headless : bool)
    (w : World) :
  performSearchBody devices host env dirname query limit stateFile
    noSaveState locale storageState (Some b) retry headless w
  = match openPage devices host env locale storageState b w with
    | (Ok (opts, c, pg), w1) =>
        match guardedSearch env dirname query limit stateFile noSaveState
                (mkAttempt b true c pg opts headless) w1 with
        | (Ok (Done r), w2) => (Ok r, w2)
        | (Ok Retry, w2) => retry w2
        | (Throw e, w2) => (Throw e, w2)
        end
    | (Throw e, w1) => (Throw e, w1)
    end.
Proof.
  unfold performSearchBody, acquireBrowser, runAttempt, bind, ret.
  destruct (openPage devices host env locale storageState b w)
    as [[[[opts c] pg]|e] w1]; [|reflexivity].
  destruct (guardedSearch env dirname query limit stateFile noSaveState
              (mkAttempt b true c pg opts headless) w1)
    as [[[r|]|e] w2]; reflexivity.
Qed.

Lemma tidy_performSearchBody (retry : M SearchResponse) (headless : bool) :
  tidy b retry ->
  tidy b (performSearchBody devices host env dirname query limit stateFile
            noSaveState locale storageState (Some b) retry headless).
Proof.
  intros Hretry w. rewrite body_with_browser.
  destruct (openPage_creates devices host env locale storageState b w)
    as (evs1 & Ht1 & Hopen & Hn1 & Hres).
  destruct (openPage devices host env locale storageState b w)
    as [[[[opts c] pg]|e] w1]; cbn [fst snd] in *.
  2:{ exists evs1. split; [exact Ht1 |]. split; [exact Hn1 |].
      now apply derivedFrom_keepsOpen. }
  destruct Hres as (Hc & Hpg & Hnew & Hnewpg).
  set (a := mkAttempt b true c pg opts headless).
  destruct (guardedSearch_closes_own a w1 eq_refl)
    as (evs2 & Ht2 & Hown & Hn2).
  pose proof (derivedFrom_attempt b (nextId w) a opts storageState evs1 evs2
                Hopen Hown Hc Hpg Hnew Hnewpg) as Hd.
  destruct (guardedSearch env dirname query limit stateFile noSaveState a w1)
    as [[[r|]|e] w2]; cbn [fst snd] in *.
  - exists (evs1 ++ evs2).
    split; [rewrite Ht2, Ht1; now rewrite app_assoc |].
    split; [lia | exact Hd].
  - destruct (Hretry w2) as (evs3 & Ht3 & Hn3 & Hd3).
    exists ((evs1 ++ evs2) ++ evs3).
    split; [rewrite Ht3, Ht2, Ht1; now rewrite !app_assoc |].
    split; [lia |].
    apply (derivedFrom_app b (nextId w) (nextId w2)); [exact Hd | exact Hd3 |].
    lia.
  - exists (evs1 ++ evs2).
    split; [rewrite Ht2, Ht1; now rewrite app_assoc |].
    split; [lia | exact Hd].
Qed.

Lemma tidy_throw {A : Type} (e : string) : tidy b (throw (A := A) e).
Proof.
  intros w. exists []. simpl. rewrite app_nil_r.
  split; [reflexivity |]. split; [lia |].
  apply derivedFrom_keepsOpen. constructor.
Qed.

End ControllerTidy.

Lemma tidy_googleSearch
    (devices : string -> option DeviceDescriptor) (host : Host)
    (env : nat -> Event -> Reply) (dirname : string -> string)
    (query : string) (options : CommandOptions) (b : Browser) :
  tidy b (googleSearch devices host env dirname query options (Some b)).
Proof.
  intros w. unfold googleSearch.
  set (stateFile := withDefault "./browser-state.json" (stateFile options)).
  destruct (loadState_outcome env stateFile w)
    as (pre & ss & w0 & Hload & Ht0 & Hn0 & _).
  assert (Forall keepsOpen pre) as Hpre.
  { destruct (run_loadState keepsOpen
                (fun ev Hev _ => ltac:(now destruct ev)) env 0 stateFile w)
      as (evs & Ht & Hall & _).
    rewrite Hload in Ht. simpl in Ht. rewrite Ht0 in Ht.
    apply app_inv_head in Ht. now subst evs. }
  unfold bind. rewrite Hload.
  match goal with
  | |- context [performSearch ?d ?h ?e ?dn ?q ?l ?sf ?ns ?lo ?st ?eb ?hl] =>
      destruct (tidy_performSearchBody d h e dn q l sf ns lo st b
                  (performSearchBody d h e dn q l sf ns lo st (Some b)
                     (throw "performSearch(false) from a headed attempt")
                     false) hl
                  (tidy_performSearchBody d h e dn q l sf ns lo st b _ false
                     (tidy_throw b _)) w0)
        as (evs & Ht & Hn & Hd)
  end.
  unfold performSearch.
  exists (pre ++ evs).
  split; [rewrite Ht, Ht0; now rewrite app_assoc |].
  split; [lia |].
  apply (derivedFrom_app b (nextId w) (nextId w0));
    [now apply derivedFrom_keepsOpen | exact Hd | lia].
Qed.

(** C4. Whatever the environment answers (success, a failing step, a
    challenge page at any checkpoint), a run of [googleSearch] with a browser
    [b] of the caller adds no event that closes [b]: every browser it closes
    has a handle that the run itself allocated, by a launch of its own.
    Every context it closes is one that the run created on [b], and every
    page it closes one that the run created in such a context; the pages
    and contexts that existed before the run are left alone. *)
Theorem caller_browser_never_closed
    (devices : string -> option DeviceDescriptor) (host : Host)
    (env : nat -> Event -> Reply) (dirname : string -> string)
    (query : string) (options : CommandOptions) (b : Browser) (w : World) :
  (b < nextId w)%nat ->
  exists evs,
    trace (snd (googleSearch devices host env dirname query options
                  (Some b) w)) = trace w ++ evs
    /\ (EvBrowserClose b ∉ evs)
    /\ (forall x, EvBrowserClose x ∈ evs -> (nextId w <= x)%nat)
    /\ (forall c, EvContextClose c ∈ evs ->
          (nextId w <= c)%nat
          /\ exists opts ss, EvNewContext b opts ss c ∈ evs)
    /\ (forall p, EvPageClose p ∈ evs ->
          (nextId w <= p)%nat
          /\ exists c opts ss,
               EvNewPage c p ∈ evs /\ EvNewContext b opts ss c ∈ evs).
Proof.
  intros Hb.
  destruct (keeps_googleSearch devices host env dirname (nextId w) query
              options (Some b) w (le_n _)) as (evs & Ht & _ & Hall & _).
  destruct (tidy_googleSearch devices host env dirname query options b w)
    as (evs' & Ht' & _ & Hc & Hp).
  assert (evs' = evs) as ->
    by (rewrite Ht in Ht'; now apply app_inv_head in Ht').
  exists evs. split; [exact Ht |].
  assert (forall x, EvBrowserClose x ∈ evs -> (nextId w <= x)%nat) as Hx.
  { intros x Hin. rewrite Forall_forall in Hall.
    exact (Hall _ Hin x eq_refl). }
  split; [intros Hin; specialize (Hx b Hin); lia |].
  split; [exact Hx |]. split; [exact Hc | exact Hp].
Qed.

Lemma caller_browser_never_closed_witness :
  exists evs,
    trace (snd (googleSearch Fixture.devices Fixture.host
                  Fixture.envChallenge Fixture.dirname "rocq"
                  Fixture.noOptions (Some 0%nat) (startWorld 1)))
    = trace (startWorld 1) ++ evs
    /\ (EvBrowserClose 0%nat ∉ evs)
    /\ (forall x, EvBrowserClose x ∈ evs -> (nextId (startWorld 1) <= x)%nat)
    /\ (forall c, EvContextClose c ∈ evs ->
          (nextId (startWorld 1) <= c)%nat
          /\ exists opts ss, EvNewContext 0%nat opts ss c ∈ evs)
    /\ (forall p, EvPageClose p ∈ evs ->
          (nextId (startWorld 1) <= p)%nat
          /\ exists c opts ss,
               EvNewPage c p ∈ evs /\ EvNewContext 0%nat opts ss c ∈ evs).
Proof.
  apply (caller_browser_never_closed Fixture.devices Fixture.host
           Fixture.envChallenge Fixture.dirname "rocq" Fixture.noOptions
           0%nat (startWorld 1)).
  simpl. lia.
Defined.

(** ** What a failed attempt leaves the entry points with (C8) *)

Section Outcome.

Variable env : nat -> Event -> Reply.
Variable E : string -> Prop.

Lemma outcome_ret {A : Type} (a : A) (Q : A -> Prop) :
  Q a -> outcome E Q (ret a).
Proof. intros HQ w. exact HQ. Qed.

Lemma outcome_bind {A B : Type} (m : M A) (k : A -> M B) (R : A -> Prop)
    (Q : B -> Prop) :
  outcome E R m -> (forall a, R a -> outcome E Q (k a)) ->
  outcome E Q (bind m k).
Proof.
  intros Hm Hk w. unfold bind. specialize (Hm w).
  destruct (m w) as [[a|e] w']; simpl in *; [now apply Hk | exact Hm].
Qed.

Lemma outcome_bind_any {A B : Type} (m : M A) (k : A -> M B)
    (Q : B -> Prop) :
  outcome E (fun _ => True) m -> (forall a, outcome E Q (k a)) ->
  outcome E Q (bind m k).
Proof. intros Hm Hk. eapply outcome_bind; [exact Hm | intros a _; apply Hk]. Qed.

Lemma outcome_call (ev : Event) :
  (forall t e, throws (env t ev) = Some e -> E e) ->
  outcome E (fun _ => True) (call env ev).
Proof.
  intros HE w. unfold call.
  destruct (throws (env (tick w) ev)) as [e|] eqn:Ht; simpl; [|exact I].
  exact (HE _ _ Ht).
Qed.

Lemma outcome_silent {A : Type} (m : M A) :
  (forall w, exists a, fst (m w) = Ok a) -> outcome E (fun _ => True) m.
Proof. intros H w. destruct (H w) as [a ->]. exact I. Qed.

Hypothesis Esetup :
  forall t ev e, setupCall ev = true -> throws (env t ev) = Some e -> E e.

Ltac outcome_step :=
  match goal with
  | |- outcome _ _ (bind _ _) => apply outcome_bind_any; [ | intros ? ]
  | |- outcome _ _ (ret _) => apply outcome_ret; exact I
  | |- outcome _ _ (call _ _) =>
      apply outcome_call; intros ? ?; now apply Esetup
  | |- outcome _ _ (observe _ _) =>
      apply outcome_silent; intros ?; eexists; reflexivity
  | |- outcome _ _ getSaved =>
      apply outcome_silent; intros ?; eexists; reflexivity
  | |- outcome _ _ (setSaved _) =>
      apply outcome_silent; intros ?; eexists; reflexivity
  | |- outcome _ _ fresh =>
      apply outcome_silent; intros ?; eexists; reflexivity
  | |- outcome _ _ (if ?c then _ else _) => destruct c
  | |- outcome _ _ (match ?c with _ => _ end) => destruct c
  end.

Lemma outcome_launch (headless : bool) :
  outcome E (fun _ => True) (launch env headless).
Proof. unfold launch. repeat outcome_step. Qed.

Lemma outcome_openPage (devices : string -> option DeviceDescriptor)
    (host : Host) (locale : string) (storageState : option string)
    (b : Browser) :
  outcome E (fun _ => True)
    (openPage devices host env locale storageState b).
Proof. unfold openPage. repeat outcome_step. Qed.

Lemma outcome_acquireBrowser (existingBrowser : option Browser)
    (headless : bool) :
  outcome E (fun bp => snd bp = false -> existingBrowser = None)
    (acquireBrowser env existingBrowser headless).
Proof.
  unfold acquireBrowser. destruct existingBrowser as [b|].
  - apply outcome_ret. discriminate.
  - apply outcome_bind_any; [apply outcome_launch |].
    intros b. now apply outcome_ret.
Qed.

End Outcome.

Section SearchOutcome.

Variable devices : string -> option DeviceDescriptor.
Variable host : Host.
Variable env : nat -> Event -> Reply.
Variable dirname : string -> string.
Variable query : string.
Variable limit : Z.
Variable stateFile : string.
Variable noSaveState : bool.
Variable locale : string.
Variable storageState : option string.
Variable existingBrowser : option Browser.

Lemma tryBlock_done (a : Attempt) (w : World) (r : SearchResponse) :
  fst (tryBlock env dirname query limit stateFile noSaveState a w)
  = Ok (Done r) ->
  exists D, r = mkResponse query (extractResults D limit).
Proof.
  intros H.
  destruct (run_tryBlock (fun _ => True) (fun _ _ _ => I) env dirname 0
              query limit stateFile noSaveState a) with (w := w)
    as (_ & _ & _ & _ & HQ).
  - auto.
  - right. auto.
  - intros _. exact I.
  - right. destruct (a_headless a); [|exact I].
    unfold escalateAllowed. destruct (browserWasProvided a); auto.
  - rewrite H in HQ. destruct HQ as (_ & HQ). now apply HQ.
Qed.

(** The [try] statement of [performSearch]: what its [try] block returns,
    or the mock result for what its [try] block throws; it rejects only
    when the [catch] block fails in closing the attempt's own browser. *)
Lemma guardedSearch_outcome (a : Attempt) (w : World) :
  match fst (guardedSearch env dirname query limit stateFile noSaveState a w)
  with
  | Ok Retry => a_headless a = true
  | Ok (Done r) =>
      resolvesWith env dirname query limit stateFile noSaveState r
  | Throw e =>
      browserWasProvided a = false
      /\ exists t, throws (env t (EvBrowserClose (a_browser a))) = Some e
  end.
Proof.
  pose proof (headed_attempt_never_retries env dirname query limit stateFile
                noSaveState a w) as Hheaded.
  pose proof (tryBlock_done a w) as Hdone.
  unfold guardedSearch, tryCatch in *.
  destruct (tryBlock env dirname query limit stateFile noSaveState a w)
    as [[[r|]|error] w'] eqn:Htry; cbn [fst] in *.
  - left. now apply Hdone.
  - destruct (a_headless a); [reflexivity |].
    now contradiction Hheaded.
  - destruct (catchBlock_outcome env dirname query stateFile noSaveState a
                error w') as [H | (Hown & t & e & Ht & H)]; rewrite H.
    + right. exists error, a, w. rewrite Htry. now split.
    + split; [exact Hown |]. now exists t.
Qed.

Lemma body_eq (retry : M SearchResponse) (headless : bool) (w : World) :
  performSearchBody devices host env dirname query limit stateFile
    noSaveState locale storageState existingBrowser retry headless w
  = match acquireBrowser env existingBrowser headless w with
    | (Ok (b, p), w1) =>
        match openPage devices host env locale storageState b w1 with
        | (Ok (opts, c, pg), w2) =>
            match guardedSearch env dirname query limit stateFile
                    noSaveState (mkAttempt b p c pg opts headless) w2 with
            | (Ok (Done r), w3) => (Ok r, w3)
            | (Ok Retry, w3) => retry w3
            | (Throw e, w3) => (Throw e, w3)
            end
        | (Throw e, w2) => (Throw e, w2)
        end
    | (Throw e, w1) => (Throw e, w1)
    end.
Proof.
  unfold performSearchBody, runAttempt, bind, ret.
  destruct (acquireBrowser env existingBrowser headless w)
    as [[[b p]|e] w1]; [|reflexivity].
  destruct (openPage devices host env locale storageState b w1)
    as [[[[opts c] pg]|e] w2]; [|reflexivity].
  destruct (guardedSearch env dirname query limit stateFile noSaveState
              (mkAttempt b p c pg opts headless) w2)
    as [[[r|]|e] w3]; reflexivity.
Qed.

Lemma outcome_performSearchBody (retry : M SearchResponse)
    (headless : bool) :
  headless = false \/ outcome (unguarded env existingBrowser)
    (resolvesWith env dirname query limit stateFile noSaveState) retry ->
  outcome (unguarded env existingBrowser)
    (resolvesWith env dirname query limit stateFile noSaveState)
    (performSearchBody devices host env dirname query limit stateFile
       noSaveState locale storageState existingBrowser retry headless).
Proof.
  intros Hretry w. rewrite body_eq.
  assert (forall t ev e, setupCall ev = true ->
                         throws (env t ev) = Some e ->
                         unguarded env existingBrowser e) as Esetup.
  { intros t ev e Hev Ht. exists t, ev. split; [now left | exact Ht]. }
  pose proof (outcome_acquireBrowser env _ Esetup existingBrowser headless w)
    as Hacq.
  destruct (acquireBrowser env existingBrowser headless w)
    as [[[b p]|e] w1]; cbn [fst snd] in *; [|exact Hacq].
  pose proof (outcome_openPage env _ Esetup devices host locale storageState
                b w1) as Hopen.
  destruct (openPage devices host env locale storageState b w1)
    as [[[[opts c] pg]|e] w2]; cbn [fst] in *; [|exact Hopen].
  pose proof (guardedSearch_outcome (mkAttempt b p c pg opts headless) w2)
    as Hguard.
  destruct (guardedSearch env dirname query limit stateFile noSaveState
              (mkAttempt b p c pg opts headless) w2)
    as [[[r|]|e] w3]; cbn [fst a_headless browserWasProvided a_browser] in *.
  - exact Hguard.
  - destruct Hretry as [-> | Hretry]; [discriminate | apply Hretry].
  - destruct Hguard as (-> & t & Ht). exists t, (EvBrowserClose b).
    split; [right; split; [now apply Hacq | now exists b] | exact Ht].
Qed.

Lemma outcome_performSearch (headless : bool) :
  outcome (unguarded env existingBrowser)
    (resolvesWith env dirname query limit stateFile noSaveState)
    (performSearch devices host env dirname query limit stateFile
       noSaveState locale storageState existingBrowser headless).
Proof.
  unfold performSearch. apply outcome_performSearchBody. right.
  apply outcome_performSearchBody. now left.
Qed.

(** An attempt whose [try] block throws: the state is saved, the
    attempt's own browser is closed, and the mock result is returned,
    unless that [close] fails. *)
Lemma performSearch_on_throw (headless : bool) (w : World) (b : Browser)
    (p : bool) (w1 : World) (opts : ContextOptions) (c : BrowserContext)
    (pg : Page) (w2 : World) (error : string) (w3 w4 : World) :
  acquireBrowser env existingBrowser headless w = (Ok (b, p), w1) ->
  openPage devices host env locale storageState b w1
  = (Ok (opts, c, pg), w2) ->
  tryBlock env dirname query limit stateFile noSaveState
    (mkAttempt b p c pg opts headless) w2 = (Throw error, w3) ->
  saveState env dirname stateFile noSaveState
    (mkAttempt b p c pg opts headless) w3 = (Ok tt, w4) ->
  fst (performSearch devices host env dirname query limit stateFile
         noSaveState locale storageState existingBrowser headless w)
  = match (if p then None
           else throws (env (tick w4) (EvBrowserClose b))) with
    | None => Ok (errorResponse query error)
    | Some e => Throw e
    end.
Proof.
  intros Hacq Hopen Htry Hsave. unfold performSearch.
  rewrite body_eq, Hacq, Hopen.
  unfold guardedSearch, tryCatch. rewrite Htry.
  unfold catchBlock, bind at 1. rewrite Hsave.
  cbn [browserWasProvided a_browser]. destruct p; [reflexivity |].
  cbn [negb]. unfold bind, call, ret.
  now destruct (throws (env (tick w4) (EvBrowserClose b))).
Qed.

End SearchOutcome.

Section CaptureOutcome.

Variable devices : string -> option DeviceDescriptor.
Variable host : Host.
Variable env : nat -> Event -> Reply.
Variable dirname : string -> string.
Variable regexReplace : string -> string -> string -> string.
Variable query : string.
Variable stateFile : string.
Variable noSaveState : bool.
Variable locale : string.
Variable storageState : option string.
Variable saveToFile : bool.
Variable outputPath : option string.

Lemma headed_capture_never_retries (a : Attempt) (w : World) :
  a_headless a = false ->
  fst (guardedHtml env dirname regexReplace query stateFile noSaveState
         saveToFile outputPath a w) <> Ok Retry.
Proof.
  intros Hh H.
  destruct (run_guardedHtml (fun _ => True) (fun _ _ _ => I)
              (fun _ _ => I) env dirname regexReplace 0 query stateFile
              noSaveState saveToFile outputPath a) with (w := w)
    as (_ & _ & _ & _ & HQ).
  - right. auto.
  - right. auto.
  - exact I.
  - right. rewrite Hh. exact I.
  - rewrite H in HQ. destruct HQ as (HQ & _). now apply HQ; [right |].
Qed.

(** The [try] statement of [performSearchAndGetHtml]: what its [try]
    block returns; for what its [try] block throws it rejects, with the
    wrapped error or with the error of closing the browser. *)
Lemma guardedHtml_outcome (a : Attempt) (w : World) :
  match fst (guardedHtml env dirname regexReplace query stateFile
               noSaveState saveToFile outputPath a w) with
  | Ok Retry => a_headless a = true
  | Ok (Done r) => True
  | Throw e =>
      wrapsError env dirname regexReplace query stateFile noSaveState
        saveToFile outputPath e
      \/ exists t, throws (env t (EvBrowserClose (a_browser a))) = Some e
  end.
Proof.
  pose proof (headed_capture_never_retries a w) as Hheaded.
  unfold guardedHtml, tryCatch in *.
  destruct (tryBlockHtml env dirname regexReplace query stateFile
              noSaveState saveToFile outputPath a w)
    as [[[r|]|error] w'] eqn:Htry; cbn [fst] in *.
  - exact I.
  - destruct (a_headless a); [reflexivity |].
    now contradiction Hheaded.
  - destruct (catchBlockHtml_outcome env dirname stateFile noSaveState a
                error w') as [H | (t & e & Ht & H)]; rewrite H.
    + left. exists error, a, w. rewrite Htry. now split.
    + right. now exists t.
Qed.

Lemma bodyHtml_eq (retry : M HtmlResponse) (headless : bool) (w : World) :
  performSearchAndGetHtmlBody devices host env dirname regexReplace query
    stateFile noSaveState locale storageState saveToFile outputPath retry
    headless w
  = match launch env headless w with
    | (Ok b, w1) =>
        match openPage devices host env locale storageState b w1 with
        | (Ok (opts, c, pg), w2) =>
            match guardedHtml env dirname regexReplace query stateFile
                    noSaveState saveToFile outputPath
                    (mkAttempt b false c pg opts headless) w2 with
            | (Ok (Done r), w3) => (Ok r, w3)
            | (Ok Retry, w3) => retry w3
            | (Throw e, w3) => (Throw e, w3)
            end
        | (Throw e, w2) => (Throw e, w2)
        end
    | (Throw e, w1) => (Throw e, w1)
    end.
Proof.
  unfold performSearchAndGetHtmlBody, bind, ret.
  destruct (launch env headless w) as [[b|e] w1]; [|reflexivity].
  destruct (openPage devices host env locale storageState b w1)
    as [[[[opts c] pg]|e] w2]; [|reflexivity].
  destruct (guardedHtml env dirname regexReplace query stateFile noSaveState
              saveToFile outputPath (mkAttempt b false c pg opts headless) w2)
    as [[[r|]|e] w3]; reflexivity.
Qed.

Lemma outcome_performSearchAndGetHtmlBody (retry : M HtmlResponse)
    (headless : bool) :
  headless = false
  \/ outcome (fun e => wrapsError env dirname regexReplace query stateFile
                         noSaveState saveToFile outputPath e
                       \/ unguarded env None e)
       (fun _ => True) retry ->
  outcome (fun e => wrapsError env dirname regexReplace query stateFile
                      noSaveState saveToFile outputPath e
                    \/ unguarded env None e)
    (fun _ => True)
    (performSearchAndGetHtmlBody devices host env dirname regexReplace query
       stateFile noSaveState locale storageState saveToFile outputPath retry
       headless).
Proof.
  intros Hretry w. rewrite bodyHtml_eq.
  assert (forall t ev e, setupCall ev = true ->
                         throws (env t ev) = Some e ->
                         unguarded env None e) as Esetup.
  { intros t ev e Hev Ht. exists t, ev. split; [now left | exact Ht]. }
  pose proof (outcome_launch env _ Esetup headless w) as Hl.
  destruct (launch env headless w) as [[b|e] w1]; cbn [fst] in *;
    [|now right].
  pose proof (outcome_openPage env _ Esetup devices host locale storageState
                b w1) as Hopen.
  destruct (openPage devices host env locale storageState b w1)
    as [[[[opts c] pg]|e] w2]; cbn [fst] in *; [|now right].
  pose proof (guardedHtml_outcome (mkAttempt b false c pg opts headless) w2)
    as Hguard.
  destruct (guardedHtml env dirname regexReplace query stateFile noSaveState
              saveToFile outputPath (mkAttempt b false c pg opts headless) w2)
    as [[[r|]|e] w3]; cbn [fst a_headless a_browser] in *.
  - exact I.
  - destruct Hretry as [-> | Hretry]; [discriminate | apply Hretry].
  - destruct Hguard as [Hw | (t & Ht)]; [now left | right].
    exists t, (EvBrowserClose b).
    split; [right; split; [reflexivity | now exists b] | exact Ht].
Qed.

Lemma outcome_performSearchAndGetHtml (headless : bool) :
  outcome (fun e => wrapsError env dirname regexReplace query stateFile
                      noSaveState saveToFile outputPath e
                    \/ unguarded env None e)
    (fun _ => True)
    (performSearchAndGetHtml devices host env dirname regexReplace query
       stateFile noSaveState locale storageState saveToFile outputPath
       headless).
Proof.
  unfold performSearchAndGetHtml.
  apply outcome_performSearchAndGetHtmlBody. right.
  apply outcome_performSearchAndGetHtmlBody. now left.
Qed.

(** An attempt of the page capture whose [try] block throws: the state
    is saved, the browser is closed, and the wrapped error is thrown, unless
    that [close] fails. *)
Lemma capture_on_throw (headless : bool) (w : World) (b : Browser)
    (w1 : World) (opts : ContextOptions) (c : BrowserContext) (pg : Page)
    (w2 : World) (error : string) (w3 w4 : World) :
  launch env headless w = (Ok b, w1) ->
  openPage devices host env locale storageState b w1
  = (Ok (opts, c, pg), w2) ->
  tryBlockHtml env dirname regexReplace query stateFile noSaveState
    saveToFile outputPath (mkAttempt b false c pg opts headless) w2
  = (Throw error, w3) ->
  saveState env dirname stateFile noSaveState
    (mkAttempt b false c pg opts headless) w3 = (Ok tt, w4) ->
  fst (performSearchAndGetHtml devices host env dirname regexReplace query
         stateFile noSaveState locale storageState saveToFile outputPath
         headless w)
  = Throw (match throws (env (tick w4) (EvBrowserClose b)) with
           | None => htmlError error
           | Some e => e
           end).
Proof.
  intros Hl Hopen Htry Hsave. unfold performSearchAndGetHtml.
  rewrite bodyHtml_eq, Hl, Hopen.
  unfold guardedHtml, tryCatch. rewrite Htry.
  unfold catchBlockHtml, bind at 1. rewrite Hsave.
  cbn [a_browser]. unfold bind, call, throw.
  now destruct (throws (env (tick w4) (EvBrowserClose b))).
Qed.

End CaptureOutcome.




(** ** The limit of the extractor as a number *)

Lemma forOf_ext {A S : Type} (stop stop' : S -> bool) (body body' : A -> S -> S)
    (xs : list A) (s : S) :
  (forall s, stop s = stop' s) -> (forall x s, body x s = body' x s) ->
  Js.forOf stop body xs s = Js.forOf stop' body' xs s.
Proof.
  intros Hstop Hbody. revert s.
  induction xs as [|x xs IH]; intros s; simpl; [reflexivity |].
  rewrite Hstop, Hbody. now destruct (stop' s).
Qed.

(** A length reaches a number when it reaches the number rounded up. *)
Lemma lengthGe_ceiling (n : nat) (q : Q) :
  lengthGe n (Finite q) = (Qceiling q <=? Z.of_nat n).
Proof.
  unfold lengthGe. apply eq_true_iff_eq.
  rewrite Qle_bool_iff, Z.leb_le. split; intros H.
  - apply Qceiling_resp_le in H. now rewrite Qceiling_Z in H.
  - eapply Qle_trans; [apply Qle_ceiling |]. now rewrite Zle_Qle in H.
Qed.

Lemma lengthLt_ceiling (n : nat) (q : Q) :
  lengthLt n (Finite q) = (Z.of_nat n <? Qceiling q).
Proof.
  unfold lengthLt. change (Qle_bool q (inject_Z (Z.of_nat n)))
    with (lengthGe n (Finite q)).
  rewrite lengthGe_ceiling. now rewrite Z.ltb_antisym.
Qed.

Lemma truncate_nonneg (q : Q) : (0 <= q)%Q -> truncate q = Qfloor q.
Proof.
  intros Hq. unfold truncate. apply Qle_bool_iff in Hq. now rewrite Hq.
Qed.

Lemma slice0_take {A : Type} (l : list A) (e : Z) :
  0 <= e -> Js.slice0 l e = take (Z.to_nat e) l.
Proof.
  intros He. unfold Js.slice0.
  assert ((e <? 0) = false) as -> by (apply Z.ltb_ge; lia).
  destruct (Z.le_ge_cases e (Z.of_nat (length l))) as [H | H].
  - now rewrite Z.min_l.
  - rewrite Z.min_r by exact H. rewrite Nat2Z.id.
    rewrite !take_ge; [reflexivity | lia | lia].
Qed.

Section ExtractorNumber.

Variable D : Dom.

(** The loops read a finite limit as the limit rounded up. *)
Lemma cascadeNum_ceiling (q : Q) :
  cascadeNum D (Finite q) = cascade D (Qceiling q).
Proof.
  unfold cascadeNum, cascade. apply forOf_ext.
  - intros acc. apply lengthGe_ceiling.
  - intros selectors acc. unfold processSelectorSetNum, processSelectorSet.
    apply forOf_ext; [intros acc'; apply lengthGe_ceiling | reflexivity].
Qed.

Lemma supplementedNum_ceiling (q : Q) :
  supplementedNum D (Finite q) = supplemented D (Qceiling q).
Proof.
  unfold supplementedNum, supplemented.
  rewrite cascadeNum_ceiling, lengthLt_ceiling.
  destruct (_ <? _); [|reflexivity].
  apply forOf_ext; [intros acc; apply lengthGe_ceiling | reflexivity].
Qed.

(** X7. The two loops stop at the limit rounded up, and the final [slice]
    cuts at the limit rounded down. For a finite limit that is not
    negative the loops collect at most as many results as the limit rounded
    up, and the function returns the first results up to the limit rounded
    down: with a fractional limit the loops can collect one result that the
    [slice] removes. With an integer limit the [slice] removes nothing, and
    the function is the one given for integer limits. *)
Theorem loops_stop_at_limit (q : Q) (k : Z) :
  (0 <= q)%Q -> 0 <= k ->
  collected (supplementedNum D (Finite q)) <= Qceiling q
  /\ extractResultsNum D (Finite q)
     = take (Z.to_nat (Qfloor q)) (acc_results (supplementedNum D (Finite q)))
  /\ extractResultsNum D (Finite (inject_Z k))
     = acc_results (supplementedNum D (Finite (inject_Z k)))
  /\ extractResultsNum D (Finite (inject_Z k)) = extractResults D k.
Proof.
  intros Hq Hk.
  assert (0 <= Qfloor q) as Hfloor.
  { exact (Qfloor_resp_le _ _ Hq). }
  assert (0 <= Qceiling q) as Hceil.
  { exact (Qceiling_resp_le _ _ Hq). }
  split; [|split; [|split]].
  - rewrite supplementedNum_ceiling. now apply supplemented_bounded.
  - unfold extractResultsNum, sliceNum.
    rewrite truncate_nonneg by exact Hq. now apply slice0_take.
  - unfold extractResultsNum, sliceNum.
    rewrite truncate_nonneg
      by (change 0%Q with (inject_Z 0); now rewrite <- Zle_Qle).
    rewrite Qfloor_Z, supplementedNum_ceiling, Qceiling_Z.
    apply slice0_all. now apply supplemented_bounded.
  - unfold extractResultsNum, sliceNum, extractResults.
    rewrite truncate_nonneg
      by (change 0%Q with (inject_Z 0); now rewrite <- Zle_Qle).
    now rewrite Qfloor_Z, supplementedNum_ceiling, Qceiling_Z.
Qed.

End ExtractorNumber.

Lemma loops_stop_at_limit_witness :
  collected (supplementedNum Fixture.pageDom (Finite (5 # 2)))
  <= Qceiling (5 # 2)
  /\ extractResultsNum Fixture.pageDom (Finite (5 # 2))
     = take (Z.to_nat (Qfloor (5 # 2)))
         (acc_results (supplementedNum Fixture.pageDom (Finite (5 # 2))))
  /\ extractResultsNum Fixture.pageDom (Finite (inject_Z 2))
     = acc_results (supplementedNum Fixture.pageDom (Finite (inject_Z 2)))
  /\ extractResultsNum Fixture.pageDom (Finite (inject_Z 2))
     = extractResults Fixture.pageDom 2.
Proof.
  apply (loops_stop_at_limit Fixture.pageDom (5 # 2) 2).
  - unfold Qle. simpl. lia.
  - lia.
Defined.

(** With the limit 2.5 the loops collect three results of the fixture
    page and the [slice] returns two of them; [NaN] returns nothing. *)
Example fractional_limit_overshoots :
  collected (supplementedNum Fixture.pageDom (Finite (5 # 2))) = 3
  /\ length (extractResultsNum Fixture.pageDom (Finite (5 # 2))) = 2%nat
  /\ extractResultsNum Fixture.pageDom NaN = [].
Proof. repeat split; vm_compute; reflexivity. Qed.

(** ** The preview of the command line *)

(** X21. The preview that the command line prints of a captured page,
    counted in UTF-16 code units as [length] and [substring] count: it is
    the page itself when the page has at most 500 code units, and its first
    500 code units followed by three dots otherwise, 503 code units in
    all. *)
Theorem htmlPreview_spec (html : JsString) :
  htmlPreview html
  = (if (length html <=? 500)%nat then html else take 500 html ++ dots)
  /\ length (htmlPreview html)
     = (if (length html <=? 500)%nat then length html else 503%nat).
Proof.
  unfold htmlPreview.
  destruct (length html <=? 500)%nat eqn:L.
  - apply Nat.leb_le in L.
    assert ((500 <? length html)%nat = false) as ->
      by (apply Nat.ltb_ge; lia).
    rewrite take_ge by exact L. now rewrite app_nil_r.
  - apply Nat.leb_gt in L.
    assert ((500 <? length html)%nat = true) as ->
      by (apply Nat.ltb_lt; lia).
    split; [reflexivity |].
    rewrite length_app, length_take. unfold dots. simpl length. lia.
Qed.
